(** * The SolrCloud reconciler of the Solr operator

    A shallow embedding of [controllers/solrcloud_controller.go]: the
    storage finalizer and the cleanup of persistent volume claims, the
    ZooKeeper resolver, the TLS certificate coordinator, the status
    aggregator, the update of the cluster property in ZooKeeper and
    [Reconcile] itself, followed by the properties that the specification
    states about them.

    Conventions of the embedding.
    - Go integers are [Z]; [int32] and [int] additions wrap ([wrap32],
      [wrap64]).  A pointer that may be nil is an [option]; dereferencing
      nil, indexing past the end of a slice and [make] with a negative
      length panic.
    - A Go [error] value is an [option error] ([None] is nil).
    - The Kubernetes API server and ZooKeeper are outside the program.
      Every call to them is appended to a trace, and the answer to a call
      is given by an environment that may depend on all calls issued
      before it.
    - The types of Kubernetes are as its API declares them.  The types
      of the [api/v1beta1] package are not among the sources: a field
      that the controller compares with nil or reads through [*] is a
      pointer, and the other fields that it reads are taken to hold
      values.
    - Logging is not modelled. *)

From Stdlib Require Import ZArith String Ascii DecimalString List Lia.
From stdpp Require Import base decidable option list gmap strings sorting.

Open Scope string_scope.
Open Scope list_scope.
Open Scope Z_scope.

(* ================================================================== *)
(** ** Go values *)

(** [int32] and [int] (64 bit) arithmetic wraps around. *)
Definition wrap32 (z : Z) : Z := (z + 2 ^ 31) mod 2 ^ 32 - 2 ^ 31.
Definition wrap64 (z : Z) : Z := (z + 2 ^ 63) mod 2 ^ 64 - 2 ^ 63.

(** [len] of a slice. *)
Definition len {A} (l : list A) : Z := Z.of_nat (length l).

(** [fmt.Sprintf("%d", i)]. *)
Definition itoa (i : Z) : string := NilZero.string_of_int (Z.to_int i).

(** [time.Duration] counts nanoseconds. *)
Definition Second : Z := 1000000000.

(** [strings.Contains]. *)
Definition strings_Contains (s substr : string) : bool :=
  match String.index 0 substr s with
  | Some _ => true
  | None => false
  end.

(** [strings.Split] at a separator of one character. *)
Fixpoint strings_Split (s : string) (sep : ascii) : list string :=
  match s with
  | EmptyString => [EmptyString]
  | String c rest =>
      if Ascii.eqb c sep then EmptyString :: strings_Split rest sep
      else match strings_Split rest sep with
           | piece :: pieces => String c piece :: pieces
           | [] => [String c EmptyString]
           end
  end.

(** The double quote character, escaped in a Go string. *)
Definition quote : string := String "034"%char EmptyString.

(** Errors.  The client returns API status errors, which carry a reason,
    or other errors (transport, encoding).  [errors.NewBadRequest] and
    [errors.IsNotFound] are those of [k8s.io/apimachinery]. *)
Inductive error : Type :=
| StatusError (reason : string) (message : string)
| OtherError (message : string).

Definition NewBadRequest (reason : string) : error :=
  StatusError "BadRequest" reason.

Definition IsNotFound (err : error) : bool :=
  match err with
  | StatusError reason _ => String.eqb reason "NotFound"
  | OtherError _ => false
  end.

(** [err.Error()]. *)
Definition Error (err : error) : string :=
  match err with
  | StatusError _ message => message
  | OtherError message => message
  end.

#[global] Instance error_eq_dec : EqDecision error.
Proof. solve_decision. Defined.

(** [sort.Strings] orders strings byte by byte. *)
Definition string_le (a b : string) : Prop := String.leb a b = true.

#[global] Instance string_le_dec a b : Decision (string_le a b).
Proof. unfold string_le. apply _. Defined.

Definition sort_Strings (l : list string) : list string :=
  merge_sort string_le l.

(* ================================================================== *)
(** ** Kubernetes objects

    The records keep the fields that the controller reads or writes.  The
    part of an object that only the generators and the field-copy helpers
    look at is carried as one opaque field. *)

Record NamespacedName := {
  nn_Name : string;
  nn_Namespace : string
}.

Record OwnerReference := {
  owner_Kind : string;
  owner_Name : string;
  owner_UID : string
}.

Record Container := { container_Image : string }.
Record Volume := { volume_Name : string }.

Record ContainerStatus := {
  cs_Name : string;
  cs_Started : option bool
}.

Record PodCondition := {
  cond_Type : string;
  cond_Status : string
}.

Definition PodReady : string := "Ready".
Definition ConditionTrue : string := "True".

Record Pod := {
  pod_Name : string;
  pod_Namespace : string;
  pod_UID : string;
  pod_Labels : gmap string string;
  pod_NodeName : string;
  pod_Containers : list Container;
  pod_Volumes : list Volume;
  pod_ContainerStatuses : list ContainerStatus;
  pod_Conditions : list PodCondition
}.

Record PersistentVolumeClaim := {
  pvc_Name : string;
  pvc_Namespace : string;
  pvc_UID : string;
  pvc_Labels : gmap string string
}.

Record StatefulSetStatus := {
  sts_Replicas : Z;
  sts_ReadyReplicas : Z;
  sts_UpdateRevision : string
}.

(** The zero value of [appsv1.StatefulSetStatus]. *)
Definition StatefulSetStatus_zero : StatefulSetStatus :=
  {| sts_Replicas := 0; sts_ReadyReplicas := 0; sts_UpdateRevision := "" |}.

Record StatefulSet := {
  ss_Name : string;
  ss_Namespace : string;
  (** [Spec.Selector] is a pointer to a label selector; the field holds
      its [MatchLabels]. *)
  ss_Selector : option (gmap string string);
  ss_Spec : string;
  ss_Status : StatefulSetStatus
}.

Record Service := {
  svc_Name : string;
  svc_Namespace : string;
  svc_ClusterIP : string;
  svc_Spec : string
}.

Record ConfigMap := {
  cm_Name : string;
  cm_Namespace : string;
  (** A map, which may be nil. *)
  cm_Data : option (gmap string string)
}.

Record Ingress := {
  ing_Name : string;
  ing_Namespace : string;
  ing_Spec : string
}.

Record Secret := {
  secret_Name : string;
  secret_Namespace : string;
  secret_ResourceVersion : string;
  secret_OwnerReferences : list OwnerReference;
  secret_Data : gmap string string
}.

Record Certificate := {
  cert_Name : string;
  cert_Namespace : string;
  cert_SecretName : string;
  cert_Spec : string
}.

Record Issuer := {
  issuer_Name : string;
  issuer_Namespace : string;
  issuer_Spec : string
}.

Record ZookeeperCluster := {
  zk_Name : string;
  zk_Namespace : string;
  zk_Replicas : Z;
  zk_Spec : string;
  zk_ExternalClientEndpoint : string
}.

(* ================================================================== *)
(** ** The SolrCloud resource *)

Record ZookeeperConnectionInfo := {
  InternalConnectionString : string;
  ExternalConnectionString : option string;
  ChRoot : string
}.

Definition ZookeeperConnectionInfo_zero : ZookeeperConnectionInfo :=
  {| InternalConnectionString := "";
     ExternalConnectionString := None;
     ChRoot := "" |}.

Record ZookeeperSpec := {
  zkspec_ChRoot : string;
  zkspec_Rest : string
}.

Record ZookeeperRef := {
  ConnectionInfo : option ZookeeperConnectionInfo;
  ProvidedZookeeper : option ZookeeperSpec
}.

Record ExternalAddressability := {
  ext_Method : string;
  ext_UseExternalAddress : bool;
  ext_HideNodes : bool;
  ext_HideCommon : bool;
  ext_DomainName : string
}.

Record SolrPersistentDataStorageOptions := {
  VolumeReclaimPolicy : string
}.

Record SolrDataStorageOptions := {
  PersistentStorage : option SolrPersistentDataStorageOptions;
  (** Only tested against nil. *)
  BackupRestoreOptions : option string
}.

Record CreateCertificate := {
  autoCreate_Name : string;
  (** Only tested against nil. *)
  autoCreate_IssuerRef : option string
}.

Record SolrTLSOptions := {
  AutoCreate : option CreateCertificate;
  PKCS12Secret_Name : string;
  PKCS12Secret_Key : string;
  RestartOnTLSSecretUpdate : bool;
  TLSSecretVersion : string
}.

Record ConfigMapOptions := {
  ProvidedConfigMap : string
}.

Record SolrCloudSpec := {
  Replicas : option Z;
  SolrImage_Tag : string;
  UpdateStrategy_Method : string;
  SolrAddressability_External : option ExternalAddressability;
  StorageOptions : SolrDataStorageOptions;
  CustomSolrKubeOptions_ConfigMapOptions : option ConfigMapOptions;
  ZookeeperRef_ : ZookeeperRef;
  SolrTLS : option SolrTLSOptions;
  spec_Rest : string
}.

Record SolrNodeStatus := {
  node_Name : string;
  node_NodeName : string;
  node_InternalAddress : string;
  node_ExternalAddress : string;
  node_Ready : bool;
  node_Version : string;
  node_SpecUpToDate : bool
}.

Definition SolrNodeStatus_zero : SolrNodeStatus :=
  {| node_Name := ""; node_NodeName := ""; node_InternalAddress := "";
     node_ExternalAddress := ""; node_Ready := false; node_Version := "";
     node_SpecUpToDate := false |}.

Record SolrCloudStatus := {
  (** A slice: [None] is the nil slice, which [reflect.DeepEqual] tells
      apart from an empty one. *)
  SolrNodes : option (list SolrNodeStatus);
  status_Replicas : Z;
  ReadyReplicas : Z;
  UpToDateNodes : Z;
  Version : string;
  TargetVersion : string;
  InternalCommonAddress : string;
  ExternalCommonAddress : option string;
  ZookeeperConnectionInfo_ : ZookeeperConnectionInfo;
  BackupRestoreReady : bool;
  UrlSchemeClusterProperty : bool
}.

(** [solr.SolrCloudStatus{}]. *)
Definition SolrCloudStatus_zero : SolrCloudStatus :=
  {| SolrNodes := None; status_Replicas := 0; ReadyReplicas := 0;
     UpToDateNodes := 0; Version := ""; TargetVersion := "";
     InternalCommonAddress := ""; ExternalCommonAddress := None;
     ZookeeperConnectionInfo_ := ZookeeperConnectionInfo_zero;
     BackupRestoreReady := false; UrlSchemeClusterProperty := false |}.

Record SolrCloud := {
  Name : string;
  Namespace : string;
  Finalizers : list string;
  (** [ObjectMeta.DeletionTimestamp]: nil, or an instant counted from the
      zero time. *)
  DeletionTimestamp : option Z;
  Spec : SolrCloudSpec;
  Status : SolrCloudStatus
}.

(** [metav1.Time.IsZero]: a nil pointer or the zero instant. *)
Definition IsZero (t : option Z) : bool :=
  match t with
  | None => true
  | Some instant => instant =? 0
  end.

Definition set_Finalizers (f : list string) (c : SolrCloud) : SolrCloud :=
  {| Name := Name c; Namespace := Namespace c; Finalizers := f;
     DeletionTimestamp := DeletionTimestamp c; Spec := Spec c;
     Status := Status c |}.

Definition set_Status (s : SolrCloudStatus) (c : SolrCloud) : SolrCloud :=
  {| Name := Name c; Namespace := Namespace c; Finalizers := Finalizers c;
     DeletionTimestamp := DeletionTimestamp c; Spec := Spec c;
     Status := s |}.

(** [instance.Spec.SolrTLS.TLSSecretVersion = version]. *)
Definition set_TLSSecretVersion (version : string) (c : SolrCloud)
  : SolrCloud :=
  let spec := Spec c in
  {| Name := Name c; Namespace := Namespace c; Finalizers := Finalizers c;
     DeletionTimestamp := DeletionTimestamp c;
     Spec :=
       {| Replicas := Replicas spec;
          SolrImage_Tag := SolrImage_Tag spec;
          UpdateStrategy_Method := UpdateStrategy_Method spec;
          SolrAddressability_External := SolrAddressability_External spec;
          StorageOptions := StorageOptions spec;
          CustomSolrKubeOptions_ConfigMapOptions :=
            CustomSolrKubeOptions_ConfigMapOptions spec;
          ZookeeperRef_ := ZookeeperRef_ spec;
          SolrTLS :=
            match SolrTLS spec with
            | Some tls =>
                Some {| AutoCreate := AutoCreate tls;
                        PKCS12Secret_Name := PKCS12Secret_Name tls;
                        PKCS12Secret_Key := PKCS12Secret_Key tls;
                        RestartOnTLSSecretUpdate :=
                          RestartOnTLSSecretUpdate tls;
                        TLSSecretVersion := version |}
            | None => None
            end;
          spec_Rest := spec_Rest spec |};
     Status := Status c |}.

Definition set_UrlSchemeClusterProperty (b : bool) (s : SolrCloudStatus)
  : SolrCloudStatus :=
  {| SolrNodes := SolrNodes s; status_Replicas := status_Replicas s;
     ReadyReplicas := ReadyReplicas s; UpToDateNodes := UpToDateNodes s;
     Version := Version s; TargetVersion := TargetVersion s;
     InternalCommonAddress := InternalCommonAddress s;
     ExternalCommonAddress := ExternalCommonAddress s;
     ZookeeperConnectionInfo_ := ZookeeperConnectionInfo_ s;
     BackupRestoreReady := BackupRestoreReady s;
     UrlSchemeClusterProperty := b |}.

Definition set_ZookeeperConnectionInfo (info : ZookeeperConnectionInfo)
    (s : SolrCloudStatus) : SolrCloudStatus :=
  {| SolrNodes := SolrNodes s; status_Replicas := status_Replicas s;
     ReadyReplicas := ReadyReplicas s; UpToDateNodes := UpToDateNodes s;
     Version := Version s; TargetVersion := TargetVersion s;
     InternalCommonAddress := InternalCommonAddress s;
     ExternalCommonAddress := ExternalCommonAddress s;
     ZookeeperConnectionInfo_ := info;
     BackupRestoreReady := BackupRestoreReady s;
     UrlSchemeClusterProperty := UrlSchemeClusterProperty s |}.

(** [reflect.DeepEqual] on statuses is structural equality: pointers are
    compared through their targets, slices element by element. *)
#[global] Instance ZookeeperConnectionInfo_eq_dec : EqDecision ZookeeperConnectionInfo.
Proof. solve_decision. Defined.

#[global] Instance SolrNodeStatus_eq_dec : EqDecision SolrNodeStatus.
Proof. solve_decision. Defined.

#[global] Instance SolrCloudStatus_eq_dec : EqDecision SolrCloudStatus.
Proof. solve_decision. Defined.

Definition DeepEqual (a b : SolrCloudStatus) : bool := bool_decide (a = b).

(** [reconcile.Result]. *)
Record Result := {
  Requeue : bool;
  RequeueAfter : Z
}.

Definition Result_zero : Result := {| Requeue := false; RequeueAfter := 0 |}.

Definition set_RequeueAfter (d : Z) (r : Result) : Result :=
  {| Requeue := Requeue r; RequeueAfter := d |}.

(** [ctrl.Request]. *)
Record Request := {
  req_NamespacedName : NamespacedName
}.

(** A value of a JSON object: the string that the controller compares it
    with, or anything else. *)
Inductive Json : Type :=
| JString (s : string)
| JOther (raw : string).

#[global] Instance Json_eq_dec : EqDecision Json.
Proof. solve_decision. Defined.

(** What a [return] of [Reconcile] gives. *)
Abbreviation Returned := (Result * option error)%type.

(* ================================================================== *)
(** ** Client calls and the environment *)

Inductive Kind : Type :=
| KSolrCloud | KPod | KPersistentVolumeClaim | KStatefulSet | KService
| KConfigMap | KIngress | KSecret | KCertificate | KIssuer
| KZookeeperCluster.

Inductive Object : Type :=
| OSolrCloud (o : SolrCloud)
| OPod (o : Pod)
| OPersistentVolumeClaim (o : PersistentVolumeClaim)
| OStatefulSet (o : StatefulSet)
| OService (o : Service)
| OConfigMap (o : ConfigMap)
| OIngress (o : Ingress)
| OSecret (o : Secret)
| OCertificate (o : Certificate)
| OIssuer (o : Issuer)
| OZookeeperCluster (o : ZookeeperCluster).

(** One call of the controller-runtime client or of the ZooKeeper
    client.  A write sends the object as the program holds it; the copy
    of the stored object that the server sends back into it is taken to
    be the object sent. *)
Inductive Call : Type :=
| CGet (kind : Kind) (key : NamespacedName)
| CList (kind : Kind) (namespace : string) (matchLabels : gmap string string)
| CCreate (obj : Object)
| CUpdate (obj : Object)
| CStatusUpdate (obj : Object)
| CDelete (obj : Object) (preconditionUID : option string)
| CZkConnect (hosts : list string)
| CZkGet (path : string)
| CZkSet (path : string) (data : string) (version : Z)
| CZkExists (path : string)
| CZkCreate (path : string) (data : option string)
| CZkClose.

(** What is outside the process during one pass: the answers of the API
    server, of ZooKeeper and of the Solr cluster.  Each answer may depend
    on the calls issued so far.  A read of an object that fails gives its
    error only.
    [DeterminePodsSafeToUpdate] is the update selector of
    the [util] package; it queries the running Solr cluster over HTTP, so
    its answer belongs to the environment.  Its arguments are the cloud,
    the started out-of-date pods, the total pod count, the ready-replica
    count, the count of available up-to-date pods and the count of
    out-of-date pods that have not started. *)
Class Environment := {
  get_SolrCloud : list Call -> NamespacedName -> SolrCloud + error;
  get_Service : list Call -> NamespacedName -> Service + error;
  get_ConfigMap : list Call -> NamespacedName -> ConfigMap + error;
  get_StatefulSet : list Call -> NamespacedName -> StatefulSet + error;
  get_Ingress : list Call -> NamespacedName -> Ingress + error;
  get_Secret : list Call -> NamespacedName -> Secret + error;
  get_Certificate : list Call -> NamespacedName -> Certificate + error;
  get_Issuer : list Call -> NamespacedName -> Issuer + error;
  get_ZookeeperCluster :
    list Call -> NamespacedName -> ZookeeperCluster + error;
  list_Pods :
    list Call -> string -> gmap string string -> list Pod + error;
  list_PersistentVolumeClaims :
    list Call -> string -> gmap string string ->
    list PersistentVolumeClaim + error;
  write_error : list Call -> Call -> option error;
  (** ZooKeeper: the error of a connection; the data, the version, if
      any, and the error of a read; the error of a write; whether a node
      exists; the error of a creation. *)
  zk_Connect : list Call -> list string -> option error;
  zk_Get : list Call -> string -> option string * option Z * option error;
  zk_Set : list Call -> string -> string -> Z -> option error;
  zk_Exists : list Call -> string -> bool;
  zk_Create : list Call -> string -> option string -> option error;
  DeterminePodsSafeToUpdate :
    list Call -> SolrCloud -> list Pod -> Z -> Z -> Z -> Z ->
    list Pod * bool
}.

(** The process-wide settings of the controller package. *)
Class Settings := {
  useZkCRD : bool;
  IngressBaseUrl : string
}.

(** Constants and pure helpers of the [util] and [api/v1beta1] packages
    and of the libraries that the controller calls.  Their definitions
    are not part of the controller; it is verified for any choice of
    them.  [WithDefaults] and a field-copy helper give back whether the
    object needed a change, and the object after the change.
    [SetControllerReference] gives back the object with its owner set, or
    an error.  The other helpers are taken to leave the objects that
    they are handed as they are. *)
Class Collaborators := {
  SolrStorageFinalizer : string;
  BackupRestoreVolume : string;
  SolrNodeContainer : string;
  ManagedUpdate : string;
  IngressMethod : string;
  VolumeReclaimPolicyDelete : string;
  SolrTechnologyLabel : string;
  ContainsString : list string -> string -> bool;
  RemoveString : list string -> string -> list string;
  WithDefaults : SolrCloud -> string -> bool * SolrCloud;
  GetAllSolrNodeNames : SolrCloud -> list string;
  UsesIndividualNodeServices : SolrCloud -> bool;
  UsesHeadlessService : SolrCloud -> bool;
  AdvertisedNodeHost : SolrCloud -> string -> string;
  ConfigMapName : SolrCloud -> string;
  ZkConnectionString : SolrCloudStatus -> string;
  SharedLabels : SolrCloud -> gmap string string;
  StatefulSetName : SolrCloud -> string;
  InternalNodeUrl : SolrCloud -> string -> bool -> string;
  ExternalNodeUrl : SolrCloud -> string -> string -> bool -> string;
  InternalCommonUrl : SolrCloud -> bool -> string;
  ExternalCommonUrl : SolrCloud -> string -> bool -> string;
  ImageVersion : string -> string;
  GenerateCommonService : SolrCloud -> Service;
  GenerateNodeService : SolrCloud -> string -> Service;
  GenerateHeadlessService : SolrCloud -> Service;
  CopyServiceFields : Service -> Service -> bool * Service;
  GenerateConfigMap : SolrCloud -> ConfigMap;
  CopyConfigMapFields : ConfigMap -> ConfigMap -> bool * ConfigMap;
  GenerateStatefulSet :
    SolrCloud -> SolrCloudStatus -> gmap string string -> string ->
    string -> bool -> StatefulSet;
  CopyStatefulSetFields : StatefulSet -> StatefulSet -> bool * StatefulSet;
  GenerateIngress : SolrCloud -> list string -> string -> Ingress;
  CopyIngressFields : Ingress -> Ingress -> bool * Ingress;
  GenerateZookeeperCluster : SolrCloud -> ZookeeperSpec -> ZookeeperCluster;
  CopyZookeeperClusterFields :
    ZookeeperCluster -> ZookeeperCluster -> bool * ZookeeperCluster;
  ZookeeperPorts_Client : ZookeeperCluster -> Z;
  GenerateCertificate : SolrCloud -> Certificate;
  CopyCreateCertificateFields :
    Certificate -> Certificate -> bool * Certificate;
  GenerateKeystoreSecret : SolrCloud -> Secret;
  GenerateSelfSignedIssuer : SolrCloud -> string -> Issuer;
  SetControllerReference_Service : SolrCloud -> Service -> Service + error;
  SetControllerReference_ConfigMap :
    SolrCloud -> ConfigMap -> ConfigMap + error;
  SetControllerReference_StatefulSet :
    SolrCloud -> StatefulSet -> StatefulSet + error;
  SetControllerReference_Ingress : SolrCloud -> Ingress -> Ingress + error;
  SetControllerReference_ZookeeperCluster :
    SolrCloud -> ZookeeperCluster -> ZookeeperCluster + error;
  SetControllerReference_Secret : SolrCloud -> Secret -> Secret + error;
  SetControllerReference_Issuer : SolrCloud -> Issuer -> Issuer + error;
  SetControllerReference_Certificate :
    SolrCloud -> Certificate -> Certificate + error;
  (** [fmt.Sprintf("%x", md5.Sum(...))]; [json.Unmarshal] into a map
      variable, which stays nil for the input [null]; [json.Marshal] of
      a map. *)
  md5_hex : string -> string;
  json_Unmarshal : string -> option (gmap string Json) + error;
  json_Marshal : gmap string Json -> string
}.

(* ================================================================== *)
(** ** Statements, returns and panics

    A block of statements of a function whose result type is [R] either
    runs to its end with a value, executes a [return], or panics; in each
    case it leaves the trace of the calls issued. *)

Inductive Outcome (R A : Type) : Type :=
| Next (a : A)
| Return (r : R)
| Panic.

Arguments Next {R A} a.
Arguments Return {R A} r.
Arguments Panic {R A}.

Definition M (R A : Type) : Type := list Call -> Outcome R A * list Call.

Definition pure {R A} (a : A) : M R A := fun t => (Next a, t).

Definition return_ {R A} (r : R) : M R A := fun t => (Return r, t).

Definition panic {R A} : M R A := fun t => (Panic, t).

Definition bind {R A B} (m : M R A) (k : A -> M R B) : M R B :=
  fun t =>
    match m t with
    | (Next a, t') => k a t'
    | (Return r, t') => (Return r, t')
    | (Panic, t') => (Panic, t')
    end.

Notation "'let*' x ':=' m 'in' k" := (bind m (fun x => k))
  (at level 10, x pattern, m at level 100, k at level 200).

(** The body of a function called from a block of another function: its
    [return] becomes the value of the call. *)
Definition func {R R'} (body : M R R) : M R' R :=
  fun t =>
    match body t with
    | (Next r, t') => (Next r, t')
    | (Return r, t') => (Next r, t')
    | (Panic, t') => (Panic, t')
    end.

(** [defer cleanup] before the rest of a function body: the cleanup runs
    when the body ends, whichever way. *)
Definition deferred {R A} (cleanup : M R unit) (body : M R A) : M R A :=
  fun t =>
    match body t with
    | (o, t') => (o, snd (cleanup t'))
    end.

(** [*p]. *)
Definition deref {R A} (p : option A) : M R A :=
  match p with
  | Some a => pure a
  | None => panic
  end.

(** [s[0]]. *)
Definition first {R A} (s : list A) : M R A :=
  match s with
  | a :: _ => pure a
  | [] => panic
  end.

(** [for _, x := range l { body }]. *)
Fixpoint forEach {R A} (l : list A) (body : A -> M R unit) : M R unit :=
  match l with
  | [] => pure tt
  | x :: l' => let* _ := body x in forEach l' body
  end.

(** A [range] loop that updates the variables [s]. *)
Fixpoint forEachWith {R A S} (l : list A) (s : S) (body : S -> A -> M R S)
  : M R S :=
  match l with
  | [] => pure s
  | x :: l' => let* s' := body s x in forEachWith l' s' body
  end.

Section Client.
Context {env : Environment}.

Definition Get_SolrCloud {R} (key : NamespacedName)
  : M R (SolrCloud + error) :=
  fun t => (Next (get_SolrCloud t key), t ++ [CGet KSolrCloud key]).

Definition Get_Service {R} (key : NamespacedName) : M R (Service + error) :=
  fun t => (Next (get_Service t key), t ++ [CGet KService key]).

Definition Get_ConfigMap {R} (key : NamespacedName)
  : M R (ConfigMap + error) :=
  fun t => (Next (get_ConfigMap t key), t ++ [CGet KConfigMap key]).

Definition Get_StatefulSet {R} (key : NamespacedName)
  : M R (StatefulSet + error) :=
  fun t => (Next (get_StatefulSet t key), t ++ [CGet KStatefulSet key]).

Definition Get_Ingress {R} (key : NamespacedName) : M R (Ingress + error) :=
  fun t => (Next (get_Ingress t key), t ++ [CGet KIngress key]).

Definition Get_Secret {R} (key : NamespacedName) : M R (Secret + error) :=
  fun t => (Next (get_Secret t key), t ++ [CGet KSecret key]).

Definition Get_Certificate {R} (key : NamespacedName)
  : M R (Certificate + error) :=
  fun t => (Next (get_Certificate t key), t ++ [CGet KCertificate key]).

Definition Get_Issuer {R} (key : NamespacedName) : M R (Issuer + error) :=
  fun t => (Next (get_Issuer t key), t ++ [CGet KIssuer key]).

Definition Get_ZookeeperCluster {R} (key : NamespacedName)
  : M R (ZookeeperCluster + error) :=
  fun t =>
    (Next (get_ZookeeperCluster t key), t ++ [CGet KZookeeperCluster key]).

Definition List_Pods {R} (namespace : string) (labels : gmap string string)
  : M R (list Pod + error) :=
  fun t => (Next (list_Pods t namespace labels),
            t ++ [CList KPod namespace labels]).

Definition List_PersistentVolumeClaims {R} (namespace : string)
    (labels : gmap string string)
  : M R (list PersistentVolumeClaim + error) :=
  fun t => (Next (list_PersistentVolumeClaims t namespace labels),
            t ++ [CList KPersistentVolumeClaim namespace labels]).

(** A create, update, status update or delete. *)
Definition write {R} (c : Call) : M R (option error) :=
  fun t => (Next (write_error t c), t ++ [c]).

Definition Create {R} (o : Object) : M R (option error) := write (CCreate o).
Definition Update {R} (o : Object) : M R (option error) := write (CUpdate o).
Definition Status_Update {R} (o : Object) : M R (option error) :=
  write (CStatusUpdate o).
Definition Delete {R} (o : Object) (uid : option string)
  : M R (option error) := write (CDelete o uid).

(** The ZooKeeper client. *)
Definition Zk_Connect {R} (hosts : list string) : M R (option error) :=
  fun t => (Next (zk_Connect t hosts), t ++ [CZkConnect hosts]).

Definition Zk_Get {R} (path : string)
  : M R (option string * option Z * option error) :=
  fun t => (Next (zk_Get t path), t ++ [CZkGet path]).

Definition Zk_Set {R} (path data : string) (version : Z)
  : M R (option error) :=
  fun t => (Next (zk_Set t path data version),
            t ++ [CZkSet path data version]).

Definition Zk_Exists {R} (path : string) : M R bool :=
  fun t => (Next (zk_Exists t path), t ++ [CZkExists path]).

Definition Zk_Create {R} (path : string) (data : option string)
  : M R (option error) :=
  fun t => (Next (zk_Create t path data), t ++ [CZkCreate path data]).

Definition Zk_Close {R} : M R unit :=
  fun t => (Next tt, t ++ [CZkClose]).

(** The update selector sees the state of the Solr cluster at the time
    it is asked. *)
Definition askPodsSafeToUpdate {R} (instance : SolrCloud)
    (outOfDatePods : list Pod)
    (totalPodCount readyPods availableUpdatedPodCount notStarted : Z)
  : M R (list Pod * bool) :=
  fun t => (Next (DeterminePodsSafeToUpdate t instance outOfDatePods
                    totalPodCount readyPods availableUpdatedPodCount
                    notStarted), t).
End Client.

(* ================================================================== *)
(** ** Orphaned claims *)

(** The part of a string after the last occurrence of a character. *)
Fixpoint afterLast (sep : ascii) (s : string) : option string :=
  match s with
  | EmptyString => None
  | String c rest =>
      match afterLast sep rest with
      | Some suffix => Some suffix
      | None => if Ascii.eqb c sep then Some rest else None
      end
  end.

(** The ordinal index of a claim: a StatefulSet names the claim of its
    pod number [i] with the suffix [-i]. *)
Definition ordinalIndex (name : string) : option Z :=
  match afterLast "-" name with
  | Some suffix =>
      match NilZero.uint_of_string suffix with
      | Some d => Some (Z.of_uint d)
      | None => None
      end
  | None => None
  end.

(** Modelled from the spec: [util.IsPVCOrphan] is not among the sources.
    The specification says that, for replica count R, a claim is orphaned
    iff its ordinal index is at least R. *)
Definition IsPVCOrphan (pvcName : string) (replicas : Z) : bool :=
  match ordinalIndex pvcName with
  | Some ordinal => replicas <=? ordinal
  | None => false
  end.

(* ================================================================== *)
(** ** The controller *)

Section Controller.
Context {env : Environment} {settings : Settings}
        {collaborators : Collaborators}.

(** *** Storage lifecycle *)

(** [getPVCList].  The error of the conversion of the labels into a
    selector is overwritten by that of the list call. *)
Definition getPVCList {R} (cloud : SolrCloud)
    (pvcLabelSelector : gmap string string)
  : M R (list PersistentVolumeClaim + error) :=
  func (
    let* answer :=
      List_PersistentVolumeClaims (Namespace cloud) pvcLabelSelector in
    return_ answer).

(** [deletePVC]: the claim is deleted through a fresh object that
    carries its name and namespace; a failure is logged. *)
Definition deletePVC {R} (pvcItem : PersistentVolumeClaim) : M R unit :=
  func (
    let pvcDelete :=
      {| pvc_Name := pvc_Name pvcItem;
         pvc_Namespace := pvc_Namespace pvcItem;
         pvc_UID := "";
         pvc_Labels := ∅ |} in
    let* err := Delete (OPersistentVolumeClaim pvcDelete) None in
    return_ tt).

(** [cleanupOrphanPVCs]. *)
Definition cleanupOrphanPVCs {R} (cloud : SolrCloud)
    (pvcLabelSelector : gmap string string) : M R (option error) :=
  func (
    let* _ :=
      if ReadyReplicas (Status cloud) =? status_Replicas (Status cloud) then
        let* answer := getPVCList cloud pvcLabelSelector in
        match answer with
        | inr err => return_ (Some err)
        | inl items =>
            let* replicas := deref (Replicas (Spec cloud)) in
            if len items >? replicas then
              forEach items (fun pvcItem =>
                let* replicas := deref (Replicas (Spec cloud)) in
                if IsPVCOrphan (pvc_Name pvcItem) replicas
                then deletePVC pvcItem
                else pure tt)
            else pure tt
        end
      else pure tt in
    return_ None).

(** [cleanUpAllPVCs]. *)
Definition cleanUpAllPVCs {R} (cloud : SolrCloud)
    (pvcLabelSelector : gmap string string) : M R (option error) :=
  func (
    let* answer := getPVCList cloud pvcLabelSelector in
    match answer with
    | inr err => return_ (Some err)
    | inl items =>
        let* _ := forEach items (fun pvcItem => deletePVC pvcItem) in
        return_ None
    end).

(** Persistent storage with the reclaim policy "Delete". *)
Definition deletesStorage (cloud : SolrCloud) : bool :=
  match PersistentStorage (StorageOptions (Spec cloud)) with
  | Some storage =>
      String.eqb (VolumeReclaimPolicy storage) VolumeReclaimPolicyDelete
  | None => false
  end.

(** [reconcileStorageFinalizer].  The function changes the finalizers
    of the object it is given; the result carries the object as the
    function leaves it. *)
Definition reconcileStorageFinalizer {R} (cloud : SolrCloud)
    (pvcLabelSelector : gmap string string)
  : M R (SolrCloud * option error) :=
  func (
    if deletesStorage cloud then
      if IsZero (DeletionTimestamp cloud) then
        let* cloud :=
          if negb (ContainsString (Finalizers cloud) SolrStorageFinalizer)
          then
            let cloud :=
              set_Finalizers (Finalizers cloud ++ [SolrStorageFinalizer])
                cloud in
            let* err := Update (OSolrCloud cloud) in
            match err with
            | Some err => return_ (cloud, Some err)
            | None => pure cloud
            end
          else pure cloud in
        let* err := cleanupOrphanPVCs cloud pvcLabelSelector in
        return_ (cloud, err)
      else if ContainsString (Finalizers cloud) SolrStorageFinalizer then
        let* err := cleanUpAllPVCs cloud pvcLabelSelector in
        match err with
        | Some err => return_ (cloud, Some err)
        | None =>
            let cloud :=
              set_Finalizers
                (RemoveString (Finalizers cloud) SolrStorageFinalizer)
                cloud in
            let* err := Update (OSolrCloud cloud) in
            match err with
            | Some err => return_ (cloud, Some err)
            | None => return_ (cloud, None)
            end
        end
      else return_ (cloud, None)
    else if ContainsString (Finalizers cloud) SolrStorageFinalizer then
      let cloud :=
        set_Finalizers
          (RemoveString (Finalizers cloud) SolrStorageFinalizer) cloud in
      let* err := Update (OSolrCloud cloud) in
      match err with
      | Some err => return_ (cloud, Some err)
      | None => return_ (cloud, None)
      end
    else return_ (cloud, None)).

(* ---------------------------------------------------------------- *)
(** *** The service of one node *)

(** [reconcileNodeService]. *)
Definition reconcileNodeService {R} (instance : SolrCloud)
    (nodeName : string) : M R (option error * string) :=
  func (
    let ip := "" in
    let service := GenerateNodeService instance nodeName in
    match SetControllerReference_Service instance service with
    | inr err => return_ (Some err, ip)
    | inl service =>
        let* found :=
          Get_Service {| nn_Name := svc_Name service;
                         nn_Namespace := svc_Namespace service |} in
        let* (err, ip) :=
          match found with
          | inr err =>
              if IsNotFound err then
                let* err := Create (OService service) in
                pure (err, ip)
              else pure (Some err, ip)
          | inl foundService =>
              let '(changed, foundService) :=
                CopyServiceFields service foundService in
              let* err :=
                if changed then Update (OService foundService)
                else pure None in
              pure (err, svc_ClusterIP foundService)
          end in
        match err with
        | Some err => return_ (Some err, ip)
        | None => return_ (None, ip)
        end
    end).

(* ---------------------------------------------------------------- *)
(** *** The ZooKeeper resolver *)

(** [make([]string, n)] filled by [for i := range]. *)
Definition makeStrings {R} (n : Z) (f : Z -> string) : M R (list string) :=
  if n <? 0 then panic else pure (map f (seqZ 0 n)).

(** [reconcileZk].  The result carries the new status as the function
    leaves it. *)
Definition reconcileZk {R} (instance : SolrCloud)
    (newStatus : SolrCloudStatus) : M R (SolrCloudStatus * option error) :=
  func (
    let zkRef := ZookeeperRef_ (Spec instance) in
    let* newStatus :=
      match ConnectionInfo zkRef with
      | Some info => pure (set_ZookeeperConnectionInfo info newStatus)
      | None =>
          match ProvidedZookeeper zkRef with
          | Some pzk =>
              if negb useZkCRD then
                return_ (newStatus, Some (NewBadRequest
                  "Cannot create a Zookeeper Cluster, as the Solr Operator is not configured to use the Zookeeper CRD"))
              else
              let zkCluster := GenerateZookeeperCluster instance pzk in
              match SetControllerReference_ZookeeperCluster instance
                      zkCluster with
              | inr err => return_ (newStatus, Some err)
              | inl zkCluster =>
                  let* found :=
                    Get_ZookeeperCluster
                      {| nn_Name := zk_Name zkCluster;
                         nn_Namespace := zk_Namespace zkCluster |} in
                  match found with
                  | inr err =>
                      if IsNotFound err then
                        let* err := Create (OZookeeperCluster zkCluster) in
                        return_ (newStatus, err)
                      else return_ (newStatus, Some err)
                  | inl foundZkCluster =>
                      let '(changed, foundZkCluster) :=
                        CopyZookeeperClusterFields zkCluster
                          foundZkCluster in
                      let* err :=
                        if changed
                        then Update (OZookeeperCluster foundZkCluster)
                        else pure None in
                      let external :=
                        if String.eqb ""
                             (zk_ExternalClientEndpoint foundZkCluster)
                        then None
                        else Some (zk_ExternalClientEndpoint
                                     foundZkCluster) in
                      let* internal :=
                        makeStrings (zk_Replicas zkCluster) (fun i =>
                          zk_Name foundZkCluster +:+ "-" +:+ itoa i +:+ "."
                          +:+ zk_Name foundZkCluster +:+ "-headless."
                          +:+ zk_Namespace foundZkCluster +:+ ":"
                          +:+ itoa (ZookeeperPorts_Client
                                      foundZkCluster)) in
                      let newStatus :=
                        set_ZookeeperConnectionInfo
                          {| InternalConnectionString :=
                               String.concat "," internal;
                             ExternalConnectionString := external;
                             ChRoot := zkspec_ChRoot pzk |} newStatus in
                      return_ (newStatus, err)
                  end
              end
          | None =>
              return_ (newStatus, Some (NewBadRequest
                "No Zookeeper reference information provided."))
          end
      end in
    return_ (newStatus, None)).

(* ---------------------------------------------------------------- *)
(** *** The TLS certificate coordinator *)

(** [isCertificateReady]: the certificate is ready when its secret
    exists. *)
Definition isCertificateReady {R} (cert : Certificate)
  : M R (option Secret) :=
  func (
    let* found :=
      Get_Secret {| nn_Name := cert_SecretName cert;
                    nn_Namespace := cert_Namespace cert |} in
    match found with
    | inr err => return_ None
    | inl foundTLSSecret => return_ (Some foundTLSSecret)
    end).

(** [afterCertificateReady]. *)
Definition afterCertificateReady {R} (instance : SolrCloud)
    (cert foundCert : Certificate) (foundTLSSecret : Secret)
  : M R (bool * option error) :=
  func (
    let '(changed, foundCert) := CopyCreateCertificateFields cert foundCert in
    if changed then
      let* err := Delete (OSecret foundTLSSecret) None in
      match err with
      | Some err => return_ (false, Some err)
      | None =>
          let* err := Update (OCertificate foundCert) in
          match err with
          | Some err => return_ (false, Some err)
          | None => return_ (false, None)
          end
      end
    else
      let* _ :=
        if len (secret_OwnerReferences foundTLSSecret) =? 0 then
          match SetControllerReference_Secret instance foundTLSSecret with
          | inr err => return_ (false, Some err)
          | inl foundTLSSecret =>
              let* err := Update (OSecret foundTLSSecret) in
              match err with
              | Some err => return_ (false, Some err)
              | None => pure tt
              end
          end
        else pure tt in
      return_ (true, None)).

(** [reconcileAutoCreateTLS]. *)
Definition reconcileAutoCreateTLS {R} (instance : SolrCloud)
  : M R (bool * option error) :=
  func (
    let* tls := deref (SolrTLS (Spec instance)) in
    let* autoCreate := deref (AutoCreate tls) in
    let* found :=
      Get_Certificate {| nn_Name := autoCreate_Name autoCreate;
                         nn_Namespace := Namespace instance |} in
    let* _ :=
      match found with
      | inl foundCert =>
          let* ready := isCertificateReady foundCert in
          match ready with
          | Some foundTLSSecret =>
              let cert := GenerateCertificate instance in
              let* result :=
                afterCertificateReady instance cert foundCert
                  foundTLSSecret in
              return_ result
          | None => pure tt
          end
      | inr _ => pure tt
      end in
    (* the keystore password secret *)
    let keystoreSecret := GenerateKeystoreSecret instance in
    let* found :=
      Get_Secret {| nn_Name := secret_Name keystoreSecret;
                    nn_Namespace := secret_Namespace keystoreSecret |} in
    let* err :=
      match found with
      | inr err =>
          if IsNotFound err then
            match SetControllerReference_Secret instance keystoreSecret with
            | inr err => return_ (false, Some err)
            | inl keystoreSecret => Create (OSecret keystoreSecret)
            end
          else pure (Some err)
      | inl _ => pure None
      end in
    let* _ :=
      match err with
      | Some err => return_ (false, Some err)
      | None => pure tt
      end in
    (* the self-signed issuer *)
    let* _ :=
      match autoCreate_IssuerRef autoCreate with
      | None =>
          let issuerName := Name instance +:+ "-selfsigned-issuer" in
          let* found :=
            Get_Issuer {| nn_Name := issuerName;
                          nn_Namespace := Namespace instance |} in
          let* err :=
            match found with
            | inr err =>
                if IsNotFound err then
                  let issuer := GenerateSelfSignedIssuer instance
                                  issuerName in
                  match SetControllerReference_Issuer instance issuer with
                  | inr err => return_ (false, Some err)
                  | inl issuer => Create (OIssuer issuer)
                  end
                else pure (Some err)
            | inl _ => pure None
            end in
          match err with
          | Some err => return_ (false, Some err)
          | None => pure tt
          end
      | Some _ => pure tt
      end in
    (* the certificate *)
    let cert := GenerateCertificate instance in
    let* found :=
      Get_Certificate {| nn_Name := cert_Name cert;
                         nn_Namespace := cert_Namespace cert |} in
    let* (tlsReady, err) :=
      match found with
      | inr err =>
          if IsNotFound err then
            match SetControllerReference_Certificate instance cert with
            | inr err => return_ (false, Some err)
            | inl cert =>
                let* err := Create (OCertificate cert) in
                match err with
                | Some err => return_ (false, Some err)
                | None => pure (false, None)
                end
            end
          else pure (false, Some err)
      | inl foundCert =>
          let* ready := isCertificateReady foundCert in
          match ready with
          | Some foundTLSSecret =>
              afterCertificateReady instance cert foundCert foundTLSSecret
          | None => pure (false, None)
          end
      end in
    match err with
    | Some err => return_ (false, Some err)
    | None => return_ (tlsReady, None)
    end).

(* ---------------------------------------------------------------- *)
(** *** The URL scheme of the cluster *)

(** [setUrlSchemeClusterProperty].  The connection is closed when the
    function ends, once it has been opened.  An assignment into the map
    that [json.Unmarshal] left nil panics. *)
Definition setUrlSchemeClusterProperty {R} (newStatus : SolrCloudStatus)
  : M R (bool * option error) :=
  func (
    let clusterPropsPath := "/clusterprops.json" in
    let chroot := ChRoot (ZookeeperConnectionInfo_ newStatus) in
    let clusterPropsPath :=
      if negb (String.eqb chroot "") then chroot +:+ clusterPropsPath
      else clusterPropsPath in
    let zkHosts :=
      strings_Split
        (InternalConnectionString (ZookeeperConnectionInfo_ newStatus))
        "," in
    let* zkErr := Zk_Connect zkHosts in
    let* _ :=
      match zkErr with
      | Some zkErr =>
          if strings_Contains (Error zkErr) "no such host"
          then return_ (false, None)
          else return_ (false, Some zkErr)
      | None => pure tt
      end in
    deferred Zk_Close (
      let* (data, stat, zkErr) := Zk_Get clusterPropsPath in
      match zkErr, data with
      | None, Some data =>
          let clusterProps :=
            match json_Unmarshal data with
            | inl clusterProps => clusterProps
            | inr _ => Some ∅
            end in
          let* _ :=
            if negb (bool_decide
                       ((clusterProps ≫= lookup "urlScheme") =
                        Some (JString "https")))
            then
              let* clusterProps := deref clusterProps in
              let clusterProps :=
                <["urlScheme" := JString "https"]> clusterProps in
              let clusterPropsJson := json_Marshal clusterProps in
              let znodeVers :=
                match stat with
                | Some version => version
                | None => 0
                end in
              let* _ := Zk_Set clusterPropsPath clusterPropsJson znodeVers in
              pure tt
            else pure tt in
          return_ (true, None)
      | _, _ =>
          let* _ :=
            if negb (String.eqb chroot "") then
              let* found := Zk_Exists chroot in
              if negb found then
                let* _ := Zk_Create chroot None in
                pure tt
              else pure tt
            else pure tt in
          let clusterProps : gmap string Json :=
            <["urlScheme" := JString "https"]> ∅ in
          let clusterPropsJson := json_Marshal clusterProps in
          let* zkErr := Zk_Create clusterPropsPath (Some clusterPropsJson) in
          match zkErr with
          | Some zkErr => return_ (false, Some zkErr)
          | None => return_ (true, None)
          end
      end)).

(* ---------------------------------------------------------------- *)
(** *** The status aggregator *)

(** Whether Kubernetes considers the pod ready: the value of its
    [Ready] condition (the last one, should there be several). *)
Definition podReady (p : Pod) : bool :=
  fold_left
    (fun ready condition =>
       if String.eqb (cond_Type condition) PodReady
       then String.eqb (cond_Status condition) ConditionTrue
       else ready)
    (pod_Conditions p) false.

(** The variable [containerNotStarted] of the loop: a ready pod counts
    as started; a pod that is not ready counts as not started unless
    the status of its solr container says it has started. *)
Definition containerNotStarted (p : Pod) : bool :=
  if negb (podReady p) then
    fold_left
      (fun notStarted containerStatus =>
         if String.eqb (cs_Name containerStatus) SolrNodeContainer then
           match cs_Started containerStatus with
           | None => true
           | Some started => negb started
           end
         else notStarted)
      (pod_ContainerStatuses p) true
  else false.

(** A pod is up to date when its revision label equals the update
    revision of the StatefulSet; a missing label reads as [""]. *)
Definition specUpToDate (updateRevision : string) (p : Pod) : bool :=
  String.eqb (default "" (pod_Labels p !! "controller-revision-hash"))
             updateRevision.

(** The number of volumes of the pod named as the backup volume. *)
Definition backupVolumes (p : Pod) (count : Z) : Z :=
  fold_left
    (fun count volume =>
       if String.eqb (volume_Name volume) BackupRestoreVolume
       then wrap64 (count + 1) else count)
    (pod_Volumes p) count.

(** The variables that the loop over the pods updates. *)
Record StatusLoop := {
  otherVersions : list string;
  nodeNames : list string;
  nodeStatusMap : gmap string SolrNodeStatus;
  backupRestoreReadyPods : Z;
  loop_UpToDateNodes : Z;
  loop_ReadyReplicas : Z;
  outOfDatePods : list Pod;
  outOfDatePodsNotStarted : list Pod;
  availableUpdatedPodCount : Z
}.

Definition StatusLoop_start : StatusLoop :=
  {| otherVersions := []; nodeNames := []; nodeStatusMap := ∅;
     backupRestoreReadyPods := 0; loop_UpToDateNodes := 0;
     loop_ReadyReplicas := 0; outOfDatePods := [];
     outOfDatePodsNotStarted := []; availableUpdatedPodCount := 0 |}.

(** The body of the loop over the pods found (lines 471-537). *)
Definition statusLoopBody {R} (solrCloud : SolrCloud)
    (updateRevision : string) (s : StatusLoop) (p : Pod) : M R StatusLoop :=
  let name := pod_Name p in
  let internalAddress := "http://" +:+ InternalNodeUrl solrCloud name true in
  let externalAddress :=
    match SolrAddressability_External (Spec solrCloud) with
    | Some external =>
        if negb (ext_HideNodes external)
        then "http://" +:+
             ExternalNodeUrl solrCloud name (ext_DomainName external) true
        else ""
    | None => ""
    end in
  let* (version, others) :=
    if len (pod_ContainerStatuses p) >? 0 then
      let* solr := first (pod_Containers p) in
      let version := ImageVersion (container_Image solr) in
      if negb (String.eqb version (SolrImage_Tag (Spec solrCloud)))
      then pure (version, otherVersions s ++ [version])
      else pure (version, otherVersions s)
    else pure ("", otherVersions s) in
  let ready := podReady p in
  let upToDate := specUpToDate updateRevision p in
  let nodeStatus :=
    {| node_Name := name; node_NodeName := pod_NodeName p;
       node_InternalAddress := internalAddress;
       node_ExternalAddress := externalAddress;
       node_Ready := ready; node_Version := version;
       node_SpecUpToDate := upToDate |} in
  pure
    {| otherVersions := others;
       nodeNames := nodeNames s ++ [name];
       nodeStatusMap := <[name := nodeStatus]> (nodeStatusMap s);
       backupRestoreReadyPods :=
         match BackupRestoreOptions (StorageOptions (Spec solrCloud)) with
         | Some _ => backupVolumes p (backupRestoreReadyPods s)
         | None => backupRestoreReadyPods s
         end;
       loop_UpToDateNodes :=
         if upToDate then wrap32 (loop_UpToDateNodes s + 1)
         else loop_UpToDateNodes s;
       loop_ReadyReplicas :=
         if ready then wrap32 (loop_ReadyReplicas s + 1)
         else loop_ReadyReplicas s;
       outOfDatePods :=
         if upToDate then outOfDatePods s
         else if containerNotStarted p then outOfDatePods s
         else outOfDatePods s ++ [p];
       outOfDatePodsNotStarted :=
         if upToDate then outOfDatePodsNotStarted s
         else if containerNotStarted p
         then outOfDatePodsNotStarted s ++ [p]
         else outOfDatePodsNotStarted s;
       availableUpdatedPodCount :=
         if upToDate && ready then wrap64 (availableUpdatedPodCount s + 1)
         else availableUpdatedPodCount s |}.

(** What [reconcileCloudStatus] gives back: the new status as the
    function leaves it and its four results. *)
Record CloudStatus := {
  cs_newStatus : SolrCloudStatus;
  cs_outOfDatePods : list Pod;
  cs_outOfDatePodsNotStarted : list Pod;
  cs_availableUpdatedPodCount : Z;
  cs_err : option error
}.

(** [reconcileCloudStatus]. *)
Definition reconcileCloudStatus {R} (solrCloud : SolrCloud)
    (newStatus : SolrCloudStatus) (statefulSetStatus : StatefulSetStatus)
  : M R CloudStatus :=
  func (
    let selectorLabels :=
      <["technology" := SolrTechnologyLabel]> (SharedLabels solrCloud) in
    let* found := List_Pods (Namespace solrCloud) selectorLabels in
    match found with
    | inr err =>
        return_ {| cs_newStatus := newStatus; cs_outOfDatePods := [];
                   cs_outOfDatePodsNotStarted := [];
                   cs_availableUpdatedPodCount := 0;
                   cs_err := Some err |}
    | inl foundPods =>
        let updateRevision := sts_UpdateRevision statefulSetStatus in
        let* s :=
          forEachWith foundPods StatusLoop_start
            (statusLoopBody solrCloud updateRevision) in
        let nodeNames := sort_Strings (nodeNames s) in
        let solrNodes :=
          map (fun nodeName =>
                 default SolrNodeStatus_zero (nodeStatusMap s !! nodeName))
              nodeNames in
        let* replicas := deref (Replicas (Spec solrCloud)) in
        let backupRestoreReady :=
          if (backupRestoreReadyPods s =? replicas)
             && (backupRestoreReadyPods s >? 0)
          then true else BackupRestoreReady newStatus in
        let tag := SolrImage_Tag (Spec solrCloud) in
        let (targetVersion, version) :=
          match otherVersions s with
          | other :: _ => (tag, other)
          | [] => ("", tag)
          end in
        let externalCommonAddress :=
          match SolrAddressability_External (Spec solrCloud) with
          | Some external =>
              if negb (ext_HideCommon external)
              then Some ("http://" +:+
                         ExternalCommonUrl solrCloud
                           (ext_DomainName external) true)
              else ExternalCommonAddress newStatus
          | None => ExternalCommonAddress newStatus
          end in
        return_
          {| cs_newStatus :=
               {| SolrNodes := Some solrNodes;
                  status_Replicas := sts_Replicas statefulSetStatus;
                  ReadyReplicas := loop_ReadyReplicas s;
                  UpToDateNodes := loop_UpToDateNodes s;
                  Version := version;
                  TargetVersion := targetVersion;
                  InternalCommonAddress :=
                    "http://" +:+ InternalCommonUrl solrCloud true;
                  ExternalCommonAddress := externalCommonAddress;
                  ZookeeperConnectionInfo_ :=
                    ZookeeperConnectionInfo_ newStatus;
                  BackupRestoreReady := backupRestoreReady;
                  UrlSchemeClusterProperty :=
                    UrlSchemeClusterProperty newStatus |};
             cs_outOfDatePods := outOfDatePods s;
             cs_outOfDatePodsNotStarted := outOfDatePodsNotStarted s;
             cs_availableUpdatedPodCount := availableUpdatedPodCount s;
             cs_err := None |}
    end).

(* ---------------------------------------------------------------- *)
(** *** Reconcile

    [Reconcile] is given block by block, in the order of the source.
    The blocks before line 315 (reading the object, defaults, ZooKeeper,
    services, ConfigMap, TLS) reach the rest of the function through the
    local variables that they leave. *)

Record Locals := {
  loc_instance : SolrCloud;
  loc_requeueOrNot : Result;
  loc_newStatus : SolrCloudStatus;
  loc_blockReconciliationOfStatefulSet : bool;
  loc_solrNodeNames : list string;
  loc_hostNameIpMap : gmap string string;
  loc_solrXmlConfigMapName : string;
  loc_solrXmlMd5 : string;
  loc_needsPkcs12InitContainer : bool
}.

(** Lines 97-116: the object is read and given its defaults; a pass
    that had to write the defaults ends there. *)
Definition Reconcile_defaults (req : Request) : M Returned SolrCloud :=
  let* found := Get_SolrCloud (req_NamespacedName req) in
  match found with
  | inr err =>
      if IsNotFound err then return_ (Result_zero, None)
      else return_ (Result_zero, Some err)
  | inl instance =>
      let '(changed, instance) := WithDefaults instance IngressBaseUrl in
      if changed then
        let* err := Update (OSolrCloud instance) in
        match err with
        | Some err => return_ (Result_zero, Some err)
        | None => return_ ({| Requeue := true; RequeueAfter := 0 |}, None)
        end
      else pure instance
  end.

(** Lines 129-148, and again lines 174-193: a service is created, or the
    one found is updated when it differs. *)
Definition Reconcile_service (instance : SolrCloud) (requeueOrNot : Result)
    (service : Service) : M Returned unit :=
  match SetControllerReference_Service instance service with
  | inr err => return_ (requeueOrNot, Some err)
  | inl service =>
      let* found :=
        Get_Service {| nn_Name := svc_Name service;
                       nn_Namespace := svc_Namespace service |} in
      let* err :=
        match found with
        | inr err =>
            if IsNotFound err then Create (OService service)
            else pure (Some err)
        | inl foundService =>
            let '(changed, foundService) :=
              CopyServiceFields service foundService in
            if changed then Update (OService foundService) else pure None
        end in
      match err with
      | Some err => return_ (requeueOrNot, Some err)
      | None => pure tt
      end
  end.

(** Lines 152-170: one service per node.  The step leaves whether the
    StatefulSet has to wait for an address, and the addresses. *)
Definition Reconcile_nodeServices (instance : SolrCloud)
    (requeueOrNot : Result) (solrNodeNames : list string)
    (blockReconciliationOfStatefulSet : bool)
  : M Returned (bool * gmap string string) :=
  let hostNameIpMap : gmap string string := ∅ in
  if UsesIndividualNodeServices instance then
    forEachWith solrNodeNames
      (blockReconciliationOfStatefulSet, hostNameIpMap)
      (fun state nodeName =>
         let '(blockReconciliationOfStatefulSet, hostNameIpMap) := state in
         let* (err, ip) := reconcileNodeService instance nodeName in
         match err with
         | Some err => return_ (requeueOrNot, Some err)
         | None =>
             let* external :=
               deref (SolrAddressability_External (Spec instance)) in
             if ext_UseExternalAddress external then
               if String.eqb ip "" then pure (true, hostNameIpMap)
               else
                 pure (blockReconciliationOfStatefulSet,
                       <[AdvertisedNodeHost instance nodeName := ip]>
                         hostNameIpMap)
             else pure (blockReconciliationOfStatefulSet, hostNameIpMap)
         end)
  else pure (blockReconciliationOfStatefulSet, hostNameIpMap).

(** [configMap.Data["solr.xml"]]: an absent key and a nil map give the
    empty string. *)
Definition solrXmlOf (configMap : ConfigMap) : string :=
  default "" (cm_Data configMap ≫= lookup "solr.xml").

(** Lines 198-251: the ConfigMap of solr.xml, provided by the user or
    generated.  The step leaves the name of the ConfigMap and the
    checksum of solr.xml. *)
Definition Reconcile_configMap (instance : SolrCloud)
    (requeueOrNot : Result) : M Returned (string * string) :=
  let solrXmlConfigMapName := ConfigMapName instance in
  let solrXmlMd5 := "" in
  let provided :=
    match CustomSolrKubeOptions_ConfigMapOptions (Spec instance) with
    | Some options =>
        if negb (String.eqb (ProvidedConfigMap options) "")
        then Some (ProvidedConfigMap options) else None
    | None => None
    end in
  match provided with
  | Some providedConfigMap =>
      let* found :=
        Get_ConfigMap {| nn_Name := providedConfigMap;
                         nn_Namespace := Namespace instance |} in
      match found with
      | inr err => return_ (requeueOrNot, Some err)
      | inl foundConfigMap =>
          match cm_Data foundConfigMap with
          | Some data =>
              match data !! "solr.xml" with
              | Some solrXml =>
                  if negb (strings_Contains solrXml "${hostPort:") then
                    return_ (requeueOrNot, Some (OtherError (
                      "custom solr.xml in ConfigMap " +:+ providedConfigMap
                      +:+ " must contain a placeholder for the 'hostPort' variable, such as <int name="
                      +:+ quote +:+ "hostPort" +:+ quote
                      +:+ ">${hostPort:80}</int>")))
                  else pure (cm_Name foundConfigMap, md5_hex solrXml)
              | None =>
                  return_ (requeueOrNot, Some (OtherError (
                    "required 'solr.xml' key not found in provided ConfigMap "
                    +:+ providedConfigMap)))
              end
          | None =>
              return_ (requeueOrNot, Some (OtherError (
                "provided ConfigMap " +:+ providedConfigMap
                +:+ " has no data")))
          end
      end
  | None =>
      let configMap := GenerateConfigMap instance in
      match SetControllerReference_ConfigMap instance configMap with
      | inr err => return_ (requeueOrNot, Some err)
      | inl configMap =>
          let* found :=
            Get_ConfigMap {| nn_Name := cm_Name configMap;
                             nn_Namespace := cm_Namespace configMap |} in
          let* (err, solrXmlMd5) :=
            match found with
            | inr err =>
                if IsNotFound err then
                  let* err := Create (OConfigMap configMap) in
                  pure (err, md5_hex (solrXmlOf configMap))
                else pure (Some err, solrXmlMd5)
            | inl foundConfigMap =>
                let '(changed, foundConfigMap) :=
                  CopyConfigMapFields configMap foundConfigMap in
                if changed then
                  let* err := Update (OConfigMap foundConfigMap) in
                  pure (err, md5_hex (solrXmlOf foundConfigMap))
                else pure (None, solrXmlMd5)
            end in
          match err with
          | Some err => return_ (requeueOrNot, Some err)
          | None => pure (solrXmlConfigMapName, solrXmlMd5)
          end
      end
  end.

(** Lines 253-308: TLS.  The pass waits for the certificate, reads the
    TLS secret and sets the URL scheme of the cluster.  The step leaves
    the object, whose version of the TLS secret it may have set, the new
    status and whether the keystore has to be made. *)
Definition Reconcile_tls (instance : SolrCloud) (requeueOrNot : Result)
    (newStatus : SolrCloudStatus)
  : M Returned (SolrCloud * SolrCloudStatus * bool) :=
  let needsPkcs12InitContainer := false in
  match SolrTLS (Spec instance) with
  | None => pure (instance, newStatus, needsPkcs12InitContainer)
  | Some tls =>
      let* _ :=
        match AutoCreate tls with
        | Some autoCreate =>
            let* (tlsReady, err) := reconcileAutoCreateTLS instance in
            if negb tlsReady || negb (bool_decide (err = None)) then
              match err with
              | Some err => return_ (requeueOrNot, Some err)
              | None =>
                  let wait :=
                    match autoCreate_IssuerRef autoCreate with
                    | None => 2 * Second
                    | Some _ => 30 * Second
                    end in
                  return_ (set_RequeueAfter wait requeueOrNot, None)
              end
            else pure tt
        | None => pure tt
        end in
      let* found :=
        Get_Secret {| nn_Name := PKCS12Secret_Name tls;
                      nn_Namespace := Namespace instance |} in
      match found with
      | inr lookupErr => return_ (requeueOrNot, Some lookupErr)
      | inl foundTLSSecret =>
          let instance :=
            if RestartOnTLSSecretUpdate tls
            then set_TLSSecretVersion
                   (secret_ResourceVersion foundTLSSecret) instance
            else instance in
          let needsPkcs12InitContainer :=
            match secret_Data foundTLSSecret !! PKCS12Secret_Key tls with
            | Some _ => needsPkcs12InitContainer
            | None => true
            end in
          let newStatus :=
            set_UrlSchemeClusterProperty
              (UrlSchemeClusterProperty (Status instance)) newStatus in
          if negb (UrlSchemeClusterProperty newStatus)
             && strings_Contains (ZkConnectionString newStatus) ":"
             && negb (String.eqb (ZkConnectionString newStatus)
                        "host:7271/")
          then
            let* (updated, err) := setUrlSchemeClusterProperty newStatus in
            if negb updated && bool_decide (err = None) then
              return_ (set_RequeueAfter (5 * Second) requeueOrNot, None)
            else
              match err with
              | Some err => return_ (requeueOrNot, Some err)
              | None =>
                  pure (instance,
                        set_UrlSchemeClusterProperty true newStatus,
                        needsPkcs12InitContainer)
              end
          else pure (instance, newStatus, needsPkcs12InitContainer)
      end
  end.

(** Lines 119-313: from the ZooKeeper resolver to the test of the
    connection string. *)
Definition Reconcile_resources (instance : SolrCloud) : M Returned Locals :=
  let requeueOrNot := Result_zero in
  let newStatus := SolrCloudStatus_zero in
  let blockReconciliationOfStatefulSet := false in
  let* (newStatus, err) := reconcileZk instance newStatus in
  let* _ :=
    match err with
    | Some err => return_ (requeueOrNot, Some err)
    | None => pure tt
    end in
  let* _ :=
    Reconcile_service instance requeueOrNot
      (GenerateCommonService instance) in
  let solrNodeNames := GetAllSolrNodeNames instance in
  let* (blockReconciliationOfStatefulSet, hostNameIpMap) :=
    Reconcile_nodeServices instance requeueOrNot solrNodeNames
      blockReconciliationOfStatefulSet in
  let* _ :=
    if UsesHeadlessService instance then
      Reconcile_service instance requeueOrNot
        (GenerateHeadlessService instance)
    else pure tt in
  let* (solrXmlConfigMapName, solrXmlMd5) :=
    Reconcile_configMap instance requeueOrNot in
  let* (instance, newStatus, needsPkcs12InitContainer) :=
    Reconcile_tls instance requeueOrNot newStatus in
  let blockReconciliationOfStatefulSet :=
    if negb (strings_Contains (ZkConnectionString newStatus) ":")
    then true else blockReconciliationOfStatefulSet in
  pure {| loc_instance := instance;
          loc_requeueOrNot := requeueOrNot;
          loc_newStatus := newStatus;
          loc_blockReconciliationOfStatefulSet :=
            blockReconciliationOfStatefulSet;
          loc_solrNodeNames := solrNodeNames;
          loc_hostNameIpMap := hostNameIpMap;
          loc_solrXmlConfigMapName := solrXmlConfigMapName;
          loc_solrXmlMd5 := solrXmlMd5;
          loc_needsPkcs12InitContainer := needsPkcs12InitContainer |}.

(** Lines 315-359: the StatefulSet is created or updated, or only
    looked up when its reconciliation is blocked.  The step leaves the
    labels of the claims and the status of the StatefulSet. *)
Definition Reconcile_statefulSet (l : Locals)
  : M Returned (gmap string string * StatefulSetStatus) :=
  let instance := loc_instance l in
  let requeueOrNot := loc_requeueOrNot l in
  if negb (loc_blockReconciliationOfStatefulSet l) then
    let statefulSet :=
      GenerateStatefulSet instance (loc_newStatus l) (loc_hostNameIpMap l)
        (loc_solrXmlConfigMapName l) (loc_solrXmlMd5 l)
        (loc_needsPkcs12InitContainer l) in
    match SetControllerReference_StatefulSet instance statefulSet with
    | inr err => return_ (requeueOrNot, Some err)
    | inl statefulSet =>
        let* found :=
          Get_StatefulSet {| nn_Name := ss_Name statefulSet;
                             nn_Namespace := ss_Namespace statefulSet |} in
        let* (err, pvcLabelSelector, statefulSetStatus) :=
          match found with
          | inr err =>
              if IsNotFound err then
                let* err := Create (OStatefulSet statefulSet) in
                let* matchLabels := deref (ss_Selector statefulSet) in
                pure (err, matchLabels, StatefulSetStatus_zero)
              else pure (Some err, ∅, StatefulSetStatus_zero)
          | inl foundStatefulSet =>
              let statefulSetStatus := ss_Status foundStatefulSet in
              let '(changed, foundStatefulSet) :=
                CopyStatefulSetFields statefulSet foundStatefulSet in
              let* err :=
                if changed then Update (OStatefulSet foundStatefulSet)
                else pure None in
              let* matchLabels := deref (ss_Selector foundStatefulSet) in
              pure (err, matchLabels, statefulSetStatus)
          end in
        match err with
        | Some err => return_ (requeueOrNot, Some err)
        | None => pure (pvcLabelSelector, statefulSetStatus)
        end
    end
  else
    let* found :=
      Get_StatefulSet {| nn_Name := StatefulSetName instance;
                         nn_Namespace := Namespace instance |} in
    match found with
    | inl foundStatefulSet =>
        let* matchLabels := deref (ss_Selector foundStatefulSet) in
        pure (matchLabels, ss_Status foundStatefulSet)
    | inr err =>
        if negb (IsNotFound err) then return_ (requeueOrNot, Some err)
        else pure (∅, StatefulSetStatus_zero)
    end.

(** Lines 361-367: the storage finalizer is reconciled only with labels
    that select the claims.  The step leaves the object, whose
    finalizers the storage finalizer may have changed. *)
Definition Reconcile_storageFinalizer (instance : SolrCloud)
    (pvcLabelSelector : gmap string string) : M Returned SolrCloud :=
  if Z.of_nat (size pvcLabelSelector) >? 0 then
    let* (instance, err) :=
      reconcileStorageFinalizer instance pvcLabelSelector in
    match err with
    | Some err => return_ ({| Requeue := false;
                              RequeueAfter := Second * 10 |}, None)
    | None => pure instance
    end
  else pure instance.

(** Lines 401-405. *)
Definition tightenRequeue (err : option error) (retryLater : bool)
    (requeueOrNot : Result) : Result :=
  if bool_decide (err <> None) || retryLater then
    if (RequeueAfter requeueOrNot <=? 0)
       || (RequeueAfter requeueOrNot >? Second * 15)
    then set_RequeueAfter (Second * 15) requeueOrNot
    else requeueOrNot
  else requeueOrNot.

(** Lines 392-400: every pod is deleted on the condition that its UID
    is still the one read; [err] keeps the result of the deletion made
    last. *)
Definition deletePods {R} (podsToUpdate : list Pod) (err : option error)
  : M R (option error) :=
  forEachWith podsToUpdate err (fun _ pod =>
    Delete (OPod pod) (Some (pod_UID pod))).

(** Lines 376-406: the managed update of the pods that are out of
    date.  The step leaves the requeue decision. *)
Definition Reconcile_managedUpdate (instance : SolrCloud)
    (newStatus : SolrCloudStatus) (requeueOrNot : Result)
    (status : CloudStatus) : M Returned Result :=
  let outOfDatePods := cs_outOfDatePods status in
  let outOfDatePodsNotStarted := cs_outOfDatePodsNotStarted status in
  let* totalPodCount := deref (Replicas (Spec instance)) in
  if String.eqb (UpdateStrategy_Method (Spec instance)) ManagedUpdate
     && (wrap64 (len outOfDatePods + len outOfDatePodsNotStarted) >? 0)
  then
    let podsToUpdate := outOfDatePodsNotStarted in
    let* (additionalPodsToUpdate, retryLater) :=
      askPodsSafeToUpdate instance outOfDatePods totalPodCount
        (ReadyReplicas newStatus) (cs_availableUpdatedPodCount status)
        (len outOfDatePodsNotStarted) in
    let podsToUpdate := podsToUpdate ++ additionalPodsToUpdate in
    let* err := deletePods podsToUpdate None in
    pure (tightenRequeue err retryLater requeueOrNot)
  else pure requeueOrNot.

(** Lines 408-431: the Ingress. *)
Definition Reconcile_ingress (instance : SolrCloud)
    (solrNodeNames : list string) (requeueOrNot : Result)
  : M Returned unit :=
  match SolrAddressability_External (Spec instance) with
  | Some extAddressabilityOpts =>
      if String.eqb (ext_Method extAddressabilityOpts) IngressMethod then
        let ingress :=
          GenerateIngress instance solrNodeNames IngressBaseUrl in
        match SetControllerReference_Ingress instance ingress with
        | inr err => return_ (requeueOrNot, Some err)
        | inl ingress =>
            let* found :=
              Get_Ingress {| nn_Name := ing_Name ingress;
                             nn_Namespace := ing_Namespace ingress |} in
            let* err :=
              match found with
              | inr err =>
                  if IsNotFound err then Create (OIngress ingress)
                  else pure (Some err)
              | inl foundIngress =>
                  let '(changed, foundIngress) :=
                    CopyIngressFields ingress foundIngress in
                  if changed then Update (OIngress foundIngress)
                  else pure None
              end in
            match err with
            | Some err => return_ (requeueOrNot, Some err)
            | None => pure tt
            end
        end
      else pure tt
  | None => pure tt
  end.

(** Lines 433-442: the status is written back when it differs from
    the one of the object. *)
Definition Reconcile_statusWriteBack (instance : SolrCloud)
    (newStatus : SolrCloudStatus) (requeueOrNot : Result)
  : M Returned Returned :=
  let* _ :=
    if negb (DeepEqual (Status instance) newStatus) then
      let instance := set_Status newStatus instance in
      let* err := Status_Update (OSolrCloud instance) in
      match err with
      | Some err => return_ (requeueOrNot, Some err)
      | None => pure tt
      end
    else pure tt in
  return_ (requeueOrNot, None).

(** Lines 315-443 of [Reconcile]. *)
Definition Reconcile_from_StatefulSet {R} (l : Locals) : M R Returned :=
  func (
    let instance := loc_instance l in
    let requeueOrNot := loc_requeueOrNot l in
    let* (pvcLabelSelector, statefulSetStatus) := Reconcile_statefulSet l in
    let* instance :=
      Reconcile_storageFinalizer instance pvcLabelSelector in
    let* status :=
      reconcileCloudStatus instance (loc_newStatus l) statefulSetStatus in
    let newStatus := cs_newStatus status in
    let* _ :=
      match cs_err status with
      | Some err => return_ (requeueOrNot, Some err)
      | None => pure tt
      end in
    let* requeueOrNot :=
      Reconcile_managedUpdate instance newStatus requeueOrNot status in
    let* _ :=
      Reconcile_ingress instance (loc_solrNodeNames l) requeueOrNot in
    Reconcile_statusWriteBack instance newStatus requeueOrNot).

(** Lines 92-313 of [Reconcile]. *)
Definition Reconcile_front (req : Request) : M Returned Locals :=
  let* instance := Reconcile_defaults req in
  Reconcile_resources instance.

(** [Reconcile]. *)
Definition Reconcile {R} (req : Request) : M R Returned :=
  func (
    let* l := Reconcile_front req in
    Reconcile_from_StatefulSet l).

End Controller.

(* ---------------------------------------------------------------- *)
(** *** The index of the provided ConfigMaps *)

(** The index function that [indexAndWatchForProvidedConfigMaps]
    registers (lines 786-797): the values under which an object is
    indexed, nil for none.  The type assertion panics on an object that
    is no SolrCloud. *)
Definition providedConfigMapIndex (rawObj : Object)
  : Outcome Empty_set (option (list string)) :=
  match rawObj with
  | OSolrCloud solrCloud =>
      match CustomSolrKubeOptions_ConfigMapOptions (Spec solrCloud) with
      | None => Next None
      | Some options =>
          if String.eqb (ProvidedConfigMap options) "" then Next None
          else Next (Some [ProvidedConfigMap options])
      end
  | _ => Panic
  end.

(* ================================================================== *)
(** ** Concrete clusters

    Collaborators, settings and environments on which the controller can
    be run. *)

Definition exampleCollaborators : Collaborators :=
  {| SolrStorageFinalizer := "storage.finalizers.solr.apache.org";
     BackupRestoreVolume := "backup-restore";
     SolrNodeContainer := "solrcloud-node";
     ManagedUpdate := "Managed";
     IngressMethod := "Ingress";
     VolumeReclaimPolicyDelete := "Delete";
     SolrTechnologyLabel := "solr-cloud";
     ContainsString := fun slice s => existsb (String.eqb s) slice;
     RemoveString := fun slice s =>
       filter (fun item => negb (String.eqb item s)) slice;
     WithDefaults := fun cloud _ => (false, cloud);
     GetAllSolrNodeNames := fun cloud =>
       map (fun i => Name cloud +:+ "-solrcloud-" +:+ itoa i)
         (seqZ 0 (default 0 (Replicas (Spec cloud))));
     UsesIndividualNodeServices := fun cloud =>
       match SolrAddressability_External (Spec cloud) with
       | Some external =>
           String.eqb (ext_Method external) "Ingress"
           && negb (ext_HideNodes external)
       | None => false
       end;
     UsesHeadlessService := fun cloud =>
       match SolrAddressability_External (Spec cloud) with
       | Some external =>
           negb (String.eqb (ext_Method external) "Ingress"
                 && negb (ext_HideNodes external))
       | None => true
       end;
     AdvertisedNodeHost := fun cloud node => node +:+ "." +:+ Namespace cloud;
     ConfigMapName := fun cloud => Name cloud +:+ "-solrcloud-configmap";
     ZkConnectionString := fun status =>
       InternalConnectionString (ZookeeperConnectionInfo_ status)
       +:+ ChRoot (ZookeeperConnectionInfo_ status);
     SharedLabels := fun cloud => {[ "solr-cloud" := Name cloud ]};
     StatefulSetName := fun cloud => Name cloud +:+ "-solrcloud";
     InternalNodeUrl := fun cloud node _ => node +:+ "." +:+ Namespace cloud;
     ExternalNodeUrl := fun cloud node domain _ => node +:+ "." +:+ domain;
     InternalCommonUrl := fun cloud _ =>
       Name cloud +:+ "-solrcloud-common." +:+ Namespace cloud;
     ExternalCommonUrl := fun cloud domain _ => Name cloud +:+ "." +:+ domain;
     ImageVersion := fun image => default "" (afterLast ":" image);
     GenerateCommonService := fun cloud =>
       {| svc_Name := Name cloud +:+ "-solrcloud-common";
          svc_Namespace := Namespace cloud; svc_ClusterIP := "";
          svc_Spec := "" |};
     GenerateNodeService := fun cloud node =>
       {| svc_Name := node; svc_Namespace := Namespace cloud;
          svc_ClusterIP := ""; svc_Spec := "" |};
     GenerateHeadlessService := fun cloud =>
       {| svc_Name := Name cloud +:+ "-solrcloud-headless";
          svc_Namespace := Namespace cloud; svc_ClusterIP := "None";
          svc_Spec := "" |};
     CopyServiceFields := fun desired found =>
       (negb (String.eqb (svc_Spec desired) (svc_Spec found)),
        {| svc_Name := svc_Name found; svc_Namespace := svc_Namespace found;
           svc_ClusterIP := svc_ClusterIP found;
           svc_Spec := svc_Spec desired |});
     GenerateConfigMap := fun cloud =>
       {| cm_Name := Name cloud +:+ "-solrcloud-configmap";
          cm_Namespace := Namespace cloud;
          cm_Data := Some {[ "solr.xml" := "<solr>${hostPort:80}</solr>" ]} |};
     CopyConfigMapFields := fun desired found =>
       (negb (bool_decide (cm_Data desired = cm_Data found)),
        {| cm_Name := cm_Name found; cm_Namespace := cm_Namespace found;
           cm_Data := cm_Data desired |});
     GenerateStatefulSet := fun cloud _ _ _ _ _ =>
       {| ss_Name := Name cloud +:+ "-solrcloud";
          ss_Namespace := Namespace cloud;
          ss_Selector := Some {[ "solr-cloud" := Name cloud ]};
          ss_Spec := ""; ss_Status := StatefulSetStatus_zero |};
     CopyStatefulSetFields := fun _ found => (false, found);
     GenerateIngress := fun cloud _ _ =>
       {| ing_Name := Name cloud +:+ "-solrcloud-common";
          ing_Namespace := Namespace cloud; ing_Spec := "" |};
     CopyIngressFields := fun _ found => (false, found);
     GenerateZookeeperCluster := fun cloud pzk =>
       {| zk_Name := Name cloud +:+ "-solrcloud-zookeeper";
          zk_Namespace := Namespace cloud; zk_Replicas := 3;
          zk_Spec := zkspec_Rest pzk; zk_ExternalClientEndpoint := "" |};
     CopyZookeeperClusterFields := fun desired found =>
       (negb (String.eqb (zk_Spec desired) (zk_Spec found)),
        {| zk_Name := zk_Name found; zk_Namespace := zk_Namespace found;
           zk_Replicas := zk_Replicas desired; zk_Spec := zk_Spec desired;
           zk_ExternalClientEndpoint := zk_ExternalClientEndpoint found |});
     ZookeeperPorts_Client := fun _ => 2181;
     GenerateCertificate := fun cloud =>
       {| cert_Name := Name cloud +:+ "-solr-tls";
          cert_Namespace := Namespace cloud;
          cert_SecretName := Name cloud +:+ "-solr-tls";
          cert_Spec := spec_Rest (Spec cloud) |};
     CopyCreateCertificateFields := fun desired found =>
       (negb (String.eqb (cert_Spec desired) (cert_Spec found)),
        {| cert_Name := cert_Name found;
           cert_Namespace := cert_Namespace found;
           cert_SecretName := cert_SecretName found;
           cert_Spec := cert_Spec desired |});
     GenerateKeystoreSecret := fun cloud =>
       {| secret_Name := Name cloud +:+ "-pkcs12-keystore";
          secret_Namespace := Namespace cloud;
          secret_ResourceVersion := ""; secret_OwnerReferences := [];
          secret_Data := ∅ |};
     GenerateSelfSignedIssuer := fun cloud name =>
       {| issuer_Name := name; issuer_Namespace := Namespace cloud;
          issuer_Spec := "selfSigned" |};
     SetControllerReference_Service := fun _ o => inl o;
     SetControllerReference_ConfigMap := fun _ o => inl o;
     SetControllerReference_StatefulSet := fun _ o => inl o;
     SetControllerReference_Ingress := fun _ o => inl o;
     SetControllerReference_ZookeeperCluster := fun _ o => inl o;
     SetControllerReference_Secret := fun cloud o =>
       inl {| secret_Name := secret_Name o;
              secret_Namespace := secret_Namespace o;
              secret_ResourceVersion := secret_ResourceVersion o;
              secret_OwnerReferences :=
                secret_OwnerReferences o ++
                [{| owner_Kind := "SolrCloud"; owner_Name := Name cloud;
                    owner_UID := "" |}];
              secret_Data := secret_Data o |};
     SetControllerReference_Issuer := fun _ o => inl o;
     SetControllerReference_Certificate := fun _ o => inl o;
     md5_hex := fun data => "md5:" +:+ data;
     json_Unmarshal := fun data =>
       if String.eqb data "null" then inl None
       else if String.prefix "{" data
       then inl (Some {[ "raw" := JOther data ]})
       else inr (OtherError "invalid character");
     json_Marshal := fun props =>
       match props !! "urlScheme" with
       | Some (JString scheme) => "{urlScheme:" +:+ scheme +:+ "}"
       | _ => "{}"
       end |}.

Definition exampleSettings (zkCRD : bool) : Settings :=
  {| useZkCRD := zkCRD; IngressBaseUrl := "" |}.

Definition notFound : error := StatusError "NotFound" "not found".

(** An environment with the given cloud, StatefulSet, pods and claims,
    where no other object exists, ZooKeeper cannot be reached, the writes
    chosen by [fails] fail, and the update selector answers [safe]. *)
Definition exampleCluster (cloud : option SolrCloud)
    (statefulSet : option StatefulSet)
    (pods : list Pod) (claims : list PersistentVolumeClaim)
    (fails : Call -> bool) (safe : list Pod * bool) : Environment :=
  {| get_SolrCloud := fun _ _ =>
       match cloud with
       | Some found => inl found
       | None => inr notFound
       end;
     get_Service := fun _ _ => inr notFound;
     get_ConfigMap := fun _ _ => inr notFound;
     get_StatefulSet := fun _ _ =>
       match statefulSet with
       | Some found => inl found
       | None => inr notFound
       end;
     get_Ingress := fun _ _ => inr notFound;
     get_Secret := fun _ _ => inr notFound;
     get_Certificate := fun _ _ => inr notFound;
     get_Issuer := fun _ _ => inr notFound;
     get_ZookeeperCluster := fun _ _ => inr notFound;
     list_Pods := fun _ _ _ => inl pods;
     list_PersistentVolumeClaims := fun _ _ _ => inl claims;
     write_error := fun _ c =>
       if fails c then Some (OtherError "connection refused") else None;
     zk_Connect := fun _ _ => Some (OtherError "no such host");
     zk_Get := fun _ _ => (None, None, Some (OtherError "no connection"));
     zk_Set := fun _ _ _ _ => Some (OtherError "no connection");
     zk_Exists := fun _ _ => false;
     zk_Create := fun _ _ _ => Some (OtherError "no connection");
     DeterminePodsSafeToUpdate := fun _ _ _ _ _ _ _ => safe |}.

(** The same, without the cloud. *)
Definition exampleEnvironment (statefulSet : option StatefulSet)
    (pods : list Pod) (claims : list PersistentVolumeClaim)
    (fails : Call -> bool) (safe : list Pod * bool) : Environment :=
  exampleCluster None statefulSet pods claims fails safe.

Definition exampleSpec (replicas : Z) : SolrCloudSpec :=
  {| Replicas := Some replicas;
     SolrImage_Tag := "8.9.0";
     UpdateStrategy_Method := "Managed";
     SolrAddressability_External := None;
     StorageOptions :=
       {| PersistentStorage := Some {| VolumeReclaimPolicy := "Delete" |};
          BackupRestoreOptions := None |};
     CustomSolrKubeOptions_ConfigMapOptions := None;
     ZookeeperRef_ :=
       {| ConnectionInfo :=
            Some {| InternalConnectionString := "zk:2181";
                    ExternalConnectionString := None;
                    ChRoot := "/" |};
          ProvidedZookeeper := None |};
     SolrTLS := None;
     spec_Rest := "" |}.

Definition exampleStatus (replicas ready : Z) : SolrCloudStatus :=
  {| SolrNodes := Some []; status_Replicas := replicas;
     ReadyReplicas := ready; UpToDateNodes := replicas;
     Version := "8.9.0"; TargetVersion := "";
     InternalCommonAddress := ""; ExternalCommonAddress := None;
     ZookeeperConnectionInfo_ := ZookeeperConnectionInfo_zero;
     BackupRestoreReady := false; UrlSchemeClusterProperty := false |}.

Definition exampleCloud (replicas statusReplicas ready : Z) : SolrCloud :=
  {| Name := "example"; Namespace := "default";
     Finalizers := ["storage.finalizers.solr.apache.org"];
     DeletionTimestamp := None;
     Spec := exampleSpec replicas;
     Status := exampleStatus statusReplicas ready |}.

Definition exampleClaim (name : string) : PersistentVolumeClaim :=
  {| pvc_Name := name; pvc_Namespace := "default"; pvc_UID := name;
     pvc_Labels := {[ "solr-cloud" := "example" ]} |}.

Definition examplePod (name revision image : string) (ready : bool)
    (started : option bool) : Pod :=
  {| pod_Name := name; pod_Namespace := "default";
     pod_UID := "uid-" +:+ name;
     pod_Labels := {[ "controller-revision-hash" := revision ]};
     pod_NodeName := "node-1";
     pod_Containers := [{| container_Image := image |}];
     pod_Volumes := [];
     pod_ContainerStatuses :=
       [{| cs_Name := "solrcloud-node"; cs_Started := started |}];
     pod_Conditions :=
       [{| cond_Type := "Ready";
           cond_Status := if ready then "True" else "False" |}] |}.

Definition exampleStatefulSet (replicas ready : Z) (updateRevision : string)
  : StatefulSet :=
  {| ss_Name := "example-solrcloud"; ss_Namespace := "default";
     ss_Selector := Some {[ "solr-cloud" := "example" ]};
     ss_Spec := "";
     ss_Status := {| sts_Replicas := replicas; sts_ReadyReplicas := ready;
                     sts_UpdateRevision := updateRevision |} |}.

Definition exampleRequest : Request :=
  {| req_NamespacedName :=
       {| nn_Name := "example"; nn_Namespace := "default" |} |}.

(** A write fails when it deletes the pod of the given name. *)
Definition failsToDelete (name : string) (c : Call) : bool :=
  match c with
  | CDelete (OPod p) _ => String.eqb (pod_Name p) name
  | _ => false
  end.

(** A write fails when it updates the SolrCloud object. *)
Definition failsToUpdateCloud (c : Call) : bool :=
  match c with
  | CUpdate (OSolrCloud _) => true
  | _ => false
  end.

(** The example cloud with another reference to ZooKeeper. *)
Definition exampleCloudWithZookeeper (zkRef : ZookeeperRef) : SolrCloud :=
  let cloud := exampleCloud 3 3 3 in
  {| Name := Name cloud; Namespace := Namespace cloud;
     Finalizers := Finalizers cloud;
     DeletionTimestamp := DeletionTimestamp cloud;
     Spec :=
       {| Replicas := Replicas (Spec cloud);
          SolrImage_Tag := SolrImage_Tag (Spec cloud);
          UpdateStrategy_Method := UpdateStrategy_Method (Spec cloud);
          SolrAddressability_External :=
            SolrAddressability_External (Spec cloud);
          StorageOptions := StorageOptions (Spec cloud);
          CustomSolrKubeOptions_ConfigMapOptions :=
            CustomSolrKubeOptions_ConfigMapOptions (Spec cloud);
          ZookeeperRef_ := zkRef;
          SolrTLS := SolrTLS (Spec cloud);
          spec_Rest := spec_Rest (Spec cloud) |};
     Status := Status cloud |}.

(** The example cloud with a ZooKeeper connection string that names no
    port. *)
Definition unresolvedCloud : SolrCloud :=
  exampleCloudWithZookeeper
    {| ConnectionInfo :=
         Some {| InternalConnectionString := "zookeeper";
                 ExternalConnectionString := None; ChRoot := "/" |};
       ProvidedZookeeper := None |}.



Definition tlsSecret : Secret :=
  {| secret_Name := "example-solr-tls"; secret_Namespace := "default";
     secret_ResourceVersion := "41"; secret_OwnerReferences := [];
     secret_Data := {[ "tls.crt" := "certificate" ]} |}.

(** Three pods of a cloud whose StatefulSet is at the revision "new": one
    out of date that has not started, one out of date that runs, and one
    up to date. *)
Definition unstartedPod : Pod :=
  examplePod "example-solrcloud-0" "old" "solr:8.8.0" false (Some false).

Definition startedPod : Pod :=
  examplePod "example-solrcloud-1" "old" "solr:8.8.0" true (Some true).

Definition currentPod : Pod :=
  examplePod "example-solrcloud-2" "new" "solr:8.9.0" true (Some true).

(** *** Clusters with more objects *)

(** The specification of the example cloud with other replicas, external
    addresses, reclaim policy, ConfigMap options and TLS options. *)
Definition exampleSpecWith (replicas : option Z)
    (external : option ExternalAddressability) (policy : string)
    (configMapOptions : option ConfigMapOptions)
    (tls : option SolrTLSOptions) : SolrCloudSpec :=
  {| Replicas := replicas;
     SolrImage_Tag := SolrImage_Tag (exampleSpec 3);
     UpdateStrategy_Method := UpdateStrategy_Method (exampleSpec 3);
     SolrAddressability_External := external;
     StorageOptions :=
       {| PersistentStorage := Some {| VolumeReclaimPolicy := policy |};
          BackupRestoreOptions := None |};
     CustomSolrKubeOptions_ConfigMapOptions := configMapOptions;
     ZookeeperRef_ := ZookeeperRef_ (exampleSpec 3);
     SolrTLS := tls;
     spec_Rest := spec_Rest (exampleSpec 3) |}.

(** The example cloud with another deletion timestamp and another
    specification. *)
Definition exampleCloudWith (deleted : option Z) (spec : SolrCloudSpec)
  : SolrCloud :=
  let cloud := exampleCloud 3 3 3 in
  {| Name := Name cloud; Namespace := Namespace cloud;
     Finalizers := Finalizers cloud;
     DeletionTimestamp := deleted;
     Spec := spec;
     Status := Status cloud |}.

(** Clouds for the steps of the pass: one that is being deleted, one that
    retains its storage, one with TLS and a certificate of the given
    issuer, one with a ConfigMap of the user, one with a service for
    every node, and one that leaves the replicas to the defaults. *)
Definition deletedCloud : SolrCloud :=
  exampleCloudWith (Some 1700000000)
    (exampleSpecWith (Some 3) None "Delete" None None).

Definition retainedCloud : SolrCloud :=
  exampleCloudWith None (exampleSpecWith (Some 3) None "Retain" None None).

Definition tlsCloud (issuerRef : option string) : SolrCloud :=
  exampleCloudWith None
    (exampleSpecWith (Some 3) None "Delete" None
       (Some {| AutoCreate :=
                  Some {| autoCreate_Name := "example-solr-tls";
                          autoCreate_IssuerRef := issuerRef |};
                PKCS12Secret_Name := "example-solr-tls";
                PKCS12Secret_Key := "keystore.p12";
                RestartOnTLSSecretUpdate := false;
                TLSSecretVersion := "" |})).

Definition providedConfigMapCloud : SolrCloud :=
  exampleCloudWith None
    (exampleSpecWith (Some 3) None "Delete"
       (Some {| ProvidedConfigMap := "custom-solr-xml" |}) None).

Definition nodeServicesCloud : SolrCloud :=
  exampleCloudWith None
    (exampleSpecWith (Some 2)
       (Some {| ext_Method := "Ingress"; ext_UseExternalAddress := true;
                ext_HideNodes := false; ext_HideCommon := false;
                ext_DomainName := "example.com" |})
       "Delete" None None).

Definition undefaultedCloud : SolrCloud :=
  exampleCloudWith None (exampleSpecWith None None "Delete" None None).

(** Collaborators whose defaults set three replicas where none are
    given. *)
Definition defaultingCollaborators : Collaborators :=
  {| SolrStorageFinalizer := @SolrStorageFinalizer exampleCollaborators;
     BackupRestoreVolume := @BackupRestoreVolume exampleCollaborators;
     SolrNodeContainer := @SolrNodeContainer exampleCollaborators;
     ManagedUpdate := @ManagedUpdate exampleCollaborators;
     IngressMethod := @IngressMethod exampleCollaborators;
     VolumeReclaimPolicyDelete := @VolumeReclaimPolicyDelete exampleCollaborators;
     SolrTechnologyLabel := @SolrTechnologyLabel exampleCollaborators;
     ContainsString := @ContainsString exampleCollaborators;
     RemoveString := @RemoveString exampleCollaborators;
     WithDefaults := fun cloud _ =>
       match Replicas (Spec cloud) with
       | Some _ => (false, cloud)
       | None =>
           (true,
            exampleCloudWith (DeletionTimestamp cloud)
              (exampleSpecWith (Some 3) None "Delete" None None))
       end;
     GetAllSolrNodeNames := @GetAllSolrNodeNames exampleCollaborators;
     UsesIndividualNodeServices := @UsesIndividualNodeServices exampleCollaborators;
     UsesHeadlessService := @UsesHeadlessService exampleCollaborators;
     AdvertisedNodeHost := @AdvertisedNodeHost exampleCollaborators;
     ConfigMapName := @ConfigMapName exampleCollaborators;
     ZkConnectionString := @ZkConnectionString exampleCollaborators;
     SharedLabels := @SharedLabels exampleCollaborators;
     StatefulSetName := @StatefulSetName exampleCollaborators;
     InternalNodeUrl := @InternalNodeUrl exampleCollaborators;
     ExternalNodeUrl := @ExternalNodeUrl exampleCollaborators;
     InternalCommonUrl := @InternalCommonUrl exampleCollaborators;
     ExternalCommonUrl := @ExternalCommonUrl exampleCollaborators;
     ImageVersion := @ImageVersion exampleCollaborators;
     GenerateCommonService := @GenerateCommonService exampleCollaborators;
     GenerateNodeService := @GenerateNodeService exampleCollaborators;
     GenerateHeadlessService := @GenerateHeadlessService exampleCollaborators;
     CopyServiceFields := @CopyServiceFields exampleCollaborators;
     GenerateConfigMap := @GenerateConfigMap exampleCollaborators;
     CopyConfigMapFields := @CopyConfigMapFields exampleCollaborators;
     GenerateStatefulSet := @GenerateStatefulSet exampleCollaborators;
     CopyStatefulSetFields := @CopyStatefulSetFields exampleCollaborators;
     GenerateIngress := @GenerateIngress exampleCollaborators;
     CopyIngressFields := @CopyIngressFields exampleCollaborators;
     GenerateZookeeperCluster := @GenerateZookeeperCluster exampleCollaborators;
     CopyZookeeperClusterFields := @CopyZookeeperClusterFields exampleCollaborators;
     ZookeeperPorts_Client := @ZookeeperPorts_Client exampleCollaborators;
     GenerateCertificate := @GenerateCertificate exampleCollaborators;
     CopyCreateCertificateFields := @CopyCreateCertificateFields exampleCollaborators;
     GenerateKeystoreSecret := @GenerateKeystoreSecret exampleCollaborators;
     GenerateSelfSignedIssuer := @GenerateSelfSignedIssuer exampleCollaborators;
     SetControllerReference_Service := @SetControllerReference_Service exampleCollaborators;
     SetControllerReference_ConfigMap := @SetControllerReference_ConfigMap exampleCollaborators;
     SetControllerReference_StatefulSet := @SetControllerReference_StatefulSet exampleCollaborators;
     SetControllerReference_Ingress := @SetControllerReference_Ingress exampleCollaborators;
     SetControllerReference_ZookeeperCluster := @SetControllerReference_ZookeeperCluster exampleCollaborators;
     SetControllerReference_Secret := @SetControllerReference_Secret exampleCollaborators;
     SetControllerReference_Issuer := @SetControllerReference_Issuer exampleCollaborators;
     SetControllerReference_Certificate := @SetControllerReference_Certificate exampleCollaborators;
     md5_hex := @md5_hex exampleCollaborators;
     json_Unmarshal := @json_Unmarshal exampleCollaborators;
     json_Marshal := @json_Marshal exampleCollaborators |}.

(** A service of a node, with its cluster IP, and a ConfigMap of the
    user. *)
Definition nodeService (name ip : string) : Service :=
  {| svc_Name := name; svc_Namespace := "default"; svc_ClusterIP := ip;
     svc_Spec := "" |}.

Definition providedConfigMap : ConfigMap :=
  {| cm_Name := "custom-solr-xml"; cm_Namespace := "default";
     cm_Data := Some {[ "solr.xml" := "<solr>${hostPort:8983}</solr>" ]} |}.

(** An environment like [exampleCluster], without StatefulSet, pods and
    claims, in which the given services and ConfigMaps exist, and in
    which ZooKeeper can be reached: the node of the cluster properties
    holds [clusterProps] at version 7, or is missing, and every write to
    ZooKeeper goes through. *)
Definition populatedCluster (cloud : option SolrCloud)
    (services : list Service) (configMaps : list ConfigMap)
    (clusterProps : option string) : Environment :=
  let rest := exampleCluster cloud None [] [] (fun _ => false) ([], false) in
  {| get_SolrCloud := @get_SolrCloud rest;
     get_Service := fun _ key =>
       match
         find (fun service =>
                 String.eqb (svc_Name service) (nn_Name key)
                 && String.eqb (svc_Namespace service) (nn_Namespace key))
           services
       with
       | Some found => inl found
       | None => inr notFound
       end;
     get_ConfigMap := fun _ key =>
       match
         find (fun configMap =>
                 String.eqb (cm_Name configMap) (nn_Name key)
                 && String.eqb (cm_Namespace configMap) (nn_Namespace key))
           configMaps
       with
       | Some found => inl found
       | None => inr notFound
       end;
     get_StatefulSet := @get_StatefulSet rest;
     get_Ingress := @get_Ingress rest;
     get_Secret := @get_Secret rest;
     get_Certificate := @get_Certificate rest;
     get_Issuer := @get_Issuer rest;
     get_ZookeeperCluster := @get_ZookeeperCluster rest;
     list_Pods := @list_Pods rest;
     list_PersistentVolumeClaims := @list_PersistentVolumeClaims rest;
     write_error := @write_error rest;
     zk_Connect := fun _ _ => None;
     zk_Get := fun _ _ =>
       match clusterProps with
       | Some data => (Some data, Some 7, None)
       | None => (None, None, Some (OtherError "node does not exist"))
       end;
     zk_Set := fun _ _ _ _ => None;
     zk_Exists := fun _ _ => false;
     zk_Create := fun _ _ _ => None;
     DeterminePodsSafeToUpdate := @DeterminePodsSafeToUpdate rest |}.

(** A status with the connection string of two ZooKeeper hosts. *)
Definition zookeeperStatus : SolrCloudStatus :=
  set_ZookeeperConnectionInfo
    {| InternalConnectionString := "zk-0:2181,zk-1:2181";
       ExternalConnectionString := None; ChRoot := "/solr" |}
    SolrCloudStatus_zero.

(** A cloud with TLS from a secret of the user, that is to restart when
    the secret is updated. *)
Definition providedTlsCloud : SolrCloud :=
  exampleCloudWith None
    (exampleSpecWith (Some 3) None "Delete" None
       (Some {| AutoCreate := None;
                PKCS12Secret_Name := "example-solr-tls";
                PKCS12Secret_Key := "keystore.p12";
                RestartOnTLSSecretUpdate := true;
                TLSSecretVersion := "" |})).

(** An environment like [populatedCluster], without services and
    ConfigMaps, in which every read of a secret finds [secret]. *)
Definition tlsCluster (secret : Secret) (clusterProps : option string)
  : Environment :=
  let rest := populatedCluster None [] [] clusterProps in
  {| get_SolrCloud := @get_SolrCloud rest;
     get_Service := @get_Service rest;
     get_ConfigMap := @get_ConfigMap rest;
     get_StatefulSet := @get_StatefulSet rest;
     get_Ingress := @get_Ingress rest;
     get_Secret := fun _ _ => inl secret;
     get_Certificate := @get_Certificate rest;
     get_Issuer := @get_Issuer rest;
     get_ZookeeperCluster := @get_ZookeeperCluster rest;
     list_Pods := @list_Pods rest;
     list_PersistentVolumeClaims := @list_PersistentVolumeClaims rest;
     write_error := @write_error rest;
     zk_Connect := @zk_Connect rest;
     zk_Get := @zk_Get rest;
     zk_Set := @zk_Set rest;
     zk_Exists := @zk_Exists rest;
     zk_Create := @zk_Create rest;
     DeterminePodsSafeToUpdate := @DeterminePodsSafeToUpdate rest |}.

(** The example cloud of three replicas with the status that a pass
    computes for it while no pod runs. *)
Definition settledCloud : SolrCloud :=
  set_Status
    {| SolrNodes := Some []; status_Replicas := 3; ReadyReplicas := 0;
       UpToDateNodes := 0; Version := "8.9.0"; TargetVersion := "";
       InternalCommonAddress := "http://example-solrcloud-common.default";
       ExternalCommonAddress := None;
       ZookeeperConnectionInfo_ :=
         {| InternalConnectionString := "zk:2181";
            ExternalConnectionString := None; ChRoot := "/" |};
       BackupRestoreReady := false; UrlSchemeClusterProperty := false |}
    (exampleCloud 3 3 3).

(** An environment with the cloud and its StatefulSet of three
    replicas, without pods and claims. *)
Definition idleCluster (cloud : SolrCloud) : Environment :=
  exampleCluster (Some cloud) (Some (exampleStatefulSet 3 3 "new")) [] []
    (fun _ => false) ([], false).

(* ================================================================== *)
(** ** Vocabulary of the properties *)

(** The call with which [deletePVC] deletes a claim. *)
Definition claimDeletion (claim : PersistentVolumeClaim) : Call :=
  CDelete (OPersistentVolumeClaim
             {| pvc_Name := pvc_Name claim;
                pvc_Namespace := pvc_Namespace claim;
                pvc_UID := ""; pvc_Labels := ∅ |}) None.

(** The deletions that the cleanup issues for the claims listed. *)
Definition orphanDeletions (replicas : Z)
    (items : list PersistentVolumeClaim) : list Call :=
  items ≫= (fun claim => if IsPVCOrphan (pvc_Name claim) replicas
                         then [claimDeletion claim] else []).

(** The deletion of a pod on the condition that its UID is the one read. *)
Definition podDeletion (p : Pod) : Call :=
  CDelete (OPod p) (Some (pod_UID p)).

(** A call that leaves the storage of the cloud alone: it neither lists
    nor writes a claim, and it does not write the object, except for its
    status, and then with the finalizers that [instance] has. *)
Definition leavesStorageAlone (instance : SolrCloud) (c : Call) : Prop :=
  match c with
  | CList KPersistentVolumeClaim _ _ => False
  | CCreate (OPersistentVolumeClaim _) | CUpdate (OPersistentVolumeClaim _)
  | CStatusUpdate (OPersistentVolumeClaim _)
  | CDelete (OPersistentVolumeClaim _) _ => False
  | CCreate (OSolrCloud _) | CUpdate (OSolrCloud _)
  | CDelete (OSolrCloud _) _ => False
  | CStatusUpdate (OSolrCloud c') => Finalizers c' = Finalizers instance
  | _ => True
  end.

(** A call of the blocks of [Reconcile] between the defaults and the
    StatefulSet: on a service, a ConfigMap, a ZookeeperCluster, a secret,
    a certificate or an issuer, or to ZooKeeper. *)
Definition preparesResources (c : Call) : Prop :=
  match c with
  | CGet (KService | KConfigMap | KZookeeperCluster | KSecret
         | KCertificate | KIssuer) _ => True
  | CCreate (OService _ | OConfigMap _ | OZookeeperCluster _ | OSecret _
            | OCertificate _ | OIssuer _) => True
  | CUpdate (OService _ | OConfigMap _ | OZookeeperCluster _ | OSecret _
            | OCertificate _) => True
  | CDelete (OSecret _) None => True
  | CZkConnect _ | CZkGet _ | CZkSet _ _ _ | CZkExists _ | CZkCreate _ _
  | CZkClose => True
  | _ => False
  end.

(** The calls that the block [m] issues, taken together, satisfy [Q],
    whatever was issued before. *)
Definition traces {R A} (Q : list Call -> Prop) (m : M R A) : Prop :=
  forall t, exists o calls, m t = (o, t ++ calls) /\ Q calls.

(** Every call that the block [m] issues satisfies [P]. *)
Definition issues {R A} (P : Call -> Prop) (m : M R A) : Prop :=
  traces (Forall P) m.

(** A property of the calls issued that holds of no call and of the
    calls of two blocks run one after the other when it holds of each. *)
Class Sequential (Q : list Call -> Prop) : Prop := {
  sequential_nil : Q [];
  sequential_app : forall c1 c2, Q c1 -> Q c2 -> Q (c1 ++ c2)
}.

(** Among the calls, an update of a Certificate comes right after the
    deletion of a secret. *)
Definition deletionBeforeUpdate (calls : list Call) : Prop :=
  forall i c, calls !! i = Some (CUpdate (OCertificate c)) ->
    exists j secret,
      i = S j /\ calls !! j = Some (CDelete (OSecret secret) None).

Section Vocabulary.
Context {env : Environment} {settings : Settings}
        {collaborators : Collaborators}.

(** The object with the storage finalizer in place, and the call that
    puts it there when it is missing. *)
Definition withStorageFinalizer (cloud : SolrCloud) : SolrCloud :=
  if ContainsString (Finalizers cloud) SolrStorageFinalizer then cloud
  else set_Finalizers (Finalizers cloud ++ [SolrStorageFinalizer]) cloud.

Definition finalizerAddition (cloud : SolrCloud) : list Call :=
  if ContainsString (Finalizers cloud) SolrStorageFinalizer then []
  else [CUpdate (OSolrCloud (withStorageFinalizer cloud))].

(** The environment answers the call [c], issued after the calls [t],
    with the error [err]. *)
Definition answeredWithError (t : list Call) (c : Call) (err : error)
  : Prop :=
  match c with
  | CGet KSolrCloud key => get_SolrCloud t key = inr err
  | CGet KService key => get_Service t key = inr err
  | CGet KConfigMap key => get_ConfigMap t key = inr err
  | CGet KStatefulSet key => get_StatefulSet t key = inr err
  | CGet KIngress key => get_Ingress t key = inr err
  | CGet KSecret key => get_Secret t key = inr err
  | CGet KCertificate key => get_Certificate t key = inr err
  | CGet KIssuer key => get_Issuer t key = inr err
  | CGet KZookeeperCluster key => get_ZookeeperCluster t key = inr err
  | CGet _ _ => False
  | CList KPod namespace labels => list_Pods t namespace labels = inr err
  | CList KPersistentVolumeClaim namespace labels =>
      list_PersistentVolumeClaims t namespace labels = inr err
  | CList _ _ _ => False
  | CCreate _ | CUpdate _ | CStatusUpdate _ | CDelete _ _ =>
      write_error t c = Some err
  | CZkConnect hosts => zk_Connect t hosts = Some err
  | CZkGet path => snd (zk_Get t path) = Some err
  | CZkSet path data version => zk_Set t path data version = Some err
  | CZkCreate path data => zk_Create t path data = Some err
  | CZkExists _ | CZkClose => False
  end.

(** The labels with which the pods of a cloud are listed. *)
Definition podSelector (solrCloud : SolrCloud) : gmap string string :=
  <["technology" := SolrTechnologyLabel]> (SharedLabels solrCloud).

(** The version that the image of the first container of a pod gives. *)
Definition podVersion (p : Pod) : string :=
  match pod_Containers p with
  | solr :: _ => ImageVersion (container_Image solr)
  | [] => ""
  end.

(** A pod runs a version other than [tag]: it reports the status of a
    container, and the version of its image is not [tag]. *)
Definition runsOtherVersion (tag : string) (p : Pod) : bool :=
  (len (pod_ContainerStatuses p) >? 0)
  && negb (String.eqb (podVersion p) tag).

(** The out-of-date pods whose solr container has not started, and those
    where it has. *)
Definition outOfDateNotStarted (updateRevision : string) (p : Pod) : bool :=
  negb (specUpToDate updateRevision p) && containerNotStarted p.

Definition outOfDateStarted (updateRevision : string) (p : Pod) : bool :=
  negb (specUpToDate updateRevision p) && negb (containerNotStarted p).

(** Pods that report the status of a container have a container. *)
Definition wellFormedPods (pods : list Pod) : Prop :=
  forall p, p ∈ pods -> pod_ContainerStatuses p <> [] ->
            pod_Containers p <> [].

(** What the loop of the status aggregator has computed after the pods
    [seen]. *)
Definition loopInvariant (solrCloud : SolrCloud) (updateRevision : string)
    (seen : list Pod) (s : StatusLoop) : Prop :=
  loop_ReadyReplicas s = wrap32 (len (filter (fun p => podReady p) seen)) /\
  otherVersions s =
    podVersion <$>
      filter (fun p => runsOtherVersion (SolrImage_Tag (Spec solrCloud)) p)
             seen /\
  outOfDatePodsNotStarted s =
    filter (fun p => outOfDateNotStarted updateRevision p) seen /\
  outOfDatePods s =
    filter (fun p => outOfDateStarted updateRevision p) seen.

End Vocabulary.

(* ---------------------------------------------------------------- *)
(** *** Calls by what they touch *)

(** A deletion as [Reconcile] issues them: of a pod, on the condition
    that its UID is the one read; of a claim or of a secret, without
    condition; of nothing else. *)
Definition deletesWithCare (c : Call) : Prop :=
  match c with
  | CDelete (OPod p) uid => uid = Some (pod_UID p)
  | CDelete (OPersistentVolumeClaim _) uid | CDelete (OSecret _) uid =>
      uid = None
  | CDelete _ _ => False
  | _ => True
  end.

(** A call to ZooKeeper. *)
Definition isZkCall (c : Call) : bool :=
  match c with
  | CZkConnect _ | CZkGet _ | CZkSet _ _ _ | CZkExists _ | CZkCreate _ _
  | CZkClose => true
  | _ => false
  end.

(** A write of the status of an object. *)
Definition isStatusUpdate (c : Call) : bool :=
  match c with
  | CStatusUpdate _ => true
  | _ => false
  end.

(** A creation or an update of a StatefulSet. *)
Definition writesStatefulSet (c : Call) : bool :=
  match c with
  | CCreate (OStatefulSet _) | CUpdate (OStatefulSet _) => true
  | _ => false
  end.

(** The calls hold no status update, or one, which is the last call. *)
Definition statusUpdateLast (calls : list Call) : Prop :=
  Forall (fun c => isStatusUpdate c = false) calls \/
  exists init obj,
    calls = init ++ [CStatusUpdate obj] /\
    Forall (fun c => isStatusUpdate c = false) init.

(** A call on the workload of the cloud: on its StatefulSet, its pods,
    its claims or its Ingress, or the write of its status. *)
Definition touchesWorkload (c : Call) : bool :=
  match c with
  | CGet (KStatefulSet | KPod | KPersistentVolumeClaim | KIngress) _ => true
  | CList _ _ _ => true
  | CCreate (OStatefulSet _ | OPod _ | OPersistentVolumeClaim _ | OIngress _)
  | CUpdate (OStatefulSet _ | OPod _ | OPersistentVolumeClaim _ | OIngress _)
  | CDelete (OStatefulSet _ | OPod _ | OPersistentVolumeClaim _ | OIngress _)
      _ => true
  | CStatusUpdate _ => true
  | _ => false
  end.

(** A write of a Certificate, or a deletion. *)
Definition writesCertificateOrDeletes (c : Call) : bool :=
  match c with
  | CCreate (OCertificate _) | CUpdate (OCertificate _)
  | CStatusUpdate (OCertificate _) | CDelete _ _ => true
  | _ => false
  end.

(** A call on an issuer. *)
Definition touchesIssuer (c : Call) : bool :=
  match c with
  | CGet KIssuer _ | CList KIssuer _ _ => true
  | CCreate (OIssuer _) | CUpdate (OIssuer _) | CStatusUpdate (OIssuer _)
  | CDelete (OIssuer _) _ => true
  | _ => false
  end.

(** The deletion of a pod. *)
Definition isPodDeletion (c : Call) : bool :=
  match c with
  | CDelete (OPod _) _ => true
  | _ => false
  end.

(* ---------------------------------------------------------------- *)
(** *** The cluster properties in ZooKeeper *)

Section ZookeeperVocabulary.
Context {collaborators : Collaborators}.

(** The hosts that [setUrlSchemeClusterProperty] dials and the node that
    it reads and writes (lines 987-995). *)
Definition zkHostsOf (newStatus : SolrCloudStatus) : list string :=
  strings_Split
    (InternalConnectionString (ZookeeperConnectionInfo_ newStatus)) ",".

Definition clusterPropsPathOf (newStatus : SolrCloudStatus) : string :=
  let chroot := ChRoot (ZookeeperConnectionInfo_ newStatus) in
  if negb (String.eqb chroot "") then chroot +:+ "/clusterprops.json"
  else "/clusterprops.json".

(** The cluster properties that [setUrlSchemeClusterProperty] works on
    when the node holds [data]: those that [data] parses to, none when it
    does not parse. *)
Definition clusterPropsOf (data : string) : option (gmap string Json) :=
  match json_Unmarshal data with
  | inl clusterProps => clusterProps
  | inr _ => Some ∅
  end.
End ZookeeperVocabulary.

(** A call on an open ZooKeeper connection. *)
Definition usesZkConnection (c : Call) : bool :=
  match c with
  | CZkGet _ | CZkSet _ _ _ | CZkExists _ | CZkCreate _ _ => true
  | _ => false
  end.

(* ---------------------------------------------------------------- *)
(** *** The nodes of the status *)

Section AggregatorVocabulary.
Context {collaborators : Collaborators}.

(** The status of a node describes the pod [p]. *)
Definition describes (updateRevision : string) (node : SolrNodeStatus)
    (p : Pod) : Prop :=
  node_Name node = pod_Name p /\
  node_NodeName node = pod_NodeName p /\
  node_Ready node = podReady p /\
  node_SpecUpToDate node = specUpToDate updateRevision p.

(** What the loop of the status aggregator has noted of the pods [seen]:
    their names, a status for each name, and the counts of the pods up
    to date. *)
Definition loopNodes (updateRevision : string) (seen : list Pod)
    (s : StatusLoop) : Prop :=
  nodeNames s = pod_Name <$> seen /\
  (forall name, name ∈ nodeNames s ->
     exists node p,
       nodeStatusMap s !! name = Some node /\ p ∈ seen /\
       pod_Name p = name /\ describes updateRevision node p) /\
  loop_UpToDateNodes s =
    wrap32 (len (filter (fun p => specUpToDate updateRevision p) seen)) /\
  availableUpdatedPodCount s =
    wrap64 (len (filter (fun p => specUpToDate updateRevision p && podReady p)
                   seen)).
End AggregatorVocabulary.

(* ---------------------------------------------------------------- *)
(** *** The run of a block, step by step *)

(** What [bind] and [func] do with the outcome of a block. *)
Definition continue_ {R A B} (k : A -> M R B)
    (x : Outcome R A * list Call) : Outcome R B * list Call :=
  match x with
  | (Next a, t') => k a t'
  | (Return r, t') => (Return r, t')
  | (Panic, t') => (Panic, t')
  end.

Definition called {R R'} (x : Outcome R R * list Call)
  : Outcome R' R * list Call :=
  match x with
  | (Next r, t') => (Next r, t')
  | (Return r, t') => (Next r, t')
  | (Panic, t') => (Panic, t')
  end.

(* ---------------------------------------------------------------- *)
(** *** Creations and the reads before them *)

(** The kind of an object. *)
Definition kindOf (o : Object) : Kind :=
  match o with
  | OSolrCloud _ => KSolrCloud
  | OPod _ => KPod
  | OPersistentVolumeClaim _ => KPersistentVolumeClaim
  | OStatefulSet _ => KStatefulSet
  | OService _ => KService
  | OConfigMap _ => KConfigMap
  | OIngress _ => KIngress
  | OSecret _ => KSecret
  | OCertificate _ => KCertificate
  | OIssuer _ => KIssuer
  | OZookeeperCluster _ => KZookeeperCluster
  end.

(** A block that is run after the calls [t] adds its calls to them, and
    [Q] holds of the calls before and of those added. *)
Definition tracesAt {R A} (Q : list Call -> list Call -> Prop) (m : M R A)
    (t : list Call) : Prop :=
  exists o calls, m t = (o, t ++ calls) /\ Q t calls.

(** A property of the calls added to a trace that holds of no calls, and
    of the calls of two blocks run one after the other. *)
Class Chained (Q : list Call -> list Call -> Prop) : Prop := {
  chained_nil t : Q t [];
  chained_app t c1 c2 : Q t c1 -> Q (t ++ c1) c2 -> Q t (c1 ++ c2)
}.

Section Lookups.
Context {env : Environment}.

(** The error with which the Get of an object answers after the calls
    [t], if it fails. *)
Definition readError (t : list Call) (kind : Kind) (key : NamespacedName)
  : option error :=
  let failure {A} (found : A + error) : option error :=
    match found with
    | inl _ => None
    | inr err => Some err
    end in
  match kind with
  | KSolrCloud => failure (get_SolrCloud t key)
  | KService => failure (get_Service t key)
  | KConfigMap => failure (get_ConfigMap t key)
  | KStatefulSet => failure (get_StatefulSet t key)
  | KIngress => failure (get_Ingress t key)
  | KSecret => failure (get_Secret t key)
  | KCertificate => failure (get_Certificate t key)
  | KIssuer => failure (get_Issuer t key)
  | KZookeeperCluster => failure (get_ZookeeperCluster t key)
  | KPod | KPersistentVolumeClaim => None
  end.

(** Among the calls added to [t], an object is created only right after
    a Get of an object of its kind that has answered that there is
    none. *)
Definition createsWhatIsMissing (t calls : list Call) : Prop :=
  forall before obj after,
    calls = before ++ CCreate obj :: after ->
    exists front key err,
      t ++ before = front ++ [CGet (kindOf obj) key] /\
      readError front (kindOf obj) key = Some err /\
      IsNotFound err = true.
End Lookups.

(* ================================================================== *)
(** ** Arithmetic and lists *)

Lemma wrap32_succ (k : Z) : wrap32 (wrap32 k + 1) = wrap32 (k + 1).
Proof.
  unfold wrap32.
  replace ((k + 2 ^ 31) mod 2 ^ 32 - 2 ^ 31 + 1 + 2 ^ 31)
    with ((k + 2 ^ 31) mod 2 ^ 32 + 1) by lia.
  rewrite Zplus_mod_idemp_l. f_equal. f_equal. lia.
Qed.

Lemma wrap64_small (z : Z) : - 2 ^ 63 <= z < 2 ^ 63 -> wrap64 z = z.
Proof. intros Hz. unfold wrap64. rewrite Z.mod_small; lia. Qed.

Lemma len_snoc {A} (l : list A) (x : A) : len (l ++ [x]) = len l + 1.
Proof. unfold len. rewrite length_app. simpl. lia. Qed.

Lemma len_nonneg {A} (l : list A) : 0 <= len l.
Proof. unfold len. lia. Qed.

Lemma filter_cons_bool {A} (f : A -> bool) (a : A) (l : list A) :
  filter (fun a => f a) (a :: l) =
  if f a then a :: filter (fun a => f a) l else filter (fun a => f a) l.
Proof.
  rewrite filter_cons. destruct (f a); [by rewrite decide_True|].
  by rewrite decide_False by (intros []).
Qed.

Lemma filter_snoc_bool {A} (f : A -> bool) (l : list A) (x : A) :
  filter (fun a => f a) (l ++ [x]) =
  if f x then filter (fun a => f a) l ++ [x] else filter (fun a => f a) l.
Proof.
  rewrite filter_app, filter_cons_bool, filter_nil.
  destruct (f x); [done|]. by rewrite app_nil_r.
Qed.

Lemma filter_disjoint_length {A} (f g : A -> bool) (l : list A) :
  (forall a, f a = true -> g a = false) ->
  len (filter (fun a => f a) l) + len (filter (fun a => g a) l) <= len l.
Proof.
  intros Hfg. unfold len. induction l as [|a l IH]; [done|].
  rewrite !filter_cons_bool. specialize (Hfg a).
  destruct (f a), (g a); try (specialize (Hfg eq_refl); discriminate);
    cbn [length]; lia.
Qed.

(* ================================================================== *)
(** ** Running blocks *)

Section Running.
Context {R R' A B S : Type}.

Lemma bind_next (m : M R A) (k : A -> M R B) t a t1 :
  m t = (Next a, t1) -> bind m k t = k a t1.
Proof. intros Hm. unfold bind. by rewrite Hm. Qed.

Lemma func_bind_next (m : M R A) (k : A -> M R R) t a t1 :
  m t = (Next a, t1) -> func (R':=R') (bind m k) t = func (k a) t1.
Proof. intros Hm. unfold func, bind. by rewrite Hm. Qed.

Lemma func_bind_return (m : M R A) (k : A -> M R R) t r t1 :
  m t = (Return r, t1) -> func (R':=R') (bind m k) t = (Next r, t1).
Proof. intros Hm. unfold func, bind. by rewrite Hm. Qed.

(** A loop whose body neither stops nor looks at the trace issues the
    calls of its rounds in order. *)
Lemma forEach_calls (body : A -> M R unit) (calls : A -> list Call) :
  (forall x t, body x t = (Next tt, t ++ calls x)) ->
  forall l t, forEach l body t = (Next tt, t ++ (l ≫= calls)).
Proof.
  intros Hbody l. induction l as [|x l IH]; intros t; simpl.
  - unfold pure. by rewrite app_nil_r.
  - unfold bind. rewrite Hbody, IH. by rewrite <- app_assoc.
Qed.

(** A loop whose body issues no call and does not stop keeps an
    invariant of the elements seen and the variables. *)
Lemma forEachWith_invariant (Inv : list A -> S -> Prop)
    (body : S -> A -> M R S) (l : list A) (s0 : S) (t : list Call) :
  Inv [] s0 ->
  (forall seen x s, x ∈ l -> Inv seen s ->
     exists s', body s x t = (Next s', t) /\ Inv (seen ++ [x]) s') ->
  exists s, forEachWith l s0 body t = (Next s, t) /\ Inv l s.
Proof.
  intros H0 Hstep.
  cut (forall rest seen s, Inv seen s -> (forall x, x ∈ rest -> x ∈ l) ->
         exists s', forEachWith rest s body t = (Next s', t) /\
                    Inv (seen ++ rest) s').
  { intros Hcut. destruct (Hcut l [] s0 H0 (fun _ Hx => Hx)) as (s & ? & ?).
    eauto. }
  induction rest as [|x rest IH]; intros seen s Hinv Hsub; simpl.
  - exists s. by rewrite app_nil_r.
  - destruct (Hstep seen x s) as (s' & Hbody & Hinv');
      [apply Hsub; left|done|].
    unfold bind. rewrite Hbody.
    destruct (IH (seen ++ [x]) s' Hinv') as (s'' & Hrun & Hinv'').
    { intros y Hy. apply Hsub. by right. }
    exists s''. by rewrite <- app_assoc in Hinv''.
Qed.
End Running.

(* ================================================================== *)
(** ** The calls that a block issues *)

#[global] Instance Forall_sequential (P : Call -> Prop)
  : Sequential (Forall P).
Proof. split; [constructor|]. intros. by apply Forall_app. Qed.

Section Traces.
Context {R : Type} (Q : list Call -> Prop) `{!Sequential Q}.

Lemma traces_pure {A} (a : A) : traces (R:=R) Q (pure a).
Proof.
  intros t. exists (Next a), []. rewrite app_nil_r.
  split; [done|apply sequential_nil].
Qed.

Lemma traces_return {A} (r : R) : traces (A:=A) Q (return_ r).
Proof.
  intros t. exists (Return r), []. rewrite app_nil_r.
  split; [done|apply sequential_nil].
Qed.

Lemma traces_panic {A} : traces (R:=R) (A:=A) Q panic.
Proof.
  intros t. exists Panic, []. rewrite app_nil_r.
  split; [done|apply sequential_nil].
Qed.

Lemma traces_bind {A B} (m : M R A) (k : A -> M R B) :
  traces Q m -> (forall a, traces Q (k a)) -> traces Q (bind m k).
Proof.
  intros Hm Hk t. unfold bind.
  destruct (Hm t) as (o & c1 & -> & H1).
  destruct o as [a|r|].
  - destruct (Hk a (t ++ c1)) as (o' & c2 & -> & H2).
    exists o', (c1 ++ c2). rewrite app_assoc. split; [done|].
    by apply sequential_app.
  - by exists (Return r), c1.
  - by exists Panic, c1.
Qed.

Lemma traces_func {R'} (body : M R R) :
  traces Q body -> traces (R:=R') Q (func body).
Proof.
  intros Hb t. unfold func. destruct (Hb t) as (o & c & -> & Hc).
  destruct o; eauto.
Qed.

Lemma traces_deferred {A} (cleanup : M R unit) (body : M R A) :
  traces Q cleanup -> traces Q body -> traces Q (deferred cleanup body).
Proof.
  intros Hc Hb t. unfold deferred.
  destruct (Hb t) as (o & c1 & -> & H1).
  destruct (Hc (t ++ c1)) as (o' & c2 & Heq & H2).
  exists o, (c1 ++ c2). rewrite Heq, app_assoc. split; [done|].
  by apply sequential_app.
Qed.

Lemma traces_deref {A} (p : option A) : traces (R:=R) Q (deref p).
Proof. destruct p; [apply traces_pure|apply traces_panic]. Qed.

Lemma traces_first {A} (s : list A) : traces (R:=R) Q (first s).
Proof. destruct s; [apply traces_panic|apply traces_pure]. Qed.

Lemma traces_forEach {A} (l : list A) (body : A -> M R unit) :
  (forall x, traces Q (body x)) -> traces Q (forEach l body).
Proof.
  intros Hb. induction l as [|x l IH]; simpl.
  - apply traces_pure.
  - apply traces_bind; [apply Hb|]. intros _. apply IH.
Qed.

Lemma traces_forEachWith {A S} (l : list A) (s : S)
    (body : S -> A -> M R S) :
  (forall s x, traces Q (body s x)) -> traces Q (forEachWith l s body).
Proof.
  intros Hb. revert s. induction l as [|x l IH]; intros s; simpl.
  - apply traces_pure.
  - apply traces_bind; [apply Hb|]. intros s'. apply IH.
Qed.

(** A call, and a question to the environment that is no call. *)
Lemma traces_call {A} (answer : list Call -> A) (c : Call) :
  Q [c] -> traces (R:=R) Q (fun t => (Next (answer t), t ++ [c])).
Proof. intros Hc t. by exists (Next (answer t)), [c]. Qed.

Lemma traces_question {A} (answer : list Call -> A) :
  traces (R:=R) Q (fun t => (Next (answer t), t)).
Proof.
  intros t. exists (Next (answer t)), []. rewrite app_nil_r.
  split; [done|apply sequential_nil].
Qed.
End Traces.

#[global] Instance deletionBeforeUpdate_sequential
  : Sequential deletionBeforeUpdate.
Proof.
  split.
  - intros i c Hi. by rewrite lookup_nil in Hi.
  - intros c1 c2 H1 H2 i c Hi.
    apply lookup_app_Some in Hi as [Hi|[Hlen Hi]].
    + destruct (H1 i c Hi) as (j & secret & -> & Hj).
      exists j, secret. split; [done|]. by apply lookup_app_l_Some.
    + destruct (H2 _ c Hi) as (j & secret & Hij & Hj).
      exists (length c1 + j)%nat, secret. split; [lia|].
      rewrite lookup_app_r by lia.
      by replace (length c1 + j - length c1)%nat with j by lia.
Qed.

Lemma deletionBeforeUpdate_singleton (c : Call) :
  (forall certificate, c <> CUpdate (OCertificate certificate)) ->
  deletionBeforeUpdate [c].
Proof.
  intros Hc [|i] certificate Hi; [|done].
  injection Hi as ->. by destruct (Hc certificate).
Qed.

Ltac traces_step :=
  first
    [ apply traces_pure; exact _
    | apply traces_return; exact _
    | apply traces_panic; exact _
    | apply traces_deref; exact _
    | apply traces_first; exact _
    | apply traces_func
    | apply traces_deferred; [exact _| |]
    | apply traces_bind; [exact _| |intros ?]
    | apply traces_forEach; [exact _|intros ?]
    | apply traces_forEachWith; [exact _|intros ? ?]
    | apply traces_question; exact _
    | progress cbv beta zeta
    | match goal with
      | |- traces _ (match ?x with _ => _ end) => destruct x
      end ].

Ltac issues_step :=
  first
    [ progress unfold issues
    | apply traces_call; [apply Forall_singleton]
    | traces_step ].

(* ================================================================== *)
(** ** The cleanup of orphaned claims *)

Section Storage.
Context {env : Environment} {settings : Settings}
        {collaborators : Collaborators}.

(** What [cleanupOrphanPVCs] does, case by case. *)
Lemma cleanupOrphanPVCs_run {R} (cloud : SolrCloud)
    (pvcLabelSelector : gmap string string) (t : list Call) :
  cleanupOrphanPVCs (R:=R) cloud pvcLabelSelector t =
  if ReadyReplicas (Status cloud) =? status_Replicas (Status cloud) then
    let t1 := t ++ [CList KPersistentVolumeClaim (Namespace cloud)
                      pvcLabelSelector] in
    match list_PersistentVolumeClaims t (Namespace cloud)
            pvcLabelSelector with
    | inr err => (Next (Some err), t1)
    | inl items =>
        match Replicas (Spec cloud) with
        | None => (Panic, t1)
        | Some replicas =>
            (Next None,
             if len items >? replicas
             then t1 ++ orphanDeletions replicas items else t1)
        end
    end
  else (Next None, t).
Proof.
  cbv [cleanupOrphanPVCs getPVCList func bind return_ pure deref panic
       List_PersistentVolumeClaims].
  destruct (_ =? _); [|reflexivity].
  destruct (list_PersistentVolumeClaims t _ _) as [items|err];
    [|reflexivity].
  destruct (Replicas (Spec cloud)) as [replicas|]; [|reflexivity].
  destruct (len items >? replicas); [|reflexivity].
  erewrite forEach_calls; [reflexivity|].
  intros claim t0. cbv beta.
  destruct (IsPVCOrphan _ _); [reflexivity|]. by rewrite app_nil_r.
Qed.

Lemma elem_of_orphanDeletions (replicas : Z)
    (items : list PersistentVolumeClaim) (c : Call) :
  c ∈ orphanDeletions replicas items <->
  exists claim, claim ∈ items /\
                IsPVCOrphan (pvc_Name claim) replicas = true /\
                c = claimDeletion claim.
Proof.
  unfold orphanDeletions. rewrite list_elem_of_bind. split.
  - intros (claim & Hc & Hclaim).
    destruct (IsPVCOrphan _ _) eqn:Horphan.
    + apply list_elem_of_singleton in Hc. eauto.
    + by apply not_elem_of_nil in Hc.
  - intros (claim & Hin & Horphan & ->).
    exists claim. rewrite Horphan.
    split; [by apply list_elem_of_singleton|done].
Qed.

Lemma IsPVCOrphan_ordinal (name : string) (replicas : Z) :
  IsPVCOrphan name replicas = true <->
  exists i, ordinalIndex name = Some i /\ replicas <= i.
Proof.
  unfold IsPVCOrphan. destruct (ordinalIndex name) as [i|].
  - rewrite Z.leb_le. split; [eauto|]. by intros (j & [= ->] & ?).
  - split; [done|]. by intros (j & ? & ?).
Qed.

(** With persistent storage to delete and an object that is not being
    deleted, the storage finalizer puts the finalizer in place when it is
    missing and runs the cleanup. *)
Lemma reconcileStorageFinalizer_cleanup {R} (cloud : SolrCloud)
    (pvcLabelSelector : gmap string string) (t : list Call) :
  deletesStorage cloud = true ->
  IsZero (DeletionTimestamp cloud) = true ->
  Forall (fun c => write_error t c = None) (finalizerAddition cloud) ->
  reconcileStorageFinalizer (R:=R) cloud pvcLabelSelector t =
  let (o, t') :=
    cleanupOrphanPVCs (R:=SolrCloud * option error)
      (withStorageFinalizer cloud) pvcLabelSelector
      (t ++ finalizerAddition cloud) in
  (match o with
   | Next err => Next (withStorageFinalizer cloud, err)
   | Return r => Next r
   | Panic => Panic
   end, t').
Proof.
  intros Hdeletes Hzero Hadded.
  unfold reconcileStorageFinalizer, func at 1. rewrite Hdeletes, Hzero.
  unfold finalizerAddition, withStorageFinalizer in *.
  destruct (ContainsString _ _).
  - cbv [bind pure negb return_]. rewrite app_nil_r.
    by destruct (cleanupOrphanPVCs _ _ _) as [[] ?].
  - apply Forall_cons in Hadded as [Hadded _].
    cbv [bind pure negb return_ Update write]. rewrite Hadded.
    by destruct (cleanupOrphanPVCs _ _ _) as [[] ?].
Qed.

(** C1, as amended.  In a pass in which persistent storage with the
    reclaim policy Delete is configured, the object is not being deleted,
    the finalizer is in place or is put in place without error, and the
    claims are listed without error, the storage finalizer deletes a
    listed claim if and only if the ready-replica count of the status
    equals its replica count, the claims listed are more than the
    desired replicas, and the ordinal index of the claim is at least the
    desired replica count.  It deletes nothing else. *)
Theorem orphan_claims_deleted_iff {R} (cloud : SolrCloud)
    (pvcLabelSelector : gmap string string) (t : list Call) (replicas : Z)
    (items : list PersistentVolumeClaim) :
  deletesStorage cloud = true ->
  IsZero (DeletionTimestamp cloud) = true ->
  Forall (fun c => write_error t c = None) (finalizerAddition cloud) ->
  Replicas (Spec cloud) = Some replicas ->
  list_PersistentVolumeClaims (t ++ finalizerAddition cloud)
    (Namespace cloud) pvcLabelSelector = inl items ->
  exists calls,
    reconcileStorageFinalizer (R:=R) cloud pvcLabelSelector t =
      (Next (withStorageFinalizer cloud, None),
       (t ++ finalizerAddition cloud) ++ calls) /\
    (forall o uid, CDelete o uid ∈ calls ->
       exists claim, claim ∈ items /\ CDelete o uid = claimDeletion claim) /\
    (forall claim, claim ∈ items ->
       (claimDeletion claim ∈ calls <->
        ReadyReplicas (Status cloud) = status_Replicas (Status cloud) /\
        replicas < len items /\
        exists i, ordinalIndex (pvc_Name claim) = Some i /\ replicas <= i)).
Proof.
  intros Hdeletes Hzero Hadded Hreplicas Hlist.
  rewrite reconcileStorageFinalizer_cleanup, cleanupOrphanPVCs_run by done.
  assert (Hsame : Status (withStorageFinalizer cloud) = Status cloud
                  /\ Spec (withStorageFinalizer cloud) = Spec cloud
                  /\ Namespace (withStorageFinalizer cloud) = Namespace cloud).
  { unfold withStorageFinalizer. by destruct (ContainsString _ _). }
  destruct Hsame as (-> & -> & ->). rewrite Hlist, Hreplicas.
  set (listing := CList KPersistentVolumeClaim (Namespace cloud)
                    pvcLabelSelector).
  destruct (ReadyReplicas (Status cloud) =? status_Replicas (Status cloud))
    eqn:Hready.
  - apply Z.eqb_eq in Hready. cbv zeta.
    destruct (len items >? replicas) eqn:Hmore.
    + apply Z.gtb_lt in Hmore.
      exists (listing :: orphanDeletions replicas items).
      split; [by rewrite <- !app_assoc|]. split.
      * intros o uid [Heq|Hin]%elem_of_cons; [done|].
        apply elem_of_orphanDeletions in Hin as (claim & ? & ? & ?). eauto.
      * intros claim Hclaim. rewrite elem_of_cons, elem_of_orphanDeletions.
        rewrite <- IsPVCOrphan_ordinal. split.
        -- intros [?|(claim' & _ & Horphan & Heq)]; [done|].
           injection Heq as Hname _. by rewrite Hname.
        -- intros (_ & _ & Horphan). right. eauto.
    + rewrite Z.gtb_ltb in Hmore. apply Z.ltb_ge in Hmore.
      exists [listing]. split; [done|]. split.
      * intros o uid [?|Hin]%elem_of_cons; [done|].
        by apply not_elem_of_nil in Hin.
      * intros claim _. split.
        -- intros [?|Hin]%elem_of_cons; [done|].
           by apply not_elem_of_nil in Hin.
        -- lia.
  - apply Z.eqb_neq in Hready. exists []. split; [by rewrite app_nil_r|].
    split.
    + intros o uid Hin. by apply not_elem_of_nil in Hin.
    + intros claim _. split; [intros Hin; by apply not_elem_of_nil in Hin|].
      by intros [? _].
Qed.
End Storage.

(* ================================================================== *)
(** ** The ZooKeeper resolver *)

Section Zookeeper.
Context {env : Environment} {settings : Settings}
        {collaborators : Collaborators}.

(** C8.  [reconcileZk] fails with a bad-request error of its own, and
    issues no call, in two cases: no connection information and no
    ZooKeeper to provide; a ZooKeeper to provide while the use of the
    ZooKeeper CRD is switched off.  With connection information it copies
    the information into the new status and fails in no way.  In the
    remaining case, a ZooKeeper to provide with the CRD switched on, an
    error that it returns is the one of [SetControllerReference] or the
    one with which the API answered its last call. *)
Theorem reconcileZk_configuration_errors {R} (instance : SolrCloud)
    (newStatus : SolrCloudStatus) (t : list Call) :
  let zkRef := ZookeeperRef_ (Spec instance) in
  (forall info, ConnectionInfo zkRef = Some info ->
     reconcileZk (R:=R) instance newStatus t =
       (Next (set_ZookeeperConnectionInfo info newStatus, None), t)) /\
  (ConnectionInfo zkRef = None -> ProvidedZookeeper zkRef = None ->
     reconcileZk (R:=R) instance newStatus t =
       (Next (newStatus,
              Some (NewBadRequest
                      "No Zookeeper reference information provided.")),
        t)) /\
  (forall pzk, ConnectionInfo zkRef = None ->
     ProvidedZookeeper zkRef = Some pzk -> useZkCRD = false ->
     reconcileZk (R:=R) instance newStatus t =
       (Next (newStatus,
              Some (NewBadRequest
                      "Cannot create a Zookeeper Cluster, as the Solr Operator is not configured to use the Zookeeper CRD")),
        t)) /\
  (forall pzk, ConnectionInfo zkRef = None ->
     ProvidedZookeeper zkRef = Some pzk -> useZkCRD = true ->
     exists o calls,
       reconcileZk (R:=R) instance newStatus t = (o, t ++ calls) /\
       forall status err, o = Next (status, Some err) ->
         SetControllerReference_ZookeeperCluster instance
           (GenerateZookeeperCluster instance pzk) = inr err \/
         exists before c,
           calls = before ++ [c] /\ answeredWithError (t ++ before) c err).
Proof.
  intros zkRef. subst zkRef. unfold reconcileZk. repeat split.
  - intros info ->. reflexivity.
  - intros -> ->. reflexivity.
  - intros pzk -> -> ->. reflexivity.
  - intros pzk -> -> ->.
    cbv [negb func bind pure return_ Get_ZookeeperCluster Create Update
         write makeStrings panic].
    destruct (SetControllerReference_ZookeeperCluster _ _)
      as [zkCluster|refErr].
    2:{ exists (Next (newStatus, Some refErr)), []. rewrite app_nil_r.
        split; [done|]. intros ? ? [= _ ->]. by left. }
    destruct (get_ZookeeperCluster t _) as [found|getErr] eqn:Hget.
    + destruct (CopyZookeeperClusterFields zkCluster found)
        as [changed found'].
      destruct changed, (zk_Replicas zkCluster <? 0).
      * eexists Panic, [_; _]. rewrite <- app_assoc. split; [done|]. done.
      * eexists _, [_; _]. rewrite <- app_assoc. split; [reflexivity|].
        intros ? ? [= _ Herr]. right.
        eexists [_], _. split; [reflexivity|]. exact Herr.
      * eexists Panic, [_]. split; [done|]. done.
      * eexists _, [_]. split; [reflexivity|]. intros ? ? Heq.
        discriminate Heq.
    + destruct (IsNotFound getErr).
      * eexists _, [_; _]. rewrite <- app_assoc. split; [reflexivity|].
        intros ? ? [= _ Herr]. right.
        eexists [_], _. split; [reflexivity|]. exact Herr.
      * eexists _, [_]. split; [reflexivity|].
        intros ? ? [= _ <-]. right.
        exists [], (CGet KZookeeperCluster
                      {| nn_Name := zk_Name zkCluster;
                         nn_Namespace := zk_Namespace zkCluster |}).
        split; [reflexivity|]. rewrite app_nil_r. exact Hget.
Qed.
End Zookeeper.

(* ================================================================== *)
(** ** The TLS certificate coordinator *)

Section Certificates.
Context {env : Environment} {settings : Settings}
        {collaborators : Collaborators}.


(** When the fields do not differ, no Certificate is written. *)
Lemma unchanged_certificate_not_updated {R} (instance : SolrCloud)
    (cert foundCert sameCert : Certificate) (foundTLSSecret : Secret)
    (t : list Call) :
  CopyCreateCertificateFields cert foundCert = (false, sameCert) ->
  exists o calls,
    afterCertificateReady (R:=R) instance cert foundCert foundTLSSecret t =
      (o, t ++ calls) /\
    forall c, CUpdate (OCertificate c) ∉ calls.
Proof.
  intros Hcopy. unfold afterCertificateReady. rewrite Hcopy.
  cbv [func bind pure return_ Update write].
  destruct (len _ =? 0).
  - destruct (SetControllerReference_Secret _ _) as [owned|refErr].
    + destruct (write_error t _); (eexists _, [_]; split; [reflexivity|]);
        intros c [?|Hin]%elem_of_cons; try done;
        by apply not_elem_of_nil in Hin.
    + eexists _, []. rewrite app_nil_r. split; [reflexivity|].
      intros c Hin. by apply not_elem_of_nil in Hin.
  - eexists _, []. rewrite app_nil_r. split; [reflexivity|].
    intros c Hin. by apply not_elem_of_nil in Hin.
Qed.

(** Whatever the fields, [afterCertificateReady] updates a Certificate
    only right after the deletion of a secret. *)
Lemma afterCertificateReady_deletionBeforeUpdate {R} (instance : SolrCloud)
    (cert foundCert : Certificate) (foundTLSSecret : Secret) :
  traces (R:=R) deletionBeforeUpdate
    (afterCertificateReady instance cert foundCert foundTLSSecret).
Proof.
  intros t. unfold afterCertificateReady.
  destruct (CopyCreateCertificateFields cert foundCert)
    as [changed changedCert] eqn:Hcopy.
  destruct changed.
  - cbv [func bind pure return_ Delete Update write].
    set (deletion := CDelete (OSecret foundTLSSecret) None).
    set (update := CUpdate (OCertificate changedCert)).
    destruct (write_error t deletion).
    + eexists _, [deletion]. split; [done|].
      by apply deletionBeforeUpdate_singleton.
    + exists (Next (false, write_error (t ++ [deletion]) update)),
        [deletion; update].
      rewrite <- app_assoc. split.
      * by destruct (write_error (t ++ [deletion]) update).
      * intros [|[|i]] c Hi; try done. by exists 0%nat, foundTLSSecret.
  - apply traces_func; repeat traces_step.
    apply traces_call. by apply deletionBeforeUpdate_singleton.
Qed.
End Certificates.

(* ================================================================== *)
(** ** The status aggregator *)

Section StatusAggregator.
Context {env : Environment} {settings : Settings}
        {collaborators : Collaborators}.

Lemma statusLoopBody_invariant {R} (solrCloud : SolrCloud)
    (updateRevision : string) (seen : list Pod) (s : StatusLoop) (p : Pod)
    (t : list Call) :
  (pod_ContainerStatuses p <> [] -> pod_Containers p <> []) ->
  loopInvariant solrCloud updateRevision seen s ->
  exists s',
    statusLoopBody (R:=R) solrCloud updateRevision s p t = (Next s', t) /\
    loopInvariant solrCloud updateRevision (seen ++ [p]) s'.
Proof.
  intros Hcontainers (Hready & Hothers & HnotStarted & Hstarted).
  set (tag := SolrImage_Tag (Spec solrCloud)).
  assert (Hversion : exists version,
    (if len (pod_ContainerStatuses p) >? 0 then
       let* solr := first (pod_Containers p) in
       let version := ImageVersion (container_Image solr) in
       if negb (String.eqb version tag)
       then pure (version, otherVersions s ++ [version])
       else pure (version, otherVersions s)
     else pure ("", otherVersions s)) t =
    (Next (R:=R) (version,
           if runsOtherVersion tag p
           then otherVersions s ++ [podVersion p] else otherVersions s), t)).
  { unfold runsOtherVersion, podVersion.
    destruct (len (pod_ContainerStatuses p) >? 0) eqn:Hlen; [|by eexists].
    destruct (pod_Containers p) as [|solr rest].
    { exfalso. apply Hcontainers; [|done]. intros Hnil.
      by rewrite Hnil in Hlen. }
    cbv [bind first pure]. cbn [andb].
    by destruct (negb _); eexists. }
  destruct Hversion as (version & Hversion).
  unfold statusLoopBody. erewrite bind_next; [|exact Hversion].
  eexists. split; [reflexivity|].
  unfold loopInvariant. fold tag.
  cbn [loop_ReadyReplicas otherVersions outOfDatePodsNotStarted
       outOfDatePods].
  rewrite !filter_snoc_bool, Hready, Hothers, HnotStarted, Hstarted.
  unfold outOfDateNotStarted, outOfDateStarted.
  repeat split.
  - destruct (podReady p); [|done]. by rewrite len_snoc, wrap32_succ.
  - destruct (runsOtherVersion tag p); [|done]. by rewrite fmap_app.
  - by destruct (specUpToDate updateRevision p), (containerNotStarted p).
  - by destruct (specUpToDate updateRevision p), (containerNotStarted p).
Qed.

(** What [reconcileCloudStatus] computes from the pods that the list call
    returns. *)
Lemma reconcileCloudStatus_run {R} (solrCloud : SolrCloud)
    (newStatus : SolrCloudStatus) (statefulSetStatus : StatefulSetStatus)
    (t : list Call) (pods : list Pod) (replicas : Z) :
  list_Pods t (Namespace solrCloud) (podSelector solrCloud) = inl pods ->
  Replicas (Spec solrCloud) = Some replicas ->
  wellFormedPods pods ->
  exists status,
    reconcileCloudStatus (R:=R) solrCloud newStatus statefulSetStatus t =
      (Next status,
       t ++ [CList KPod (Namespace solrCloud) (podSelector solrCloud)]) /\
    cs_err status = None /\
    status_Replicas (cs_newStatus status) = sts_Replicas statefulSetStatus /\
    ReadyReplicas (cs_newStatus status) =
      wrap32 (len (filter (fun p => podReady p) pods)) /\
    (let tag := SolrImage_Tag (Spec solrCloud) in
     match filter (fun p => runsOtherVersion tag p) pods with
     | p :: _ =>
         TargetVersion (cs_newStatus status) = tag /\
         Version (cs_newStatus status) = podVersion p
     | [] =>
         TargetVersion (cs_newStatus status) = "" /\
         Version (cs_newStatus status) = tag
     end) /\
    cs_outOfDatePodsNotStarted status =
      filter (fun p => outOfDateNotStarted
                         (sts_UpdateRevision statefulSetStatus) p) pods /\
    cs_outOfDatePods status =
      filter (fun p => outOfDateStarted
                         (sts_UpdateRevision statefulSetStatus) p) pods.
Proof.
  intros Hlist Hreplicas Hpods.
  destruct (forEachWith_invariant (R:=CloudStatus)
              (loopInvariant solrCloud (sts_UpdateRevision statefulSetStatus))
              (statusLoopBody solrCloud
                 (sts_UpdateRevision statefulSetStatus))
              pods StatusLoop_start
              (t ++ [CList KPod (Namespace solrCloud)
                       (podSelector solrCloud)]))
    as (s & Hloop & Hready & Hothers & HnotStarted & Hstarted).
  { by repeat split. }
  { intros seen p s Hp Hinv. apply statusLoopBody_invariant; [|done].
    by apply Hpods. }
  unfold reconcileCloudStatus, List_Pods, func, bind at 1.
  fold (podSelector solrCloud). rewrite Hlist.
  unfold bind at 1. rewrite Hloop, Hreplicas.
  cbv [bind deref pure return_]. rewrite Hothers.
  destruct (filter (fun p => runsOtherVersion _ p) pods) as [|p others];
    cbn [fmap list_fmap];
    eexists; (split; [reflexivity|]);
    cbn [cs_err cs_newStatus status_Replicas ReadyReplicas TargetVersion
         Version cs_outOfDatePodsNotStarted cs_outOfDatePods]; done.
Qed.

(** C4, as amended.  The replica count of the new status is the one of
    the status of the StatefulSet.  The ready-replica count is not: it is
    the number of the pods observed that Kubernetes considers ready. *)
Theorem replicas_from_statefulSet_ready_from_pods {R} (solrCloud : SolrCloud)
    (newStatus : SolrCloudStatus) (statefulSetStatus : StatefulSetStatus)
    (t : list Call) (pods : list Pod) (replicas : Z) :
  list_Pods t (Namespace solrCloud) (podSelector solrCloud) = inl pods ->
  Replicas (Spec solrCloud) = Some replicas ->
  wellFormedPods pods ->
  exists status t',
    reconcileCloudStatus (R:=R) solrCloud newStatus statefulSetStatus t =
      (Next status, t') /\
    status_Replicas (cs_newStatus status) = sts_Replicas statefulSetStatus /\
    ReadyReplicas (cs_newStatus status) =
      wrap32 (len (filter (fun p => podReady p) pods)).
Proof.
  intros Hlist Hreplicas Hpods.
  destruct (reconcileCloudStatus_run (R:=R) solrCloud newStatus
              statefulSetStatus t pods replicas Hlist Hreplicas Hpods)
    as (status & Hrun & _ & Hcount & Hready & _).
  eauto.
Qed.

(** C5, as amended.  When a pod that reports a container status runs a
    version other than the desired tag, the target version of the new
    status is the tag and its version is that of the first such pod in
    the order in which the list call returned the pods.  When there is no
    such pod, the target version is empty and the version is the tag. *)
Theorem running_version_is_first_listed {R} (solrCloud : SolrCloud)
    (newStatus : SolrCloudStatus) (statefulSetStatus : StatefulSetStatus)
    (t : list Call) (pods : list Pod) (replicas : Z) :
  list_Pods t (Namespace solrCloud) (podSelector solrCloud) = inl pods ->
  Replicas (Spec solrCloud) = Some replicas ->
  wellFormedPods pods ->
  exists status t',
    reconcileCloudStatus (R:=R) solrCloud newStatus statefulSetStatus t =
      (Next status, t') /\
    let tag := SolrImage_Tag (Spec solrCloud) in
    match filter (fun p => runsOtherVersion tag p) pods with
    | p :: _ =>
        TargetVersion (cs_newStatus status) = tag /\
        Version (cs_newStatus status) = podVersion p
    | [] =>
        TargetVersion (cs_newStatus status) = "" /\
        Version (cs_newStatus status) = tag
    end.
Proof.
  intros Hlist Hreplicas Hpods.
  destruct (reconcileCloudStatus_run (R:=R) solrCloud newStatus
              statefulSetStatus t pods replicas Hlist Hreplicas Hpods)
    as (status & Hrun & _ & _ & _ & Hversion & _).
  eauto.
Qed.
End StatusAggregator.

(* ================================================================== *)
(** ** The managed update *)

Section ManagedUpdate.
Context {env : Environment} {settings : Settings}
        {collaborators : Collaborators}.

(** The deletions of the pods, and the error that the loop leaves: that
    of the deletion made last. *)
Lemma deletePods_run {R} (pods : list Pod) (err : option error)
    (t : list Call) :
  exists err',
    deletePods (R:=R) pods err t = (Next err', t ++ (podDeletion <$> pods)) /\
    ((pods = [] /\ err' = err) \/
     exists front p,
       pods = front ++ [p] /\
       err' = write_error (t ++ (podDeletion <$> front)) (podDeletion p)).
Proof.
  unfold deletePods. revert err t.
  induction pods as [|p pods IH]; intros err t; simpl.
  - exists err. rewrite app_nil_r. split; [done|]. by left.
  - erewrite bind_next; [|reflexivity].
    destruct (IH (write_error t (podDeletion p)) (t ++ [podDeletion p]))
      as (err' & Hrun & Hlast).
    exists err'. split.
    { etrans; [exact Hrun|]. by rewrite <- app_assoc. }
    right. destruct Hlast as [[-> ->]|(front & q & -> & ->)].
    + exists [], p. by rewrite app_nil_r.
    + exists (p :: front), q. by rewrite <- app_assoc.
Qed.

(** The deletions of the managed update, from the list of the pods:
    every out-of-date pod whose solr container has not started is
    deleted, whatever the update selector answers; an out-of-date pod
    whose container has started is deleted only if the selector has
    chosen it; and nothing else is called. *)
Lemma managedUpdate_deletes_unstarted (instance : SolrCloud)
    (newStatus : SolrCloudStatus) (statefulSetStatus : StatefulSetStatus)
    (requeueOrNot : Result) (t : list Call) (pods : list Pod)
    (replicas : Z) :
  String.eqb (UpdateStrategy_Method (Spec instance)) ManagedUpdate = true ->
  list_Pods t (Namespace instance) (podSelector instance) = inl pods ->
  Replicas (Spec instance) = Some replicas ->
  wellFormedPods pods ->
  len pods < 2 ^ 63 ->
  exists status t1 requeue calls,
    reconcileCloudStatus (R:=Returned) instance newStatus statefulSetStatus t
      = (Next status, t1) /\
    cs_err status = None /\
    Reconcile_managedUpdate instance (cs_newStatus status) requeueOrNot
      status t1 = (Next requeue, t1 ++ calls) /\
    let updateRevision := sts_UpdateRevision statefulSetStatus in
    let chosen :=
      fst (DeterminePodsSafeToUpdate t1 instance (cs_outOfDatePods status)
             replicas (ReadyReplicas (cs_newStatus status))
             (cs_availableUpdatedPodCount status)
             (len (cs_outOfDatePodsNotStarted status))) in
    (forall p, p ∈ pods -> outOfDateNotStarted updateRevision p = true ->
               podDeletion p ∈ calls) /\
    (forall p, p ∈ pods -> outOfDateStarted updateRevision p = true ->
               podDeletion p ∈ calls -> p ∈ chosen) /\
    (forall c, c ∈ calls -> exists p, c = podDeletion p).
Proof.
  intros Hmanaged Hlist Hreplicas Hpods Hlen.
  destruct (reconcileCloudStatus_run (R:=Returned) instance newStatus
              statefulSetStatus t pods replicas Hlist Hreplicas Hpods)
    as (status & Hrun & Herr & _ & _ & _ & HnotStarted & Hstarted).
  exists status,
    (t ++ [CList KPod (Namespace instance) (podSelector instance)]).
  set (t1 := t ++ _) in *.
  set (rev := sts_UpdateRevision statefulSetStatus) in *.
  unfold Reconcile_managedUpdate. rewrite Hreplicas, Hmanaged.
  cbv [bind deref pure askPodsSafeToUpdate]. cbn [andb].
  destruct (wrap64 _ >? 0) eqn:Hany; cbv beta iota.
  - destruct (DeterminePodsSafeToUpdate t1 instance _ replicas _ _ _)
      as [chosen retryLater].
    destruct (deletePods_run (R:=Returned)
                (cs_outOfDatePodsNotStarted status ++ chosen) None t1)
      as (err & Hdeleted & _).
    rewrite Hdeleted. eexists _, _. do 3 (split; [done|]). cbn [fst].
    repeat split.
    + intros p Hp Hthis. apply list_elem_of_fmap. exists p. split; [done|].
      apply elem_of_app. left. rewrite HnotStarted.
      apply list_elem_of_filter. split; [by rewrite Hthis|done].
    + intros p Hp Hthis (q & Heq & Hq)%list_elem_of_fmap.
      injection Heq as -> _.
      apply elem_of_app in Hq as [Hq|Hq]; [|done].
      rewrite HnotStarted in Hq. apply list_elem_of_filter in Hq as [Hq _].
      unfold outOfDateStarted, outOfDateNotStarted in *.
      by destruct (specUpToDate rev q), (containerNotStarted q).
    + intros c (q & -> & _)%list_elem_of_fmap. eauto.
  - exists requeueOrNot, []. rewrite app_nil_r. do 3 (split; [done|]).
    assert (Hnone : cs_outOfDatePodsNotStarted status = []).
    { rewrite Z.gtb_ltb in Hany. apply Z.ltb_ge in Hany.
      assert (Hsum : len (cs_outOfDatePods status)
                     + len (cs_outOfDatePodsNotStarted status) <= len pods).
      { rewrite HnotStarted, Hstarted. apply filter_disjoint_length.
        intros a. unfold outOfDateStarted, outOfDateNotStarted.
        by destruct (specUpToDate rev a), (containerNotStarted a). }
      pose proof (len_nonneg (cs_outOfDatePods status)).
      pose proof (len_nonneg (cs_outOfDatePodsNotStarted status)).
      rewrite wrap64_small in Hany by lia.
      destruct (cs_outOfDatePodsNotStarted status); [done|].
      unfold len in *. cbn [length] in *. lia. }
    repeat split.
    + intros p Hp Hthis. exfalso.
      assert (Hin : p ∈ cs_outOfDatePodsNotStarted status).
      { rewrite HnotStarted. apply list_elem_of_filter. by rewrite Hthis. }
      rewrite Hnone in Hin. by apply not_elem_of_nil in Hin.
    + intros p _ _ Hin. by apply not_elem_of_nil in Hin.
    + intros c Hin. by apply not_elem_of_nil in Hin.
Qed.

(** Lines 401-405 on their own: with a failed deletion in [err] or a
    request to retry later, the delay ends up positive and at most 15
    seconds, and a pending delay in that range is kept. *)
Lemma tightenRequeue_bounds (err : option error) (retryLater : bool)
    (requeueOrNot : Result) :
  err <> None \/ retryLater = true ->
  0 < RequeueAfter (tightenRequeue err retryLater requeueOrNot)
    <= Second * 15 /\
  (0 < RequeueAfter requeueOrNot <= Second * 15 ->
   tightenRequeue err retryLater requeueOrNot = requeueOrNot).
Proof.
  intros Hretry. unfold tightenRequeue.
  assert (bool_decide (err <> None) || retryLater = true) as ->.
  { destruct Hretry as [?| ->]; [by rewrite bool_decide_eq_true_2|].
    by rewrite orb_true_r. }
  destruct (RequeueAfter requeueOrNot <=? 0) eqn:Hle;
    destruct (RequeueAfter requeueOrNot >? Second * 15) eqn:Hgt;
    cbn [orb set_RequeueAfter RequeueAfter];
    rewrite ?Z.leb_le, ?Z.leb_gt, ?Z.gtb_ltb, ?Z.ltb_lt, ?Z.ltb_ge in *;
    unfold Second in *; split; try lia; try done.
Qed.

(** Without a failed last deletion and without a request to retry, the
    requeue decision stays as it was. *)
Lemma tightenRequeue_unchanged (requeueOrNot : Result) :
  tightenRequeue None false requeueOrNot = requeueOrNot.
Proof. reflexivity. Qed.
End ManagedUpdate.

(* ================================================================== *)
(** ** The pass *)

Section Pass.
Context {env : Environment} {settings : Settings}
        {collaborators : Collaborators}.

Lemma Reconcile_statefulSet_issues (P : Call -> Prop) (l : Locals) :
  (forall key, P (CGet KStatefulSet key)) ->
  (forall o, P (CCreate (OStatefulSet o))) ->
  (forall o, P (CUpdate (OStatefulSet o))) ->
  issues P (Reconcile_statefulSet l).
Proof.
  intros Hget Hcreate Hupdate. unfold Reconcile_statefulSet.
  repeat issues_step; first [apply Hget | apply Hcreate | apply Hupdate].
Qed.

(** When the reconciliation of the StatefulSet is blocked and the
    StatefulSet is not found, the step leaves no label. *)
Lemma blocked_and_not_found_leaves_no_selector (l : Locals)
    (t : list Call) (err : error) :
  let key := {| nn_Name := StatefulSetName (loc_instance l);
                nn_Namespace := Namespace (loc_instance l) |} in
  loc_blockReconciliationOfStatefulSet l = true ->
  get_StatefulSet t key = inr err ->
  IsNotFound err = true ->
  Reconcile_statefulSet l t =
    (Next (∅, StatefulSetStatus_zero), t ++ [CGet KStatefulSet key]).
Proof.
  intros key Hblocked Hget HnotFound.
  unfold Reconcile_statefulSet. rewrite Hblocked. cbn [negb].
  cbv [bind Get_StatefulSet]. fold key. rewrite Hget, HnotFound.
  reflexivity.
Qed.

(** Without a label to select the claims by, the pass leaves the storage
    alone from the StatefulSet step to its end. *)
Lemma no_selector_rest_of_pass {R} (l : Locals)
    (t t1 : list Call) (pvcLabelSelector : gmap string string)
    (statefulSetStatus : StatefulSetStatus) :
  Reconcile_statefulSet l t =
    (Next (pvcLabelSelector, statefulSetStatus), t1) ->
  size pvcLabelSelector = 0%nat ->
  exists o calls,
    Reconcile_from_StatefulSet (R:=R) l t = (o, t ++ calls) /\
    Forall (leavesStorageAlone (loc_instance l)) calls.
Proof.
  intros Hstep Hsize.
  destruct (Reconcile_statefulSet_issues
              (leavesStorageAlone (loc_instance l)) l) with (t := t)
    as (o1 & c1 & Hrun1 & Hc1); try done.
  rewrite Hstep in Hrun1. injection Hrun1 as _ ->.
  unfold Reconcile_from_StatefulSet.
  rewrite (func_bind_next _ _ _ _ _ Hstep). cbv beta iota zeta.
  erewrite func_bind_next;
    [|unfold Reconcile_storageFinalizer; rewrite Hsize; reflexivity].
  match goal with
  | |- exists o calls, func ?rest _ = _ /\ _ =>
      assert (Hrest : issues (R:=R) (leavesStorageAlone (loc_instance l))
                        (func rest))
  end.
  { unfold Reconcile_managedUpdate, Reconcile_ingress,
      Reconcile_statusWriteBack, reconcileCloudStatus, deletePods.
    repeat issues_step; done. }
  destruct (Hrest (t ++ c1)) as (o & c2 & Hrun & Hc2).
  exists o, (c1 ++ c2). rewrite app_assoc. split; [exact Hrun|].
  by apply Forall_app.
Qed.

(** An error of the storage finalizer ends the pass, with no error and
    with a requeue after ten seconds. *)
Lemma storage_finalizer_error_ends_pass {R} (l : Locals)
    (t t1 t2 : list Call) (pvcLabelSelector : gmap string string)
    (statefulSetStatus : StatefulSetStatus) (instance : SolrCloud)
    (err : error) :
  Reconcile_statefulSet l t =
    (Next (pvcLabelSelector, statefulSetStatus), t1) ->
  (0 < size pvcLabelSelector)%nat ->
  reconcileStorageFinalizer (R:=Returned) (loc_instance l)
    pvcLabelSelector t1 = (Next (instance, Some err), t2) ->
  Reconcile_from_StatefulSet (R:=R) l t =
    (Next ({| Requeue := false; RequeueAfter := Second * 10 |}, None), t2).
Proof.
  intros Hstep Hsize Hfinalizer.
  unfold Reconcile_from_StatefulSet.
  rewrite (func_bind_next _ _ _ _ _ Hstep). cbv beta iota zeta.
  apply func_bind_return.
  unfold Reconcile_storageFinalizer.
  destruct (Z.of_nat (size pvcLabelSelector) >? 0) eqn:Hlabels.
  - unfold bind. by rewrite Hfinalizer.
  - rewrite Z.gtb_ltb in Hlabels. apply Z.ltb_ge in Hlabels. lia.
Qed.

(** The blocks between the defaults and the StatefulSet work on
    services, ConfigMaps, ZooKeeper and TLS objects only. *)
Lemma Reconcile_resources_issues (instance : SolrCloud) :
  issues preparesResources (Reconcile_resources instance).
Proof.
  unfold Reconcile_resources, reconcileZk, Reconcile_service,
    Reconcile_nodeServices, reconcileNodeService, Reconcile_configMap,
    Reconcile_tls, reconcileAutoCreateTLS, isCertificateReady,
    afterCertificateReady, setUrlSchemeClusterProperty, makeStrings.
  repeat issues_step; done.
Qed.

(** A pass gets past the defaults only with an object that needed
    none, and then it has only read the object. *)
Lemma Reconcile_defaults_next (req : Request) (t t0 : list Call)
    (instance : SolrCloud) :
  Reconcile_defaults req t = (Next instance, t0) ->
  t0 = t ++ [CGet KSolrCloud (req_NamespacedName req)] /\
  exists found,
    get_SolrCloud t (req_NamespacedName req) = inl found /\
    WithDefaults found IngressBaseUrl = (false, instance).
Proof.
  cbv [Reconcile_defaults bind Get_SolrCloud Update write return_ pure].
  destruct (get_SolrCloud t _) as [found|err].
  - destruct (WithDefaults found IngressBaseUrl) as [[] instance'] eqn:Hd.
    + destruct (write_error _ _); discriminate.
    + intros [= <- <-]. eauto.
  - destruct (IsNotFound err); discriminate.
Qed.

Lemma Reconcile_front_next (req : Request) (t t0 : list Call) (l : Locals) :
  Reconcile_front req t = (Next l, t0) ->
  exists calls,
    t0 = t ++ CGet KSolrCloud (req_NamespacedName req) :: calls /\
    Forall preparesResources calls.
Proof.
  unfold Reconcile_front, bind.
  destruct (Reconcile_defaults req t) as [[instance|r|] t'] eqn:Hdefaults;
    try discriminate.
  apply Reconcile_defaults_next in Hdefaults as [-> _].
  destruct (Reconcile_resources_issues instance
              (t ++ [CGet KSolrCloud (req_NamespacedName req)]))
    as (o & calls & -> & Hcalls).
  intros [= -> <-]. exists calls. by rewrite <- app_assoc.
Qed.

(** [Reconcile] is its front followed by its rest. *)
Lemma Reconcile_after_front {R} (req : Request) (t t0 : list Call)
    (l : Locals) :
  Reconcile_front req t = (Next l, t0) ->
  Reconcile (R:=R) req t = Reconcile_from_StatefulSet (R:=R) l t0.
Proof.
  intros Hfront. unfold Reconcile.
  rewrite (func_bind_next _ _ _ _ _ Hfront).
  unfold Reconcile_from_StatefulSet, func.
  by repeat case_match; simplify_eq.
Qed.

Lemma Reconcile_front_return {R} (req : Request) (t t0 : list Call)
    (r : Returned) :
  Reconcile_front req t = (Return r, t0) ->
  Reconcile (R:=R) req t = (Next r, t0).
Proof. intros Hfront. by apply func_bind_return. Qed.

(** The front hands on the finalizers of the object. *)
Lemma Reconcile_tls_finalizers (instance instance' : SolrCloud)
    (requeueOrNot : Result) (newStatus newStatus' : SolrCloudStatus)
    (needs : bool) (t t' : list Call) :
  Reconcile_tls instance requeueOrNot newStatus t =
    (Next (instance', newStatus', needs), t') ->
  Finalizers instance' = Finalizers instance.
Proof.
  unfold Reconcile_tls, bind, return_, pure. intros Hrun.
  repeat case_match; simplify_eq; reflexivity.
Qed.

Lemma Reconcile_resources_finalizers (instance : SolrCloud) (l : Locals)
    (t t' : list Call) :
  Reconcile_resources instance t = (Next l, t') ->
  Finalizers (loc_instance l) = Finalizers instance.
Proof.
  unfold Reconcile_resources, bind, return_, pure. intros Hrun.
  repeat case_match; simplify_eq; simpl;
    eauto using Reconcile_tls_finalizers.
Qed.

(** An error of the ZooKeeper resolver ends the pass with that error and
    with no requeue of its own. *)
Lemma resolver_error_ends_pass {R} (req : Request) (instance : SolrCloud)
    (t t0 t1 : list Call) (status : SolrCloudStatus) (err : error) :
  Reconcile_defaults req t = (Next instance, t0) ->
  reconcileZk (R:=Returned) instance SolrCloudStatus_zero t0 =
    (Next (status, Some err), t1) ->
  Reconcile (R:=R) req t = (Next (Result_zero, Some err), t1).
Proof.
  intros Hdefaults Hzk. apply Reconcile_front_return.
  unfold Reconcile_front. rewrite (bind_next _ _ _ _ _ Hdefaults).
  unfold Reconcile_resources. cbv zeta.
  erewrite bind_next; [|exact Hzk]. reflexivity.
Qed.

(** C9.  In a pass in which the StatefulSet step leaves no label to
    select the claims by, the storage finalizer is not reconciled: from
    its first call to its last the pass lists and deletes no claim and
    does not update the object, and a status that it writes back carries
    the finalizers of the object, which are those of the object read. *)
Theorem no_selector_no_storage_finalizer {R} (req : Request) (l : Locals)
    (t t0 t1 : list Call) (pvcLabelSelector : gmap string string)
    (statefulSetStatus : StatefulSetStatus) :
  Reconcile_front req t = (Next l, t0) ->
  Reconcile_statefulSet l t0 =
    (Next (pvcLabelSelector, statefulSetStatus), t1) ->
  size pvcLabelSelector = 0%nat ->
  exists o calls,
    Reconcile (R:=R) req t = (o, t ++ calls) /\
    Forall (leavesStorageAlone (loc_instance l)) calls /\
    exists found,
      get_SolrCloud t (req_NamespacedName req) = inl found /\
      Finalizers (loc_instance l) =
        Finalizers (snd (WithDefaults found IngressBaseUrl)).
Proof.
  intros Hfront Hstep Hsize.
  destruct (Reconcile_front_next _ _ _ _ Hfront) as (c0 & -> & Hc0).
  destruct (no_selector_rest_of_pass (R:=R) l _ _ _ _ Hstep Hsize)
    as (o & c1 & Hrest & Hc1).
  exists o, (CGet KSolrCloud (req_NamespacedName req) :: c0 ++ c1).
  split; [|split].
  - rewrite (Reconcile_after_front _ _ _ _ Hfront), Hrest.
    by rewrite <- app_assoc.
  - constructor; [done|]. apply Forall_app. split; [|done].
    eapply Forall_impl; [exact Hc0|]. intros c Hc.
    destruct c as [[] ?|[] ? ?|[]|[]|[]|[] []| | | | | |]; done.
  - unfold Reconcile_front, bind in Hfront.
    destruct (Reconcile_defaults req t) as [[instance|r|] t'] eqn:Hdefaults;
      try discriminate.
    apply Reconcile_defaults_next in Hdefaults
      as (-> & found & Hget & Hwith).
    exists found. split; [done|]. rewrite Hwith.
    by eapply Reconcile_resources_finalizers.
Qed.

(** C10.  When the storage finalizer returns an error, [Reconcile]
    returns at once, with no error and with a requeue after ten
    seconds. *)
Theorem storage_finalizer_error_swallowed {R} (req : Request) (l : Locals)
    (t t0 t1 t2 : list Call) (pvcLabelSelector : gmap string string)
    (statefulSetStatus : StatefulSetStatus) (instance : SolrCloud)
    (err : error) :
  Reconcile_front req t = (Next l, t0) ->
  Reconcile_statefulSet l t0 =
    (Next (pvcLabelSelector, statefulSetStatus), t1) ->
  (0 < size pvcLabelSelector)%nat ->
  reconcileStorageFinalizer (R:=Returned) (loc_instance l)
    pvcLabelSelector t1 = (Next (instance, Some err), t2) ->
  Reconcile (R:=R) req t =
    (Next ({| Requeue := false; RequeueAfter := Second * 10 |}, None), t2).
Proof.
  intros Hfront Hstep Hsize Hfinalizer.
  rewrite (Reconcile_after_front _ _ _ _ Hfront).
  by eapply storage_finalizer_error_ends_pass.
Qed.

(** In every pass, a Certificate is updated only right after the deletion
    of a secret. *)
Lemma Reconcile_deletionBeforeUpdate {R} (req : Request) :
  traces (R:=R) deletionBeforeUpdate (Reconcile req).
Proof.
  unfold Reconcile, Reconcile_front, Reconcile_defaults,
    Reconcile_resources, reconcileZk, Reconcile_service,
    Reconcile_nodeServices, reconcileNodeService, Reconcile_configMap,
    Reconcile_tls, reconcileAutoCreateTLS, isCertificateReady,
    setUrlSchemeClusterProperty, makeStrings,
    Reconcile_from_StatefulSet, Reconcile_statefulSet,
    Reconcile_storageFinalizer, reconcileStorageFinalizer,
    cleanupOrphanPVCs, cleanUpAllPVCs, getPVCList, deletePVC,
    reconcileCloudStatus, statusLoopBody, Reconcile_managedUpdate,
    deletePods, Reconcile_ingress, Reconcile_statusWriteBack.
  repeat first
    [ apply afterCertificateReady_deletionBeforeUpdate
    | traces_step
    | apply traces_call; [by apply deletionBeforeUpdate_singleton] ].
Qed.

(** The write-back of the status: it is written if and only if the new
    status differs from the status of the object; equal statuses give no
    call. *)
Lemma statusWriteBack_iff_changed (instance : SolrCloud)
    (newStatus : SolrCloudStatus) (requeueOrNot : Result) (t : list Call) :
  let writeBack :=
    CStatusUpdate (OSolrCloud (set_Status newStatus instance)) in
  exists o calls,
    Reconcile_statusWriteBack instance newStatus requeueOrNot t =
      (o, t ++ calls) /\
    (Status instance = newStatus ->
       calls = [] /\ o = Return (requeueOrNot, None)) /\
    (Status instance <> newStatus ->
       calls = [writeBack] /\
       o = Return (requeueOrNot, write_error t writeBack)) /\
    ((exists obj, CStatusUpdate obj ∈ calls) <->
     Status instance <> newStatus).
Proof.
  intros writeBack. unfold Reconcile_statusWriteBack, DeepEqual.
  destruct (decide (Status instance = newStatus)) as [Hsame|Hchanged].
  - rewrite bool_decide_eq_true_2 by done.
    exists (Return (requeueOrNot, None)), []. rewrite app_nil_r.
    split; [reflexivity|]. split; [done|]. split; [done|].
    split; [|done]. intros (obj & Hin). by apply not_elem_of_nil in Hin.
  - rewrite bool_decide_eq_false_2 by done.
    exists (Return (requeueOrNot, write_error t writeBack)), [writeBack].
    split.
    { cbv [negb bind Status_Update write pure return_].
      fold writeBack. by destruct (write_error t writeBack). }
    split; [done|]. split; [done|].
    split; [done|]. intros _.
    exists (OSolrCloud (set_Status newStatus instance)).
    by apply list_elem_of_singleton.
Qed.
End Pass.

(* ================================================================== *)
(** ** The pass from its first call to its last *)

Section StatusPrefixes.
Context {R : Type}.

(** A block that writes no status, followed by one that writes the status
    last. *)
Lemma traces_bind_statusUpdateLast {A B} (m : M R A) (k : A -> M R B) :
  issues (fun c => isStatusUpdate c = false) m ->
  (forall a, traces statusUpdateLast (k a)) ->
  traces statusUpdateLast (bind m k).
Proof.
  intros Hm Hk t. unfold bind.
  destruct (Hm t) as (o & c1 & -> & H1).
  destruct o as [a|r|]; [|exists (Return r), c1; split; [done|by left]
                         |exists Panic, c1; split; [done|by left]].
  destruct (Hk a (t ++ c1)) as (o' & c2 & -> & H2).
  exists o', (c1 ++ c2). rewrite app_assoc. split; [done|].
  destruct H2 as [H2|(init & obj & -> & H2)].
  - left. by apply Forall_app.
  - right. exists (c1 ++ init), obj. rewrite app_assoc. split; [done|].
    by apply Forall_app.
Qed.

Lemma traces_func_statusUpdateLast {R'} (body : M R R) :
  traces statusUpdateLast body -> traces (R:=R') statusUpdateLast (func body).
Proof.
  intros Hb t. unfold func. destruct (Hb t) as (o & c & -> & Hc).
  destruct o; eauto.
Qed.
End StatusPrefixes.

Ltac unfold_pass :=
  unfold Reconcile, Reconcile_front, Reconcile_defaults,
    Reconcile_resources, reconcileZk, Reconcile_service,
    Reconcile_nodeServices, reconcileNodeService, Reconcile_configMap,
    Reconcile_tls, reconcileAutoCreateTLS, isCertificateReady,
    afterCertificateReady, setUrlSchemeClusterProperty, makeStrings,
    Reconcile_from_StatefulSet, Reconcile_statefulSet,
    Reconcile_storageFinalizer, reconcileStorageFinalizer,
    cleanupOrphanPVCs, cleanUpAllPVCs, getPVCList, deletePVC,
    reconcileCloudStatus, statusLoopBody, Reconcile_managedUpdate,
    deletePods, Reconcile_ingress, Reconcile_statusWriteBack.

Section PassCalls.
Context {env : Environment} {settings : Settings}
        {collaborators : Collaborators}.

(** When the object cannot be read, [Reconcile] ends after the read: with
    no error if the object is not found, and else with the error of the
    read. *)
Theorem Reconcile_object_unread {R} (req : Request) (t : list Call)
    (err : error) :
  get_SolrCloud t (req_NamespacedName req) = inr err ->
  Reconcile (R:=R) req t =
    (Next (Result_zero, if IsNotFound err then None else Some err),
     t ++ [CGet KSolrCloud (req_NamespacedName req)]).
Proof.
  intros Hget.
  cbv [Reconcile Reconcile_front Reconcile_defaults func bind Get_SolrCloud
       return_].
  rewrite Hget. by destruct (IsNotFound err).
Qed.

(** When the defaults change the object, [Reconcile] writes the object
    and does nothing else: it asks for an immediate requeue, or returns
    the error of the write. *)
Theorem Reconcile_defaults_written {R} (req : Request) (t : list Call)
    (found instance : SolrCloud) :
  get_SolrCloud t (req_NamespacedName req) = inl found ->
  WithDefaults found IngressBaseUrl = (true, instance) ->
  let read := CGet KSolrCloud (req_NamespacedName req) in
  let update := CUpdate (OSolrCloud instance) in
  Reconcile (R:=R) req t =
    (Next (match write_error (t ++ [read]) update with
           | Some err => (Result_zero, Some err)
           | None => ({| Requeue := true; RequeueAfter := 0 |}, None)
           end),
     t ++ [read; update]).
Proof.
  intros Hget Hdefaults read update.
  cbv [Reconcile Reconcile_front Reconcile_defaults func bind Get_SolrCloud
       Update write return_].
  rewrite Hget, Hdefaults. fold read update. rewrite <- app_assoc.
  by destruct (write_error (t ++ [read]) update).
Qed.

(** [Reconcile] deletes pods, claims and secrets only: a pod on the
    condition that its UID is the one read, a claim or a secret without
    condition. *)
Theorem Reconcile_deletes_with_care {R} (req : Request) :
  issues (R:=R) deletesWithCare (Reconcile req).
Proof. unfold_pass. repeat issues_step; done. Qed.

(** Every run of [Reconcile] adds its calls to those issued before. *)
Lemma Reconcile_extends {R} (req : Request) (t : list Call) :
  exists o calls, Reconcile (R:=R) req t = (o, t ++ calls).
Proof.
  assert (issues (R:=R) (fun _ => True) (Reconcile req)) as Hissues.
  { unfold_pass. repeat issues_step; done. }
  destruct (Hissues t) as (o & calls & Hrun & _). eauto.
Qed.
End PassCalls.

Ltac unfold_front :=
  unfold Reconcile_front, Reconcile_defaults,
    Reconcile_resources, reconcileZk, Reconcile_service,
    Reconcile_nodeServices, reconcileNodeService, Reconcile_configMap,
    Reconcile_tls, reconcileAutoCreateTLS, isCertificateReady,
    afterCertificateReady, setUrlSchemeClusterProperty, makeStrings.

Ltac unfold_rest :=
  unfold Reconcile_from_StatefulSet, Reconcile_statefulSet,
    Reconcile_storageFinalizer, reconcileStorageFinalizer,
    cleanupOrphanPVCs, cleanUpAllPVCs, getPVCList, deletePVC,
    reconcileCloudStatus, statusLoopBody, Reconcile_managedUpdate,
    deletePods, Reconcile_ingress.

Section PassStatus.
Context {env : Environment} {settings : Settings}
        {collaborators : Collaborators}.

Lemma Reconcile_statusWriteBack_last (instance : SolrCloud)
    (newStatus : SolrCloudStatus) (requeueOrNot : Result) :
  traces statusUpdateLast
    (Reconcile_statusWriteBack instance newStatus requeueOrNot).
Proof.
  intros t. unfold Reconcile_statusWriteBack.
  destruct (DeepEqual (Status instance) newStatus).
  - eexists _, []. rewrite app_nil_r. split; [reflexivity|]. by left.
  - cbv [negb bind Status_Update write pure return_].
    destruct (write_error t _);
      (eexists _, [_]; split; [reflexivity|]; right; by eexists [], _).
Qed.

(** [Reconcile] writes the status of the object at most once, and then
    as its last call. *)
Theorem Reconcile_status_written_last {R} (req : Request) (t : list Call) :
  exists o calls,
    Reconcile (R:=R) req t = (o, t ++ calls) /\
    forall before obj after,
      calls = before ++ CStatusUpdate obj :: after ->
      after = [] /\ Forall (fun c => isStatusUpdate c = false) before.
Proof.
  assert (Hpass : traces (R:=R) statusUpdateLast (Reconcile req)).
  { unfold Reconcile, Reconcile_from_StatefulSet.
    repeat first
      [ apply Reconcile_statusWriteBack_last
      | apply traces_func_statusUpdateLast
      | apply traces_bind_statusUpdateLast;
        [unfold_front; unfold_rest; repeat issues_step; done|intros ?]
      | progress cbv beta zeta
      | match goal with
        | |- traces _ (match ?x with _ => _ end) => destruct x
        end ]. }
  destruct (Hpass t) as (o & calls & Hrun & Hlast).
  exists o, calls. split; [done|]. intros before obj after ->.
  destruct Hlast as [Hnone|(init & obj' & Heq & Hinit)].
  - apply Forall_app in Hnone as [_ Hnone].
    by apply Forall_cons in Hnone as [? _].
  - destruct after as [|c after _] using rev_ind.
    + apply app_inj_tail in Heq as [<- _]. done.
    + exfalso. rewrite app_comm_cons, app_assoc in Heq.
      apply app_inj_tail in Heq as [<- _].
      apply Forall_app in Hinit as [_ Hinit].
      by apply Forall_cons in Hinit as [? _].
Qed.
End PassStatus.

Section PassOrder.
Context {env : Environment} {settings : Settings}
        {collaborators : Collaborators}.

Lemma Reconcile_tls_without_zookeeper (instance : SolrCloud)
    (requeueOrNot : Result) (newStatus : SolrCloudStatus) :
  SolrTLS (Spec instance) = None \/
  UrlSchemeClusterProperty (Status instance) = true ->
  issues (fun c => isZkCall c = false)
    (Reconcile_tls instance requeueOrNot newStatus).
Proof.
  intros Hoff. unfold Reconcile_tls.
  destruct (SolrTLS (Spec instance)) as [tls|]; [|repeat issues_step].
  destruct Hoff as [?|Hset]; [done|].
  unfold reconcileAutoCreateTLS, isCertificateReady, afterCertificateReady.
  assert (Hversion :
    UrlSchemeClusterProperty
      (Status (if RestartOnTLSSecretUpdate tls
               then set_TLSSecretVersion "" instance else instance)) = true).
  { by destruct (RestartOnTLSSecretUpdate tls). }
  repeat first
    [ progress cbn [UrlSchemeClusterProperty set_UrlSchemeClusterProperty
                    negb andb]
    | match goal with
      | |- context [UrlSchemeClusterProperty (Status
                      (if RestartOnTLSSecretUpdate tls then _ else _))] =>
          destruct (RestartOnTLSSecretUpdate tls);
          cbn [set_TLSSecretVersion Status]; rewrite Hset
      end
    | issues_step ]; done.
Qed.

Lemma Reconcile_defaults_issues (P : Call -> Prop) (req : Request) :
  (forall key, P (CGet KSolrCloud key)) ->
  (forall o, P (CUpdate (OSolrCloud o))) ->
  issues P (Reconcile_defaults req).
Proof.
  intros Hget Hupdate. unfold Reconcile_defaults.
  repeat issues_step; first [apply Hget|apply Hupdate].
Qed.

(** The pass after the defaults. *)
Lemma Reconcile_after_defaults {R} (req : Request) (t t0 : list Call)
    (instance : SolrCloud) :
  Reconcile_defaults req t = (Next instance, t0) ->
  Reconcile (R:=R) req t =
    func (let* l := Reconcile_resources instance in
          Reconcile_from_StatefulSet l) t0.
Proof.
  intros Hdefaults. unfold Reconcile, Reconcile_front, func, bind.
  by rewrite Hdefaults.
Qed.

Lemma Reconcile_defaults_stop {R} (req : Request) (t t0 : list Call) :
  (exists r, Reconcile_defaults req t = (Return r, t0)) \/
  Reconcile_defaults req t = (Panic, t0) ->
  exists o, Reconcile (R:=R) req t = (o, t0).
Proof.
  unfold Reconcile, Reconcile_front, func, bind.
  intros [[r ->]| ->]; eauto.
Qed.

(** [Reconcile] calls ZooKeeper only for an object that has TLS options
    and whose status does not yet record that the URL scheme of the
    cluster is set. *)
Theorem Reconcile_zookeeper_only_for_tls {R} (req : Request)
    (t : list Call) :
  exists o calls,
    Reconcile (R:=R) req t = (o, t ++ calls) /\
    (Forall (fun c => isZkCall c = false) calls \/
     exists found instance tls,
       get_SolrCloud t (req_NamespacedName req) = inl found /\
       WithDefaults found IngressBaseUrl = (false, instance) /\
       SolrTLS (Spec instance) = Some tls /\
       UrlSchemeClusterProperty (Status instance) = false).
Proof.
  destruct (Reconcile_defaults_issues (fun c => isZkCall c = false) req)
    with (t := t) as (o0 & c0 & Hdefaults & Hc0); [done..|].
  destruct o0 as [instance|r|].
  - destruct (Reconcile_defaults_next _ _ _ _ Hdefaults)
      as (_ & found & Hget & Hwith).
    destruct (SolrTLS (Spec instance)) as [tls|] eqn:Htls;
      [destruct (UrlSchemeClusterProperty (Status instance)) eqn:Hset|].
    2:{ destruct (Reconcile_extends (R:=R) req t)
          as (o & calls & Hrun).
        exists o, calls. split; [done|]. right. by exists found, instance, tls. }
    all: rewrite (Reconcile_after_defaults _ _ _ _ Hdefaults);
      match goal with
      | |- exists o calls, ?m _ = _ /\ _ =>
          assert (Hrest : issues (R:=R) (fun c => isZkCall c = false) m)
      end;
      [ unfold Reconcile_resources, reconcileZk, Reconcile_service,
          Reconcile_nodeServices, reconcileNodeService, Reconcile_configMap,
          makeStrings;
        unfold_rest; unfold Reconcile_statusWriteBack;
        repeat first
          [ apply Reconcile_tls_without_zookeeper; by auto
          | issues_step ]; done
      | destruct (Hrest (t ++ c0)) as (o & c1 & Hrun & Hc1);
        exists o, (c0 ++ c1); rewrite app_assoc; split; [done|]; left;
        by apply Forall_app ].
  - destruct (Reconcile_defaults_stop (R:=R) req t (t ++ c0)) as [o Hrun];
      [by eauto|]. exists o, c0. split; [done|]. by left.
  - destruct (Reconcile_defaults_stop (R:=R) req t (t ++ c0)) as [o Hrun];
      [by eauto|]. exists o, c0. split; [done|]. by left.
Qed.

Lemma Reconcile_front_prepares (req : Request) :
  issues (fun c => touchesWorkload c = false) (Reconcile_front req).
Proof. unfold_front. repeat issues_step; done. Qed.

(** [Reconcile] reads or writes the StatefulSet, the pods, the claims,
    the Ingress and the status only in a pass in which every step before
    them went through: the object read needed no defaults, and
    ZooKeeper, the services, the ConfigMap and TLS were reconciled
    without an error and without a wait. *)
Theorem Reconcile_workload_after_preparation {R} (req : Request)
    (t : list Call) :
  exists o calls,
    Reconcile (R:=R) req t = (o, t ++ calls) /\
    (Forall (fun c => touchesWorkload c = false) calls \/
     exists l t0, Reconcile_front req t = (Next l, t0)).
Proof.
  destruct (Reconcile_front_prepares req t) as (o0 & c0 & Hfront & Hc0).
  destruct o0 as [l|r|].
  - destruct (Reconcile_extends (R:=R) req t)
      as (o & calls & Hrun).
    exists o, calls. split; [done|]. right. eauto.
  - exists (Next r), c0. split; [|by left].
    by apply Reconcile_front_return.
  - exists Panic, c0. split; [|by left].
    unfold Reconcile, func, bind. by rewrite Hfront.
Qed.

Lemma Reconcile_resources_blocks (instance : SolrCloud) (l : Locals)
    (t t' : list Call) :
  Reconcile_resources instance t = (Next l, t') ->
  strings_Contains (ZkConnectionString (loc_newStatus l)) ":" = false ->
  loc_blockReconciliationOfStatefulSet l = true.
Proof.
  unfold Reconcile_resources, bind, return_, pure. intros Hrun.
  repeat case_match; simplify_eq; simpl in *; intros Hport;
    first [done|by rewrite Hport in *].
Qed.

(** While the ZooKeeper connection string of the new status names no
    port, the pass neither creates nor updates the StatefulSet. *)
Theorem unresolved_zookeeper_blocks_statefulSet {R} (req : Request)
    (l : Locals) (t t0 : list Call) :
  Reconcile_front req t = (Next l, t0) ->
  strings_Contains (ZkConnectionString (loc_newStatus l)) ":" = false ->
  exists o calls,
    Reconcile (R:=R) req t = (o, t ++ calls) /\
    Forall (fun c => writesStatefulSet c = false) calls.
Proof.
  intros Hfront Hport.
  assert (Hblocked : loc_blockReconciliationOfStatefulSet l = true).
  { unfold Reconcile_front, bind in Hfront.
    destruct (Reconcile_defaults req t) as [[instance|r|] t1];
      try discriminate.
    by eapply Reconcile_resources_blocks. }
  destruct (Reconcile_front_next _ _ _ _ Hfront) as (c0 & -> & Hc0).
  rewrite (Reconcile_after_front _ _ _ _ Hfront).
  assert (Hrest : issues (R:=R) (fun c => writesStatefulSet c = false)
                    (Reconcile_from_StatefulSet l)).
  { unfold_rest. unfold Reconcile_statusWriteBack. rewrite Hblocked.
    cbn [negb]. repeat issues_step; done. }
  destruct (Hrest (t ++ CGet KSolrCloud (req_NamespacedName req) :: c0))
    as (o & c1 & Hrun & Hc1).
  exists o, ((CGet KSolrCloud (req_NamespacedName req) :: c0) ++ c1).
  rewrite app_assoc. split; [done|]. apply Forall_app. split; [|done].
  constructor; [done|]. eapply Forall_impl; [exact Hc0|].
  intros c Hc. destruct c as [[] ?|[] ? ?|[]|[]|[]|[] []| | | | | |]; done.
Qed.
End PassOrder.

(* ================================================================== *)
(** ** The release of the storage *)

Lemma bind_singleton_fmap {A B} (f : A -> B) (l : list A) :
  l ≫= (fun x => [f x]) = f <$> l.
Proof. induction l as [|x l IH]; [done|]. csimpl. by rewrite IH. Qed.

Section StorageRelease.
Context {env : Environment} {settings : Settings}
        {collaborators : Collaborators}.

(** What [cleanUpAllPVCs] does: one deletion for every claim listed, in
    the order of the list, and no error unless the list call fails. *)
Lemma cleanUpAllPVCs_run {R} (cloud : SolrCloud)
    (pvcLabelSelector : gmap string string) (t : list Call) :
  let listing :=
    CList KPersistentVolumeClaim (Namespace cloud) pvcLabelSelector in
  cleanUpAllPVCs (R:=R) cloud pvcLabelSelector t =
  match list_PersistentVolumeClaims t (Namespace cloud) pvcLabelSelector with
  | inr err => (Next (Some err), t ++ [listing])
  | inl items => (Next None, t ++ listing :: (claimDeletion <$> items))
  end.
Proof.
  intros listing.
  cbv [cleanUpAllPVCs getPVCList func bind return_ pure
       List_PersistentVolumeClaims].
  destruct (list_PersistentVolumeClaims t _ _) as [items|err]; [|done].
  erewrite forEach_calls with (calls := fun claim => [claimDeletion claim]);
    [|reflexivity].
  by rewrite bind_singleton_fmap, <- app_assoc.
Qed.

(** When an object with the Delete policy and the storage finalizer is
    being deleted, the storage finalizer lists the claims and deletes
    every one of them; whatever the deletions answer, it then removes the
    finalizer with one update and returns the error of that update.  When
    the list call fails, nothing is deleted and the finalizer stays. *)
Theorem deleted_cloud_releases_storage {R} (cloud : SolrCloud)
    (pvcLabelSelector : gmap string string) (t : list Call) :
  deletesStorage cloud = true ->
  IsZero (DeletionTimestamp cloud) = false ->
  ContainsString (Finalizers cloud) SolrStorageFinalizer = true ->
  let listing :=
    CList KPersistentVolumeClaim (Namespace cloud) pvcLabelSelector in
  let released :=
    set_Finalizers (RemoveString (Finalizers cloud) SolrStorageFinalizer)
      cloud in
  let update := CUpdate (OSolrCloud released) in
  match list_PersistentVolumeClaims t (Namespace cloud) pvcLabelSelector with
  | inr err =>
      reconcileStorageFinalizer (R:=R) cloud pvcLabelSelector t =
        (Next (cloud, Some err), t ++ [listing])
  | inl items =>
      let calls := listing :: (claimDeletion <$> items) in
      reconcileStorageFinalizer (R:=R) cloud pvcLabelSelector t =
        (Next (released, write_error (t ++ calls) update),
         t ++ calls ++ [update])
  end.
Proof.
  intros Hdeletes Hdeleted Hfinalizer listing released update.
  pose proof (cleanUpAllPVCs_run (R:=SolrCloud * option error) cloud
                pvcLabelSelector t) as Hclean.
  cbv zeta in Hclean. fold listing in Hclean.
  unfold reconcileStorageFinalizer.
  rewrite Hdeletes, Hdeleted, Hfinalizer.
  destruct (list_PersistentVolumeClaims t _ _) as [items|err];
    rewrite (func_bind_next _ _ _ _ _ Hclean); [|done].
  cbv [func bind Update write return_]. fold released update.
  rewrite <- app_assoc.
  by destruct (write_error _ update).
Qed.

(** Without the Delete policy the storage finalizer leaves the claims
    alone: it neither lists nor deletes one, and all that it may do is
    to remove the finalizer from the object. *)
Theorem retained_storage_left_alone {R} (cloud : SolrCloud)
    (pvcLabelSelector : gmap string string) (t : list Call) :
  deletesStorage cloud = false ->
  let released :=
    set_Finalizers (RemoveString (Finalizers cloud) SolrStorageFinalizer)
      cloud in
  let update := CUpdate (OSolrCloud released) in
  reconcileStorageFinalizer (R:=R) cloud pvcLabelSelector t =
    if ContainsString (Finalizers cloud) SolrStorageFinalizer
    then (Next (released, write_error t update), t ++ [update])
    else (Next (cloud, None), t).
Proof.
  intros Hretained released update. unfold reconcileStorageFinalizer.
  rewrite Hretained. destruct (ContainsString _ _); [|done].
  cbv [func bind Update write return_]. fold released update.
  by destruct (write_error t update).
Qed.
End StorageRelease.

(* ================================================================== *)
(** ** The URL scheme of the cluster in ZooKeeper *)

Lemma deferred_run {R A} (cleanup : M R unit) (body : M R A) (t t' : list Call)
    (o : Outcome R A) :
  body t = (o, t') -> deferred cleanup body t = (o, snd (cleanup t')).
Proof. intros Hbody. unfold deferred. by rewrite Hbody. Qed.

Section UrlSchemeConnection.
Context {env : Environment} {settings : Settings}
        {collaborators : Collaborators}.

(** [setUrlSchemeClusterProperty] first dials the hosts of the connection
    string.  When that fails it makes no other call; when it succeeds,
    whatever happens next, it closes the connection, once, as its last
    call. *)
Theorem zookeeper_connection_closed {R} (newStatus : SolrCloudStatus)
    (t : list Call) :
  let hosts := zkHostsOf newStatus in
  exists o calls,
    setUrlSchemeClusterProperty (R:=R) newStatus t =
      (o, t ++ CZkConnect hosts :: calls) /\
    match zk_Connect t hosts with
    | Some _ => calls = []
    | None =>
        exists middle,
          calls = middle ++ [CZkClose] /\
          Forall (fun c => usesZkConnection c = true) middle
    end.
Proof.
  intros hosts. unfold setUrlSchemeClusterProperty. cbv zeta.
  fold (zkHostsOf newStatus). fold hosts.
  erewrite func_bind_next; [|reflexivity].
  destruct (zk_Connect t hosts) as [e|].
  - destruct (strings_Contains _ _); by eexists _, [].
  - erewrite func_bind_next; [|reflexivity].
    match goal with
    | |- context [deferred Zk_Close ?b] =>
        assert (Hbody : issues (R:=bool * option error)
                          (fun c => usesZkConnection c = true) b)
    end.
    { repeat issues_step; done. }
    destruct (Hbody (t ++ [CZkConnect hosts])) as (o & middle & Hrun & Hmid).
    unfold func. rewrite (deferred_run _ _ _ _ _ Hrun). cbv [Zk_Close snd].
    rewrite <- !app_assoc. simpl.
    destruct o; eexists _, _; (split; [reflexivity|]); by exists middle.
Qed.
End UrlSchemeConnection.

Section UrlSchemeExisting.
Context {env : Environment} {settings : Settings}
        {collaborators : Collaborators}.

(** When the node of the cluster properties exists and parses,
    [setUrlSchemeClusterProperty] leaves it alone if the URL scheme is
    already https; else it writes the properties back with the URL scheme
    added to them, at the version read (0 without one).  In both cases it
    reports success, whatever the write answers. *)
Theorem existing_cluster_properties_updated {R} (newStatus : SolrCloudStatus)
    (t : list Call) (data : string) (stat : option Z)
    (clusterProps : gmap string Json) :
  let hosts := zkHostsOf newStatus in
  let path := clusterPropsPathOf newStatus in
  zk_Connect t hosts = None ->
  zk_Get (t ++ [CZkConnect hosts]) path = (Some data, stat, None) ->
  clusterPropsOf data = Some clusterProps ->
  let update :=
    CZkSet path
      (json_Marshal (<["urlScheme" := JString "https"]> clusterProps))
      (default 0 stat) in
  setUrlSchemeClusterProperty (R:=R) newStatus t =
    (Next (true, None),
     t ++ [CZkConnect hosts; CZkGet path] ++
       (if decide (clusterProps !! "urlScheme" = Some (JString "https"))
        then [] else [update]) ++ [CZkClose]).
Proof.
  intros hosts path Hconnect Hget Hprops update.
  unfold setUrlSchemeClusterProperty. cbv zeta.
  fold (zkHostsOf newStatus) (clusterPropsPathOf newStatus).
  fold hosts path.
  erewrite func_bind_next; [|reflexivity]. rewrite Hconnect.
  erewrite func_bind_next; [|reflexivity].
  unfold func.
  destruct (decide (clusterProps !! "urlScheme" = Some (JString "https")))
    as [Hset|Hunset].
  - erewrite deferred_run.
    2:{ erewrite bind_next; [|reflexivity]. rewrite Hget. cbv beta iota.
        fold (clusterPropsOf data). rewrite Hprops.
        cbn [mbind option_bind].
        rewrite bool_decide_eq_true_2 by done. reflexivity. }
    cbv [Zk_Close snd]. by rewrite <- !app_assoc.
  - erewrite deferred_run.
    2:{ erewrite bind_next; [|reflexivity]. rewrite Hget. cbv beta iota.
        fold (clusterPropsOf data). rewrite Hprops.
        cbn [mbind option_bind].
        rewrite bool_decide_eq_false_2 by done.
        cbv [negb bind deref pure return_ Zk_Set]. reflexivity. }
    cbv [Zk_Close snd]. rewrite <- !app_assoc. by destruct stat.
Qed.
End UrlSchemeExisting.

Section UrlSchemeNull.
Context {env : Environment} {settings : Settings}
        {collaborators : Collaborators}.

(** When the node of the cluster properties holds data that parse,
    without an error, to no object, as the JSON null does, the map of
    the properties stays nil and [setUrlSchemeClusterProperty] panics
    when it assigns the URL scheme into it.  It has read the node and
    writes nothing; the deferred close of the connection still runs. *)
Theorem null_cluster_properties_panic {R} (newStatus : SolrCloudStatus)
    (t : list Call) (data : string) (stat : option Z) :
  let hosts := zkHostsOf newStatus in
  let path := clusterPropsPathOf newStatus in
  zk_Connect t hosts = None ->
  zk_Get (t ++ [CZkConnect hosts]) path = (Some data, stat, None) ->
  json_Unmarshal data = inl None ->
  setUrlSchemeClusterProperty (R:=R) newStatus t =
    (Panic, t ++ [CZkConnect hosts; CZkGet path; CZkClose]).
Proof.
  intros hosts path Hconnect Hget Hnull.
  unfold setUrlSchemeClusterProperty. cbv zeta.
  fold (zkHostsOf newStatus) (clusterPropsPathOf newStatus).
  fold hosts path.
  erewrite func_bind_next; [|reflexivity]. rewrite Hconnect.
  erewrite func_bind_next; [|reflexivity].
  unfold func.
  erewrite deferred_run.
  2:{ erewrite bind_next; [|reflexivity]. rewrite Hget. cbv beta iota.
      rewrite Hnull. cbn [mbind option_bind].
      rewrite bool_decide_eq_false_2 by done.
      cbv [negb bind deref panic]. reflexivity. }
  cbv [Zk_Close snd]. by rewrite <- !app_assoc.
Qed.
End UrlSchemeNull.

Section UrlSchemeFailures.
Context {env : Environment} {settings : Settings}
        {collaborators : Collaborators}.

(** The failures that [setUrlSchemeClusterProperty] reports.  An error
    that it returns is that of the connection or that of the creation of
    the node of the cluster properties; a failed write to an existing
    node and a failed creation of the chroot are not reported.  It
    returns false without an error only when the connection fails for
    want of the host. *)
Theorem cluster_property_failures_reported {R} (newStatus : SolrCloudStatus)
    (t : list Call) :
  let hosts := zkHostsOf newStatus in
  let path := clusterPropsPathOf newStatus in
  exists o calls,
    setUrlSchemeClusterProperty (R:=R) newStatus t = (o, t ++ calls) /\
    forall updated err, o = Next (updated, err) ->
      match err with
      | Some e =>
          updated = false /\
          (zk_Connect t hosts = Some e \/
           exists before data,
             calls = before ++ [CZkCreate path (Some data); CZkClose] /\
             zk_Create (t ++ before) path (Some data) = Some e)
      | None =>
          updated = false ->
          exists e,
            zk_Connect t hosts = Some e /\
            strings_Contains (Error e) "no such host" = true
      end.
Proof.
  intros hosts path. unfold setUrlSchemeClusterProperty. cbv zeta.
  fold (zkHostsOf newStatus) (clusterPropsPathOf newStatus).
  fold hosts path.
  cbv [func bind deferred Zk_Connect Zk_Get Zk_Set Zk_Exists Zk_Create
       Zk_Close pure return_ deref panic snd].
  repeat case_match; simplify_eq;
    (eexists _, _; split; [by rewrite <- ?app_assoc|]);
    intros updated err' Heq; simplify_eq; try done; eauto.
  all: split; [done|]; right.
  all: match goal with
       | H : zk_Create _ _ (Some _) = Some _ |- _ =>
           rewrite <- ?app_assoc in H; simpl in H
       end.
  all: first
    [ by eexists [_; _; _; _], _
    | by eexists [_; _; _], _
    | by eexists [_; _], _ ].
Qed.
End UrlSchemeFailures.

Lemma strings_Contains_comma_cons (c : ascii) (s : string) :
  strings_Contains (String c s) "," = false ->
  Ascii.eqb c "," = false /\ strings_Contains s "," = false.
Proof.
  unfold strings_Contains. cbn [String.index String.prefix].
  destruct (ascii_dec "," c) as [<-|Hc].
  - by destruct s.
  - intros Hs. split.
    + apply Ascii.eqb_neq. congruence.
    + by destruct (String.index 0 "," s).
Qed.

Lemma strings_Split_comma_free (s : string) :
  strings_Contains s "," = false -> strings_Split s "," = [s].
Proof.
  induction s as [|c s IH]; [done|].
  intros [Hc Hs]%strings_Contains_comma_cons. cbn [strings_Split].
  by rewrite Hc, (IH Hs).
Qed.

Lemma strings_Split_comma_app (s rest : string) :
  strings_Contains s "," = false ->
  strings_Split (s +:+ "," +:+ rest) "," = s :: strings_Split rest ",".
Proof.
  induction s as [|c s IH]; [done|].
  intros [Hc Hs]%strings_Contains_comma_cons.
  change (strings_Split (String c (s +:+ "," +:+ rest)) "," =
          String c s :: strings_Split rest ",").
  cbn [strings_Split]. by rewrite Hc, (IH Hs).
Qed.

(** [strings.Split] undoes [strings.Join] on strings without the
    separator. *)
Lemma strings_Split_Join (hosts : list string) :
  hosts <> [] ->
  Forall (fun host => strings_Contains host "," = false) hosts ->
  strings_Split (String.concat "," hosts) "," = hosts.
Proof.
  induction hosts as [|host hosts IH]; [done|]. intros _ Hfree.
  apply Forall_cons in Hfree as [Hhost Hfree].
  destruct hosts as [|next hosts].
  - by apply strings_Split_comma_free.
  - change (String.concat "," (host :: next :: hosts))
      with (host +:+ "," +:+ String.concat "," (next :: hosts)).
    rewrite strings_Split_comma_app by done. by rewrite IH.
Qed.

Section UrlSchemeHosts.
Context {env : Environment} {settings : Settings}
        {collaborators : Collaborators}.

(** [setUrlSchemeClusterProperty] dials the hosts that the connection
    string of the status joins with commas, each on its own. *)
Theorem connection_string_hosts_dialled {R} (newStatus : SolrCloudStatus)
    (hosts : list string) (t : list Call) :
  hosts <> [] ->
  Forall (fun host => strings_Contains host "," = false) hosts ->
  InternalConnectionString (ZookeeperConnectionInfo_ newStatus) =
    String.concat "," hosts ->
  exists o calls,
    setUrlSchemeClusterProperty (R:=R) newStatus t =
      (o, t ++ CZkConnect hosts :: calls).
Proof.
  intros Hsome Hfree Hjoined.
  assert (Hrun : traces (R:=R) (fun calls => exists rest,
                                  calls = CZkConnect hosts :: rest)
                   (setUrlSchemeClusterProperty newStatus)).
  { intros t'. unfold setUrlSchemeClusterProperty. cbv zeta.
    rewrite Hjoined, strings_Split_Join by done.
    erewrite func_bind_next; [|reflexivity].
    match goal with
    | |- context [func ?m] =>
        destruct (traces_func (R:=bool * option error) (R':=R)
                    (Forall (fun _ => True)) m)
          with (t := t' ++ [CZkConnect hosts]) as (o & rest & -> & _)
    end.
    { repeat issues_step; done. }
    exists o, (CZkConnect hosts :: rest). rewrite <- app_assoc. eauto. }
  destruct (Hrun t) as (o & calls & -> & rest & ->). eauto.
Qed.
End UrlSchemeHosts.

(* ================================================================== *)
(** ** The runs of the certificate coordinator *)

Lemma traces_bind_pure {R A B} (Q : list Call -> Prop) (a : A)
    (k : A -> M R B) :
  traces Q (k a) -> traces Q (bind (pure a) k).
Proof. intros Hk t. exact (Hk t). Qed.

Lemma bind_continue {R A B} (m : M R A) (k : A -> M R B) (t : list Call) :
  bind m k t = continue_ k (m t).
Proof. reflexivity. Qed.

Lemma func_called {R R'} (body : M R R) (t : list Call) :
  func (R':=R') body t = called (body t).
Proof. reflexivity. Qed.

(** One step of the run of a block on a trace: the next statement is
    run, or the value that decides it is split into its cases. *)
Ltac run_step :=
  first
    [ rewrite bind_continue
    | rewrite func_called
    | progress cbn [continue_ called]
    | progress cbv beta
    | progress unfold pure, return_, panic, deref, first, Get_SolrCloud,
        Get_Service, Get_ConfigMap, Get_StatefulSet, Get_Ingress, Get_Secret,
        Get_Certificate, Get_Issuer, Get_ZookeeperCluster, List_Pods,
        List_PersistentVolumeClaims, Create, Update, Status_Update, Delete,
        write, askPodsSafeToUpdate, Zk_Connect, Zk_Get, Zk_Set, Zk_Exists,
        Zk_Create, Zk_Close
    | match goal with
      | |- context [match ?x with _ => _ end] =>
          lazymatch x with
          | context [match _ with _ => _ end] => fail
          | _ => destruct x eqn:?
          end
      end ].

(** The end of a run: the outcome and the calls issued. *)
Ltac run_end :=
  first
    [ eexists _, _; split; [by rewrite <- ?app_assoc|]
    | eexists _, []; split; [by rewrite app_nil_r|] ].

Section CertificateRuns.
Context {env : Environment} {settings : Settings}
        {collaborators : Collaborators}.

(** [reconcileAutoCreateTLS] reports that the certificate is ready only
    together with no error, and only from a run in which it wrote no
    Certificate and deleted nothing. *)
Theorem certificate_ready_without_reissue {R} (instance : SolrCloud)
    (t : list Call) :
  exists o calls,
    reconcileAutoCreateTLS (R:=R) instance t = (o, t ++ calls) /\
    forall err, o = Next (true, err) ->
      err = None /\
      Forall (fun c => writesCertificateOrDeletes c = false) calls.
Proof.
  unfold reconcileAutoCreateTLS, isCertificateReady, afterCertificateReady.
  repeat run_step; run_end; intros err' Heq; simplify_eq;
    (split; [done|]); by repeat constructor.
Qed.

(** With an issuer referred to by the object, [reconcileAutoCreateTLS]
    neither looks for an issuer nor creates one. *)
Theorem referenced_issuer_not_created {R} (instance : SolrCloud)
    (tls : SolrTLSOptions) (autoCreate : CreateCertificate)
    (issuerRef : string) :
  SolrTLS (Spec instance) = Some tls ->
  AutoCreate tls = Some autoCreate ->
  autoCreate_IssuerRef autoCreate = Some issuerRef ->
  issues (R:=R) (fun c => touchesIssuer c = false)
    (reconcileAutoCreateTLS instance).
Proof.
  intros Htls Hauto Href.
  unfold reconcileAutoCreateTLS, isCertificateReady, afterCertificateReady.
  rewrite Htls. cbn [deref]. unfold issues. apply traces_func.
  apply traces_bind_pure. rewrite Hauto. cbn [deref].
  apply traces_bind_pure. rewrite Href.
  repeat issues_step; done.
Qed.

(** While the certificate is not ready, or its reconciliation fails, the
    TLS step ends the pass before it reads the TLS secret: with the
    error, or else with a requeue after 2 seconds for a self-signed
    certificate and after 30 seconds for one of an issuer referred to. *)
Theorem certificate_awaited (instance : SolrCloud)
    (tls : SolrTLSOptions) (autoCreate : CreateCertificate)
    (requeueOrNot : Result) (newStatus : SolrCloudStatus)
    (t t1 : list Call) (tlsReady : bool) (err : option error) :
  SolrTLS (Spec instance) = Some tls ->
  AutoCreate tls = Some autoCreate ->
  reconcileAutoCreateTLS (R:=Returned) instance t =
    (Next (tlsReady, err), t1) ->
  tlsReady = false \/ err <> None ->
  Reconcile_tls instance requeueOrNot newStatus t =
    (Return
       match err with
       | Some err => (requeueOrNot, Some err)
       | None =>
           (set_RequeueAfter
              (match autoCreate_IssuerRef autoCreate with
               | None => 2 * Second
               | Some _ => 30 * Second
               end) requeueOrNot, None)
       end, t1).
Proof.
  intros Htls Hauto Hrun Hwait. unfold Reconcile_tls. rewrite Htls, Hauto.
  unfold bind at 1. unfold bind at 1. rewrite Hrun.
  destruct err as [e|]; [by rewrite orb_true_r|].
  destruct Hwait as [->|?]; done.
Qed.
End CertificateRuns.

(* ================================================================== *)
(** ** The ConfigMap of the pass *)

Section ConfigMaps.
Context {env : Environment} {settings : Settings}
        {collaborators : Collaborators}.

(** A pass reads the ConfigMap under whose name the object is indexed,
    in the namespace of the object, and does nothing else with it.  It
    goes on only when the ConfigMap holds a solr.xml with the placeholder
    of the host port, with the name of that ConfigMap and the checksum of
    that solr.xml; else the pass ends with an error. *)
Theorem provided_configMap_only_read (instance : SolrCloud)
    (requeueOrNot : Result) (t : list Call) (name : string) :
  providedConfigMapIndex (OSolrCloud instance) = Next (Some [name]) ->
  let key := {| nn_Name := name; nn_Namespace := Namespace instance |} in
  exists o,
    Reconcile_configMap instance requeueOrNot t =
      (o, t ++ [CGet KConfigMap key]) /\
    match o with
    | Next (solrXmlConfigMapName, solrXmlMd5) =>
        exists found data solrXml,
          get_ConfigMap t key = inl found /\
          cm_Data found = Some data /\
          data !! "solr.xml" = Some solrXml /\
          strings_Contains solrXml "${hostPort:" = true /\
          solrXmlConfigMapName = cm_Name found /\
          solrXmlMd5 = md5_hex solrXml
    | Return (result, err) => result = requeueOrNot /\ err <> None
    | Panic => False
    end.
Proof.
  intros Hindex key. unfold providedConfigMapIndex in Hindex.
  unfold Reconcile_configMap.
  destruct (CustomSolrKubeOptions_ConfigMapOptions (Spec instance))
    as [options|]; [|done].
  destruct (String.eqb (ProvidedConfigMap options) ""); [done|].
  injection Hindex as Hname. rewrite Hname. cbn [negb]. cbv zeta. fold key.
  rewrite bind_continue. unfold Get_ConfigMap. cbn [continue_].
  destruct (get_ConfigMap t key) as [found|err] eqn:Hget;
    [|by eexists].
  destruct (cm_Data found) as [data|] eqn:Hdata; [|by eexists].
  destruct (data !! "solr.xml") as [solrXml|] eqn:Hxml; [|by eexists].
  destruct (strings_Contains solrXml "${hostPort:") eqn:Hport;
    [|by eexists].
  eexists. split; [reflexivity|]. by exists found, data, solrXml.
Qed.

(** For an object that the index lists under no name, the pass works on
    the ConfigMap that it generates.  The checksum that it hands on is
    that of the solr.xml of the ConfigMap that it has just created or
    updated; it is empty when the ConfigMap found needed no change. *)
Theorem generated_configMap_checksum (instance : SolrCloud)
    (requeueOrNot : Result) (t : list Call) :
  providedConfigMapIndex (OSolrCloud instance) = Next None ->
  exists o calls,
    Reconcile_configMap instance requeueOrNot t = (o, t ++ calls) /\
    forall solrXmlConfigMapName solrXmlMd5,
      o = Next (solrXmlConfigMapName, solrXmlMd5) ->
      solrXmlConfigMapName = ConfigMapName instance /\
      exists key,
        (calls = [CGet KConfigMap key] /\ solrXmlMd5 = "") \/
        exists written,
          (calls = [CGet KConfigMap key; CCreate (OConfigMap written)] \/
           calls = [CGet KConfigMap key; CUpdate (OConfigMap written)]) /\
          solrXmlMd5 = md5_hex (solrXmlOf written).
Proof.
  unfold providedConfigMapIndex, Reconcile_configMap. intros Hindex.
  assert (Hnone :
    match CustomSolrKubeOptions_ConfigMapOptions (Spec instance) with
    | Some options =>
        if negb (String.eqb (ProvidedConfigMap options) "")
        then Some (ProvidedConfigMap options) else None
    | None => None
    end = None).
  { destruct (CustomSolrKubeOptions_ConfigMapOptions (Spec instance))
      as [options|]; [|done].
    by destruct (String.eqb (ProvidedConfigMap options) ""). }
  cbv zeta. rewrite Hnone.
  repeat run_step; run_end; intros name md5 Heq; simplify_eq;
    (split; [done|]); eexists; eauto 6.
Qed.
End ConfigMaps.

(* ================================================================== *)
(** ** The services of the nodes *)

(** What holds of the state of a loop that has run to its end, whatever
    its rounds called. *)
Lemma forEachWith_next {R A S} (Inv : list A -> S -> Prop)
    (body : S -> A -> M R S) (l : list A) (s0 s : S) (t t' : list Call) :
  Inv [] s0 ->
  (forall seen x s t s' t',
     Inv seen s -> body s x t = (Next s', t') -> Inv (seen ++ [x]) s') ->
  forEachWith l s0 body t = (Next s, t') ->
  Inv l s.
Proof.
  intros H0 Hstep.
  cut (forall rest seen s1 t1,
         Inv seen s1 -> forEachWith rest s1 body t1 = (Next s, t') ->
         Inv (seen ++ rest) s).
  { intros Hcut. exact (Hcut l [] s0 t H0). }
  induction rest as [|x rest IH]; intros seen s1 t1 Hinv; simpl.
  - intros [= <- _]. by rewrite app_nil_r.
  - rewrite bind_continue.
    destruct (body s1 x t1) as [[s2| |] t2] eqn:Hbody; cbn [continue_];
      [|done..].
    intros Hrest. replace (seen ++ x :: rest) with ((seen ++ [x]) ++ rest)
      by by rewrite <- app_assoc.
    eapply IH; [|exact Hrest]. by eapply Hstep.
Qed.

Section NodeServices.
Context {env : Environment} {settings : Settings}
        {collaborators : Collaborators}.

(** What [reconcileNodeService] gives back: an address only with a
    service that it found, and then the cluster IP of that service. *)
Lemma reconcileNodeService_address {R} (instance : SolrCloud)
    (nodeName : string) (t t' : list Call) (err : option error)
    (ip : string) :
  reconcileNodeService (R:=R) instance nodeName t = (Next (err, ip), t') ->
  ip <> "" ->
  exists service found,
    SetControllerReference_Service instance
      (GenerateNodeService instance nodeName) = inl service /\
    get_Service t {| nn_Name := svc_Name service;
                     nn_Namespace := svc_Namespace service |} = inl found /\
    ip = svc_ClusterIP (snd (CopyServiceFields service found)).
Proof.
  unfold reconcileNodeService. intros Hrun Hip. revert Hrun.
  repeat run_step; intros Hrun; simplify_eq; try done.
  all: eexists _, _; split; [done|]; split; [done|];
    by match goal with H : CopyServiceFields _ _ = _ |- _ => rewrite H end.
Qed.

(** With one service per node and the external addresses advertised, the
    loop over the nodes leaves no empty address among the host aliases,
    and it leaves the reconciliation of the StatefulSet free only when it
    has an address for every node. *)
Theorem host_aliases_complete (instance : SolrCloud)
    (external : ExternalAddressability) (requeueOrNot : Result)
    (solrNodeNames : list string) (t t' : list Call) (blocked : bool)
    (hostNameIpMap : gmap string string) :
  UsesIndividualNodeServices instance = true ->
  SolrAddressability_External (Spec instance) = Some external ->
  ext_UseExternalAddress external = true ->
  Reconcile_nodeServices instance requeueOrNot solrNodeNames false t =
    (Next (blocked, hostNameIpMap), t') ->
  (forall host ip, hostNameIpMap !! host = Some ip -> ip <> "") /\
  (blocked = false ->
   forall nodeName, nodeName ∈ solrNodeNames ->
     is_Some (hostNameIpMap !! AdvertisedNodeHost instance nodeName)).
Proof.
  intros Hindividual Hexternal Hadvertised. unfold Reconcile_nodeServices.
  rewrite Hindividual. cbv zeta. intros Hloop.
  apply (forEachWith_next
           (fun seen '(blocked, hostNameIpMap) =>
              (forall host ip, hostNameIpMap !! host = Some ip -> ip <> "") /\
              (blocked = false ->
               forall nodeName, nodeName ∈ seen ->
                 is_Some (hostNameIpMap !!
                            AdvertisedNodeHost instance nodeName))))
    in Hloop; [done| |].
  - split; [by intros ? ? ?%lookup_empty_Some|].
    intros _ ? Hin. by apply not_elem_of_nil in Hin.
  - intros seen nodeName [b m] t1 [b' m'] t2 [Hips Hall].
    rewrite bind_continue.
    destruct (reconcileNodeService instance nodeName t1)
      as [[[err ip]| |] t3]; cbn [continue_]; [|done..].
    destruct err as [e|]; [done|].
    rewrite bind_continue, Hexternal. cbn [deref pure continue_].
    rewrite Hadvertised.
    destruct (String.eqb ip "") eqn:Hip; intros [= <- <- _].
    + split; [done|]. done.
    + apply String.eqb_neq in Hip. split.
      * intros host ip' Hlookup.
        apply lookup_insert_Some in Hlookup as [ [_ <-] | [_ ?] ]; eauto.
      * intros -> n [Hn|Hn]%elem_of_app.
        -- destruct (Hall eq_refl n Hn) as [ip' Hip'].
           destruct (decide (AdvertisedNodeHost instance nodeName =
                             AdvertisedNodeHost instance n)) as [Heq|Hne].
           ++ rewrite <- Heq, lookup_insert_eq. eauto.
           ++ rewrite lookup_insert_ne by done. eauto.
        -- apply list_elem_of_singleton in Hn as ->.
           rewrite lookup_insert_eq. eauto.
Qed.
End NodeServices.

(* ================================================================== *)
(** ** The nodes and the counts of the status *)

Lemma wrap64_succ (k : Z) : wrap64 (wrap64 k + 1) = wrap64 (k + 1).
Proof.
  unfold wrap64.
  replace ((k + 2 ^ 63) mod 2 ^ 64 - 2 ^ 63 + 1 + 2 ^ 63)
    with ((k + 2 ^ 63) mod 2 ^ 64 + 1) by lia.
  rewrite Zplus_mod_idemp_l. f_equal. f_equal. lia.
Qed.

#[global] Instance string_le_total : Total string_le.
Proof. intros a b. apply String.leb_total. Qed.

Section StatusNodes.
Context {env : Environment} {settings : Settings}
        {collaborators : Collaborators}.

Lemma statusLoopBody_nodes {R} (solrCloud : SolrCloud)
    (updateRevision : string) (seen : list Pod) (s : StatusLoop) (p : Pod)
    (t : list Call) :
  (pod_ContainerStatuses p <> [] -> pod_Containers p <> []) ->
  loopNodes updateRevision seen s ->
  exists s',
    statusLoopBody (R:=R) solrCloud updateRevision s p t = (Next s', t) /\
    loopNodes updateRevision (seen ++ [p]) s'.
Proof.
  intros Hcontainers (Hnames & Hmap & HupToDate & Havailable).
  assert (Hversion : exists result,
    (if len (pod_ContainerStatuses p) >? 0 then
       let* solr := first (pod_Containers p) in
       let version := ImageVersion (container_Image solr) in
       if negb (String.eqb version (SolrImage_Tag (Spec solrCloud)))
       then pure (version, otherVersions s ++ [version])
       else pure (version, otherVersions s)
     else pure ("", otherVersions s)) t = (Next (R:=R) result, t)).
  { destruct (len (pod_ContainerStatuses p) >? 0) eqn:Hlen; [|by eexists].
    destruct (pod_Containers p) as [|solr rest].
    { exfalso. apply Hcontainers; [|done]. intros Hnil.
      by rewrite Hnil in Hlen. }
    cbv [bind first pure]. by destruct (negb _); eexists. }
  destruct Hversion as ([version others] & Hversion).
  unfold statusLoopBody. erewrite bind_next; [|exact Hversion].
  eexists. split; [reflexivity|].
  unfold loopNodes.
  cbn [nodeNames nodeStatusMap loop_UpToDateNodes availableUpdatedPodCount].
  rewrite !filter_snoc_bool, Hnames, HupToDate, Havailable, fmap_app.
  cbv beta.
  split; [done|]. split; [|split].
  - intros name [Hname|Hname]%elem_of_app.
    + destruct (decide (name = pod_Name p)) as [->|Hother].
      * eexists _, p. rewrite lookup_insert_eq. split; [done|].
        split; [apply elem_of_app; right; by left|]. done.
      * rewrite lookup_insert_ne by done.
        rewrite <- Hnames in Hname.
        destruct (Hmap name Hname) as (node & q & ? & ? & ? & ?).
        exists node, q. split; [done|]. split; [|done].
        apply elem_of_app. by left.
    + apply list_elem_of_singleton in Hname as ->.
      eexists _, p. rewrite lookup_insert_eq. split; [done|].
      split; [apply elem_of_app; right; by left|]. done.
  - destruct (specUpToDate updateRevision p); [|done].
    by rewrite len_snoc, wrap32_succ.
  - destruct (specUpToDate updateRevision p), (podReady p); cbn [andb];
      try done. by rewrite len_snoc, wrap64_succ.
Qed.

(** What [reconcileCloudStatus] leaves of the nodes. *)
Lemma reconcileCloudStatus_nodes {R} (solrCloud : SolrCloud)
    (newStatus : SolrCloudStatus) (statefulSetStatus : StatefulSetStatus)
    (t : list Call) (pods : list Pod) (replicas : Z) :
  list_Pods t (Namespace solrCloud) (podSelector solrCloud) = inl pods ->
  Replicas (Spec solrCloud) = Some replicas ->
  wellFormedPods pods ->
  exists status s,
    reconcileCloudStatus (R:=R) solrCloud newStatus statefulSetStatus t =
      (Next status,
       t ++ [CList KPod (Namespace solrCloud) (podSelector solrCloud)]) /\
    loopNodes (sts_UpdateRevision statefulSetStatus) pods s /\
    SolrNodes (cs_newStatus status) =
      Some ((fun nodeName =>
               default SolrNodeStatus_zero (nodeStatusMap s !! nodeName))
              <$> sort_Strings (nodeNames s)) /\
    UpToDateNodes (cs_newStatus status) = loop_UpToDateNodes s /\
    cs_availableUpdatedPodCount status = availableUpdatedPodCount s.
Proof.
  intros Hlist Hreplicas Hpods.
  destruct (forEachWith_invariant (R:=CloudStatus)
              (loopNodes (sts_UpdateRevision statefulSetStatus))
              (statusLoopBody solrCloud
                 (sts_UpdateRevision statefulSetStatus))
              pods StatusLoop_start
              (t ++ [CList KPod (Namespace solrCloud)
                       (podSelector solrCloud)]))
    as (s & Hloop & Hnodes).
  { repeat split. intros name Hname. by apply not_elem_of_nil in Hname. }
  { intros seen p s Hp Hinv. apply statusLoopBody_nodes; [|done].
    by apply Hpods. }
  unfold reconcileCloudStatus, List_Pods, func, bind at 1.
  fold (podSelector solrCloud). rewrite Hlist.
  unfold bind at 1. rewrite Hloop, Hreplicas.
  cbv [bind deref pure return_].
  destruct (otherVersions s); eexists _, s; (split; [reflexivity|]); done.
Qed.

(** The nodes of the new status stand in the order of their names, one
    for each pod that the list call returned, and each describes a pod
    of its name that was returned: its Kubernetes node, whether it is
    ready, and whether it is at the update revision of the
    StatefulSet. *)
Theorem node_statuses_sorted_by_name {R} (solrCloud : SolrCloud)
    (newStatus : SolrCloudStatus) (statefulSetStatus : StatefulSetStatus)
    (t : list Call) (pods : list Pod) (replicas : Z) :
  list_Pods t (Namespace solrCloud) (podSelector solrCloud) = inl pods ->
  Replicas (Spec solrCloud) = Some replicas ->
  wellFormedPods pods ->
  exists status t' nodes,
    reconcileCloudStatus (R:=R) solrCloud newStatus statefulSetStatus t =
      (Next status, t') /\
    SolrNodes (cs_newStatus status) = Some nodes /\
    node_Name <$> nodes = sort_Strings (pod_Name <$> pods) /\
    Sorted string_le (node_Name <$> nodes) /\
    (node_Name <$> nodes) ≡ₚ (pod_Name <$> pods) /\
    forall node, node ∈ nodes ->
      exists p, p ∈ pods /\
                describes (sts_UpdateRevision statefulSetStatus) node p.
Proof.
  intros Hlist Hreplicas Hpods.
  destruct (reconcileCloudStatus_nodes (R:=R) solrCloud newStatus
              statefulSetStatus t pods replicas Hlist Hreplicas Hpods)
    as (status & s & Hrun & (Hnames & Hmap & _) & Hnodes & _).
  eexists status, _, _. split; [exact Hrun|]. split; [exact Hnodes|].
  assert (Hsorted : forall name, name ∈ sort_Strings (nodeNames s) ->
                                 name ∈ nodeNames s).
  { intros name. unfold sort_Strings. by rewrite merge_sort_Permutation. }
  assert (Heach : (node_Name <$>
                     ((fun nodeName =>
                         default SolrNodeStatus_zero
                           (nodeStatusMap s !! nodeName))
                        <$> sort_Strings (nodeNames s))) =
                  sort_Strings (nodeNames s)).
  { rewrite <- list_fmap_compose.
    rewrite <- (list_fmap_id (sort_Strings (nodeNames s))) at 2.
    apply Forall_fmap_ext, Forall_forall. intros name Hname. cbn.
    destruct (Hmap name (Hsorted name Hname))
      as (node & p & -> & _ & <- & Hd).
    cbn. by destruct Hd as (-> & _). }
  rewrite Heach, Hnames. split; [done|]. split; [|split].
  - apply Sorted_merge_sort. apply _.
  - apply merge_sort_Permutation.
  - intros node (name & -> & Hname)%list_elem_of_fmap.
    rewrite <- Hnames in Hname.
    destruct (Hmap name (Hsorted name Hname))
      as (node & p & -> & Hp & _ & Hd).
    by exists p.
Qed.
End StatusNodes.

Lemma wrap32_small (z : Z) : - 2 ^ 31 <= z < 2 ^ 31 -> wrap32 z = z.
Proof. intros Hz. unfold wrap32. rewrite Z.mod_small; lia. Qed.

Lemma filter_length_le {A} (f : A -> bool) (l : list A) :
  len (filter (fun a => f a) l) <= len l.
Proof.
  unfold len. induction l as [|a l IH]; [done|].
  rewrite filter_cons_bool. destruct (f a); cbn [length]; lia.
Qed.

Lemma filter_partition_length {A} (f g h : A -> bool) (l : list A) :
  (forall a, match f a, g a, h a with
             | true, false, false | false, true, false
             | false, false, true => True
             | _, _, _ => False
             end) ->
  len (filter (fun a => f a) l) + len (filter (fun a => g a) l)
  + len (filter (fun a => h a) l) = len l.
Proof.
  intros Hone. unfold len. induction l as [|a l IH]; [done|].
  rewrite !filter_cons_bool. specialize (Hone a).
  destruct (f a), (g a), (h a); try done; cbn [length]; lia.
Qed.

Lemma filter_implies_length {A} (f g : A -> bool) (l : list A) :
  (forall a, f a = true -> g a = true) ->
  len (filter (fun a => f a) l) <= len (filter (fun a => g a) l).
Proof.
  intros Hfg. unfold len. induction l as [|a l IH]; [done|].
  rewrite !filter_cons_bool. specialize (Hfg a).
  destruct (f a), (g a); try (specialize (Hfg eq_refl); discriminate);
    cbn [length]; lia.
Qed.

Section StatusCounts.
Context {env : Environment} {settings : Settings}
        {collaborators : Collaborators}.

(** The status aggregator counts every pod that the list call returned
    once: as up to date, or in one of the two lists of the pods out of
    date.  The count of the available pods up to date is that of the
    pods up to date that are ready. *)
Theorem pods_counted_once {R} (solrCloud : SolrCloud)
    (newStatus : SolrCloudStatus) (statefulSetStatus : StatefulSetStatus)
    (t : list Call) (pods : list Pod) (replicas : Z) :
  list_Pods t (Namespace solrCloud) (podSelector solrCloud) = inl pods ->
  Replicas (Spec solrCloud) = Some replicas ->
  wellFormedPods pods ->
  len pods < 2 ^ 31 ->
  let updateRevision := sts_UpdateRevision statefulSetStatus in
  exists status t',
    reconcileCloudStatus (R:=R) solrCloud newStatus statefulSetStatus t =
      (Next status, t') /\
    UpToDateNodes (cs_newStatus status) =
      len (filter (fun p => specUpToDate updateRevision p) pods) /\
    UpToDateNodes (cs_newStatus status) + len (cs_outOfDatePods status)
    + len (cs_outOfDatePodsNotStarted status) = len pods /\
    cs_availableUpdatedPodCount status =
      len (filter (fun p => specUpToDate updateRevision p && podReady p)
             pods) /\
    cs_availableUpdatedPodCount status <= UpToDateNodes (cs_newStatus status)
    /\
    cs_availableUpdatedPodCount status <= ReadyReplicas (cs_newStatus status).
Proof.
  intros Hlist Hreplicas Hpods Hlen updateRevision.
  destruct (reconcileCloudStatus_nodes (R:=R) solrCloud newStatus
              statefulSetStatus t pods replicas Hlist Hreplicas Hpods)
    as (status & s & Hrun & (_ & _ & HupToDate & Havailable) & _ & Hnodes
        & Hcount).
  destruct (reconcileCloudStatus_run (R:=R) solrCloud newStatus
              statefulSetStatus t pods replicas Hlist Hreplicas Hpods)
    as (status' & Hrun' & _ & _ & Hready & _ & HnotStarted & Hstarted).
  rewrite Hrun in Hrun'. injection Hrun' as <-.
  fold updateRevision in HupToDate, Havailable, HnotStarted, Hstarted.
  pose proof (len_nonneg pods).
  pose proof (filter_length_le (fun p => specUpToDate updateRevision p) pods).
  pose proof (filter_length_le (fun p => podReady p) pods).
  pose proof (filter_length_le
                (fun p => specUpToDate updateRevision p && podReady p) pods).
  pose proof (len_nonneg
                (filter (fun p => specUpToDate updateRevision p) pods)).
  pose proof (len_nonneg (filter (fun p => podReady p) pods)).
  pose proof (len_nonneg
                (filter (fun p => specUpToDate updateRevision p && podReady p)
                   pods)).
  cbv beta in *. eexists status, _. split; [exact Hrun|].
  rewrite Hnodes, Hcount, HupToDate, Havailable, Hready, HnotStarted,
    Hstarted.
  rewrite !wrap32_small, wrap64_small by lia.
  split; [done|]. split; [|split; [done|split]].
  - rewrite <- (filter_partition_length
                  (fun p => specUpToDate updateRevision p)
                  (fun p => outOfDateStarted updateRevision p)
                  (fun p => outOfDateNotStarted updateRevision p) pods);
      [done|].
    intros p. unfold outOfDateStarted, outOfDateNotStarted.
    by destruct (specUpToDate updateRevision p), (containerNotStarted p).
  - apply filter_implies_length. by intros p [? _]%andb_prop.
  - apply filter_implies_length. by intros p [_ ?]%andb_prop.
Qed.
End StatusCounts.

(* ================================================================== *)
(** ** The requeue of a managed update *)

Section ManagedRequeue.
Context {env : Environment} {settings : Settings}
        {collaborators : Collaborators}.

(** The requeue that the managed update leaves.  The pods that have not
    started are deleted first, then those that the selector has chosen.
    The delay is tightened to at most 15 seconds when the selector asks
    to retry later or when the deletion made last has failed, and only
    then: the failure of an earlier deletion leaves the requeue as it
    was. *)
Lemma managedUpdate_requeue (instance : SolrCloud)
    (newStatus : SolrCloudStatus) (requeueOrNot : Result)
    (status : CloudStatus) (t : list Call) (replicas : Z) :
  String.eqb (UpdateStrategy_Method (Spec instance)) ManagedUpdate = true ->
  Replicas (Spec instance) = Some replicas ->
  0 < len (cs_outOfDatePods status) + len (cs_outOfDatePodsNotStarted status)
    < 2 ^ 63 ->
  let answer :=
    DeterminePodsSafeToUpdate t instance (cs_outOfDatePods status) replicas
      (ReadyReplicas newStatus) (cs_availableUpdatedPodCount status)
      (len (cs_outOfDatePodsNotStarted status)) in
  let podsToUpdate := cs_outOfDatePodsNotStarted status ++ fst answer in
  let retryLater := snd answer in
  exists requeue err,
    Reconcile_managedUpdate instance newStatus requeueOrNot status t =
      (Next requeue, t ++ (podDeletion <$> podsToUpdate)) /\
    ((podsToUpdate = [] /\ err = None) \/
     exists front last,
       podsToUpdate = front ++ [last] /\
       err = write_error (t ++ (podDeletion <$> front)) (podDeletion last)) /\
    (err <> None \/ retryLater = true ->
     0 < RequeueAfter requeue <= Second * 15 /\
     (0 < RequeueAfter requeueOrNot <= Second * 15 ->
      requeue = requeueOrNot)) /\
    (err = None -> retryLater = false -> requeue = requeueOrNot).
Proof.
  intros Hmanaged Hreplicas Hsome answer podsToUpdate retryLater.
  unfold Reconcile_managedUpdate. rewrite Hreplicas, Hmanaged.
  cbv [bind deref pure askPodsSafeToUpdate]. cbn [andb].
  rewrite wrap64_small by lia.
  assert ((len (cs_outOfDatePods status)
           + len (cs_outOfDatePodsNotStarted status) >? 0) = true) as ->.
  { rewrite Z.gtb_ltb. apply Z.ltb_lt. lia. }
  cbv beta iota. fold answer.
  destruct answer as [chosen retry] eqn:Hanswer.
  subst podsToUpdate retryLater. cbn [fst snd].
  destruct (deletePods_run (R:=Returned)
              (cs_outOfDatePodsNotStarted status ++ chosen) None t)
    as (err & Hdeleted & Hlast).
  rewrite Hdeleted.
  exists (tightenRequeue err retry requeueOrNot), err.
  split; [done|]. split; [exact Hlast|]. split.
  - apply tightenRequeue_bounds.
  - intros -> ->. apply tightenRequeue_unchanged.
Qed.
End ManagedRequeue.

(* ================================================================== *)
(** ** What the pass creates *)

Section TracesAt.
Context {R : Type} (Q : list Call -> list Call -> Prop) `{!Chained Q}.

Lemma tracesAt_pure {A} (a : A) (t : list Call) :
  tracesAt (R:=R) Q (pure a) t.
Proof.
  exists (Next a), []. rewrite app_nil_r. split; [done|apply chained_nil].
Qed.

Lemma tracesAt_return {A} (r : R) (t : list Call) :
  tracesAt (A:=A) Q (return_ r) t.
Proof.
  exists (Return r), []. rewrite app_nil_r.
  split; [done|apply chained_nil].
Qed.

Lemma tracesAt_panic {A} (t : list Call) : tracesAt (R:=R) (A:=A) Q panic t.
Proof.
  exists Panic, []. rewrite app_nil_r. split; [done|apply chained_nil].
Qed.

Lemma tracesAt_deref {A} (p : option A) (t : list Call) :
  tracesAt (R:=R) Q (deref p) t.
Proof. destruct p; [apply tracesAt_pure|apply tracesAt_panic]. Qed.

Lemma tracesAt_first {A} (s : list A) (t : list Call) :
  tracesAt (R:=R) Q (first s) t.
Proof. destruct s; [apply tracesAt_panic|apply tracesAt_pure]. Qed.

Lemma tracesAt_bind {A B} (m : M R A) (k : A -> M R B) (t : list Call) :
  tracesAt Q m t -> (forall a t', tracesAt Q (k a) t') ->
  tracesAt Q (bind m k) t.
Proof.
  intros (o & c1 & Hm & H1) Hk. unfold tracesAt, bind. rewrite Hm.
  destruct o as [a|r|].
  - destruct (Hk a (t ++ c1)) as (o' & c2 & -> & H2).
    exists o', (c1 ++ c2). rewrite app_assoc. split; [done|].
    by apply chained_app.
  - by exists (Return r), c1.
  - by exists Panic, c1.
Qed.

(** A call, and then a block that is run on its answer. *)
Lemma tracesAt_bind_call {A B} (answer : list Call -> A) (c : Call)
    (k : A -> M R B) (t : list Call) :
  Q t [c] -> tracesAt Q (k (answer t)) (t ++ [c]) ->
  tracesAt Q (bind (fun t => (Next (answer t), t ++ [c])) k) t.
Proof.
  intros Hc (o & c2 & Hk & H2). unfold tracesAt, bind. rewrite Hk.
  exists o, ([c] ++ c2). rewrite app_assoc. split; [done|].
  by apply chained_app.
Qed.

Lemma tracesAt_call {A} (answer : list Call -> A) (c : Call)
    (t : list Call) :
  Q t [c] -> tracesAt (R:=R) Q (fun t => (Next (answer t), t ++ [c])) t.
Proof. intros Hc. by exists (Next (answer t)), [c]. Qed.

Lemma tracesAt_question {A} (answer : list Call -> A) (t : list Call) :
  tracesAt (R:=R) Q (fun t => (Next (answer t), t)) t.
Proof.
  exists (Next (answer t)), []. rewrite app_nil_r.
  split; [done|apply chained_nil].
Qed.

Lemma tracesAt_func {R'} (body : M R R) (t : list Call) :
  tracesAt Q body t -> tracesAt (R:=R') Q (func body) t.
Proof.
  intros (o & c & Hb & Hc). unfold tracesAt, func. rewrite Hb.
  destruct o; eauto.
Qed.

Lemma tracesAt_deferred {A} (cleanup : M R unit) (body : M R A)
    (t : list Call) :
  (forall t', tracesAt Q cleanup t') -> tracesAt Q body t ->
  tracesAt Q (deferred cleanup body) t.
Proof.
  intros Hc (o & c1 & Hb & H1). unfold tracesAt, deferred. rewrite Hb.
  destruct (Hc (t ++ c1)) as (o' & c2 & Heq & H2).
  exists o, (c1 ++ c2). rewrite Heq, app_assoc. split; [done|].
  by apply chained_app.
Qed.

Lemma tracesAt_forEach {A} (l : list A) (body : A -> M R unit)
    (t : list Call) :
  (forall x t', tracesAt Q (body x) t') -> tracesAt Q (forEach l body) t.
Proof.
  intros Hb. revert t. induction l as [|x l IH]; intros t; simpl.
  - apply tracesAt_pure.
  - apply tracesAt_bind; [apply Hb|]. intros _ t'. apply IH.
Qed.

Lemma tracesAt_forEachWith {A S} (l : list A) (s : S)
    (body : S -> A -> M R S) (t : list Call) :
  (forall s x t', tracesAt Q (body s x) t') ->
  tracesAt Q (forEachWith l s body) t.
Proof.
  intros Hb. revert s t. induction l as [|x l IH]; intros s t; simpl.
  - apply tracesAt_pure.
  - apply tracesAt_bind; [apply Hb|]. intros s' t'. apply IH.
Qed.
End TracesAt.

Section Creations.
Context {env : Environment} {settings : Settings}
        {collaborators : Collaborators}.

#[global] Instance createsWhatIsMissing_chained
  : Chained createsWhatIsMissing.
Proof.
  split.
  - intros t before obj after Heq. by destruct before.
  - intros t c1 c2 H1 H2 before obj after Heq.
    apply app_eq_app in Heq as [l [[-> Hl]|[-> Hl]]].
    + destruct l as [|c l].
      * simpl in Hl. subst c2.
        destruct (H2 [] obj after eq_refl) as (front & key & err & Hf & ?).
        exists front, key, err. by rewrite !app_nil_r in *.
      * injection Hl as <- ->.
        by destruct (H1 before obj l eq_refl) as (front & key & err & ?);
          exists front, key, err.
    + destruct (H2 l obj after Hl) as (front & key & err & Hf & ?).
      exists front, key, err. by rewrite app_assoc.
Qed.

(** A call that creates nothing. *)
Lemma createsWhatIsMissing_other (t : list Call) (c : Call) :
  (forall obj, c <> CCreate obj) -> createsWhatIsMissing t [c].
Proof.
  intros Hc before obj after Heq.
  destruct before as [|c' [|]]; simpl in Heq; simplify_eq.
  exfalso. by eapply Hc.
Qed.

(** A creation right after a Get that did not find the object. *)
Lemma createsWhatIsMissing_after (t : list Call) (obj : Object)
    (key : NamespacedName) (err : error) :
  readError t (kindOf obj) key = Some err ->
  IsNotFound err = true ->
  createsWhatIsMissing (t ++ [CGet (kindOf obj) key]) [CCreate obj].
Proof.
  intros Hread Hmissing before obj' after Heq.
  destruct before as [|c' [|]]; simpl in Heq; simplify_eq.
  exists t, key, err. by rewrite app_nil_r.
Qed.
End Creations.

Ltac creates_leaf :=
  first
    [ apply createsWhatIsMissing_other; intros ? ?; discriminate
    | match goal with
      | |- createsWhatIsMissing (?t ++ [CGet _ ?key]) [CCreate ?obj] =>
          eapply (createsWhatIsMissing_after t obj key);
          [ unfold readError; cbn [kindOf]; cbv beta zeta;
            match goal with
            | H : ?g = inr _ |- context [?g] => rewrite H
            end; reflexivity
          | eassumption ]
      end ].

Ltac tracesAt_step :=
  first
    [ apply tracesAt_pure; exact _
    | apply tracesAt_return; exact _
    | apply tracesAt_panic; exact _
    | apply tracesAt_deref; exact _
    | apply tracesAt_first; exact _
    | apply tracesAt_func
    | apply tracesAt_deferred; [exact _|intros ?|]
    | apply tracesAt_bind_call; [exact _|creates_leaf|]
    | apply tracesAt_bind; [exact _| |intros ? ?]
    | apply tracesAt_forEach; [exact _|intros ? ?]
    | apply tracesAt_forEachWith; [exact _|intros ? ? ?]
    | apply tracesAt_question; exact _
    | apply tracesAt_call; [exact _|creates_leaf]
    | progress cbv beta zeta
    | match goal with
      | |- tracesAt _ (match ?x with _ => _ end) _ => destruct x eqn:?
      end ].

Section CreationsOfThePass.
Context {env : Environment} {settings : Settings}
        {collaborators : Collaborators}.

(** [Reconcile] creates an object only right after a Get of an object
    of its kind, and only when that Get has answered that there is
    none. *)
Theorem Reconcile_creates_what_is_missing {R} (req : Request)
    (t : list Call) :
  exists o calls,
    Reconcile (R:=R) req t = (o, t ++ calls) /\
    forall before obj after,
      calls = before ++ CCreate obj :: after ->
      exists front key err,
        t ++ before = front ++ [CGet (kindOf obj) key] /\
        readError front (kindOf obj) key = Some err /\
        IsNotFound err = true.
Proof.
  change (tracesAt (R:=R) createsWhatIsMissing (Reconcile req) t).
  unfold_pass.
  repeat tracesAt_step.
Qed.
End CreationsOfThePass.

(* ================================================================== *)
(** ** The TLS step of the pass *)

(** A function called does not pass a [return] on to its caller. *)
Lemma func_no_return {R R'} (body : M R R) (t t' : list Call) (r : R') :
  func body t = (Return r, t') -> False.
Proof. unfold func. by repeat case_match. Qed.

Section TlsStep.
Context {env : Environment} {settings : Settings}
        {collaborators : Collaborators}.

(** With TLS, the pass goes on to the StatefulSet with a ZooKeeper
    connection string that names a port, and is not the placeholder
    host:7271/, only once the new status records that the URL scheme of
    the cluster is set. *)
Theorem url_scheme_set_before_statefulSet (instance instance' : SolrCloud)
    (tls : SolrTLSOptions) (requeueOrNot : Result)
    (newStatus newStatus' : SolrCloudStatus) (needsPkcs12InitContainer : bool)
    (t t' : list Call) :
  SolrTLS (Spec instance) = Some tls ->
  Reconcile_tls instance requeueOrNot newStatus t =
    (Next (instance', newStatus', needsPkcs12InitContainer), t') ->
  let checked :=
    set_UrlSchemeClusterProperty
      (UrlSchemeClusterProperty (Status instance)) newStatus in
  strings_Contains (ZkConnectionString checked) ":" = true ->
  ZkConnectionString checked <> "host:7271/" ->
  UrlSchemeClusterProperty newStatus' = true.
Proof.
  intros Htls Hrun checked Hport Hplaceholder.
  unfold Reconcile_tls in Hrun. rewrite Htls in Hrun.
  unfold bind, return_, pure, Get_Secret in Hrun.
  destruct (RestartOnTLSSecretUpdate tls);
    cbn [Status set_TLSSecretVersion] in Hrun; fold checked in Hrun;
    destruct (UrlSchemeClusterProperty checked) eqn:Hflag;
    rewrite ?Hport in Hrun; cbn [negb andb] in Hrun;
    repeat case_match; simplify_eq; try done.
  all: match goal with
       | H : negb (String.eqb _ _) = false |- _ =>
           apply negb_false_iff, String.eqb_eq in H; by destruct Hplaceholder
       end.
Qed.


(** When the TLS step ends the pass without an error, it has asked for a
    requeue: after 2 or 30 seconds while the certificate is awaited, and
    after 5 seconds while ZooKeeper is not to be found. *)
Theorem tls_wait_is_requeued (instance : SolrCloud) (requeueOrNot : Result)
    (newStatus : SolrCloudStatus) (result : Result) (t t' : list Call) :
  Reconcile_tls instance requeueOrNot newStatus t =
    (Return (result, None), t') ->
  exists wait,
    result = set_RequeueAfter wait requeueOrNot /\
    (wait = 2 * Second \/ wait = 5 * Second \/ wait = 30 * Second).
Proof.
  intros Hrun. unfold Reconcile_tls in Hrun.
  unfold bind, return_, pure, Get_Secret in Hrun.
  repeat case_match; simplify_eq; eauto;
    match goal with
    | H : reconcileAutoCreateTLS _ _ = (Return _, _) |- _ =>
        by apply func_no_return in H
    | H : setUrlSchemeClusterProperty _ _ = (Return _, _) |- _ =>
        by apply func_no_return in H
    end.
Qed.
End TlsStep.

(* ================================================================== *)
(** ** The end of the pass *)

(** The calls of a run of a block that issues calls of one sort. *)
Lemma issues_run {R A} (P : Call -> Prop) (m : M R A) (t t' : list Call)
    (o : Outcome R A) :
  issues P m -> m t = (o, t') -> exists calls, t' = t ++ calls /\ Forall P calls.
Proof.
  intros Hissues Hrun. destruct (Hissues t) as (o' & calls & Heq & Hcalls).
  rewrite Heq in Hrun. injection Hrun as _ <-. eauto.
Qed.

Section PassSteps.
Context {env : Environment} {settings : Settings}
        {collaborators : Collaborators}.

(** The steps of the pass other than the managed update and the
    write-back delete no pod and write no status. *)
Lemma Reconcile_front_quiet (P : Call -> Prop) (req : Request) :
  (forall c, isPodDeletion c = false -> isStatusUpdate c = false -> P c) ->
  issues P (Reconcile_front req).
Proof.
  intros HP. unfold_front. repeat issues_step; by apply HP.
Qed.

Lemma Reconcile_statefulSet_quiet (P : Call -> Prop) (l : Locals) :
  (forall c, isPodDeletion c = false -> isStatusUpdate c = false -> P c) ->
  issues P (Reconcile_statefulSet l).
Proof. intros HP. apply Reconcile_statefulSet_issues; intros; by apply HP. Qed.

Lemma Reconcile_storageFinalizer_quiet (P : Call -> Prop)
    (instance : SolrCloud) (pvcLabelSelector : gmap string string) :
  (forall c, isPodDeletion c = false -> isStatusUpdate c = false -> P c) ->
  issues P (Reconcile_storageFinalizer instance pvcLabelSelector).
Proof.
  intros HP.
  unfold Reconcile_storageFinalizer, reconcileStorageFinalizer,
    cleanupOrphanPVCs, cleanUpAllPVCs, getPVCList, deletePVC.
  repeat issues_step; by apply HP.
Qed.

Lemma reconcileCloudStatus_quiet (P : Call -> Prop) (instance : SolrCloud)
    (newStatus : SolrCloudStatus) (statefulSetStatus : StatefulSetStatus) :
  (forall c, isPodDeletion c = false -> isStatusUpdate c = false -> P c) ->
  issues (R:=Returned) P
    (reconcileCloudStatus instance newStatus statefulSetStatus).
Proof.
  intros HP. unfold reconcileCloudStatus, statusLoopBody.
  repeat issues_step; by apply HP.
Qed.

Lemma Reconcile_managedUpdate_writes_no_status (instance : SolrCloud)
    (newStatus : SolrCloudStatus) (requeueOrNot : Result)
    (status : CloudStatus) :
  issues (fun c => isStatusUpdate c = false)
    (Reconcile_managedUpdate instance newStatus requeueOrNot status).
Proof.
  unfold Reconcile_managedUpdate, deletePods. repeat issues_step; done.
Qed.

Lemma Reconcile_ingress_quiet (P : Call -> Prop) (instance : SolrCloud)
    (solrNodeNames : list string) (requeueOrNot : Result) :
  (forall c, isPodDeletion c = false -> isStatusUpdate c = false -> P c) ->
  issues P (Reconcile_ingress instance solrNodeNames requeueOrNot).
Proof.
  intros HP. unfold Reconcile_ingress. repeat issues_step; by apply HP.
Qed.

(** The steps after the managed update end the pass with the requeue
    that the managed update has left, and delete no pod. *)
Lemma Reconcile_end_run {R} (instance : SolrCloud)
    (solrNodeNames : list string) (newStatus : SolrCloudStatus)
    (requeueOrNot : Result) (t : list Call) :
  exists err calls,
    func (R':=R)
      (let* _ := Reconcile_ingress instance solrNodeNames requeueOrNot in
       Reconcile_statusWriteBack instance newStatus requeueOrNot) t =
      (Next (requeueOrNot, err), t ++ calls) /\
    Forall (fun c => isPodDeletion c = false) calls.
Proof.
  unfold Reconcile_ingress, Reconcile_statusWriteBack.
  repeat run_step; run_end; by repeat constructor.
Qed.

(** The storage finalizer and the steps before the StatefulSet leave the
    status of the object as it is. *)
Lemma Reconcile_storageFinalizer_status (instance instance' : SolrCloud)
    (pvcLabelSelector : gmap string string) (t t' : list Call) :
  Reconcile_storageFinalizer instance pvcLabelSelector t =
    (Next instance', t') ->
  Status instance' = Status instance.
Proof.
  unfold Reconcile_storageFinalizer, reconcileStorageFinalizer, func, bind,
    return_, pure, Update, write.
  intros Hrun. repeat case_match; simplify_eq; try reflexivity;
    match goal with
    | H : cleanupOrphanPVCs _ _ _ = (Return _, _) |- _ =>
        by apply func_no_return in H
    | H : cleanUpAllPVCs _ _ _ = (Return _, _) |- _ =>
        by apply func_no_return in H
    end.
Qed.

Lemma Reconcile_tls_status (instance instance' : SolrCloud)
    (requeueOrNot : Result) (newStatus newStatus' : SolrCloudStatus)
    (needs : bool) (t t' : list Call) :
  Reconcile_tls instance requeueOrNot newStatus t =
    (Next (instance', newStatus', needs), t') ->
  Status instance' = Status instance.
Proof.
  unfold Reconcile_tls, bind, return_, pure. intros Hrun.
  repeat case_match; simplify_eq; reflexivity.
Qed.

Lemma Reconcile_resources_status (instance : SolrCloud) (l : Locals)
    (t t' : list Call) :
  Reconcile_resources instance t = (Next l, t') ->
  Status (loc_instance l) = Status instance.
Proof.
  unfold Reconcile_resources, bind, return_, pure. intros Hrun.
  repeat case_match; simplify_eq; simpl;
    eauto using Reconcile_tls_status.
Qed.

(** The object that the front of the pass hands on has the status of the
    object read, as the defaults have left it. *)
Lemma Reconcile_front_status (req : Request) (l : Locals)
    (t t0 : list Call) :
  Reconcile_front req t = (Next l, t0) ->
  exists found defaulted,
    get_SolrCloud t (req_NamespacedName req) = inl found /\
    WithDefaults found IngressBaseUrl = (false, defaulted) /\
    Status (loc_instance l) = Status defaulted.
Proof.
  unfold Reconcile_front, bind.
  destruct (Reconcile_defaults req t) as [[instance|r|] t'] eqn:Hdefaults;
    try discriminate.
  intros Hresources.
  apply Reconcile_defaults_next in Hdefaults as (_ & found & Hget & Hwith).
  apply Reconcile_resources_status in Hresources. eauto.
Qed.
End PassSteps.

Section EndOfThePass.
Context {env : Environment} {settings : Settings}
        {collaborators : Collaborators}.

(** The calls of a pass up to the list of the pods delete no pod and
    write no status. *)
Lemma Reconcile_before_pods (P : Call -> Prop) (req : Request) (l : Locals)
    (t t0 t1 t2 : list Call) (pvcLabelSelector : gmap string string)
    (statefulSetStatus : StatefulSetStatus) (instance : SolrCloud) :
  (forall c, isPodDeletion c = false -> isStatusUpdate c = false -> P c) ->
  Reconcile_front req t = (Next l, t0) ->
  Reconcile_statefulSet l t0 =
    (Next (pvcLabelSelector, statefulSetStatus), t1) ->
  Reconcile_storageFinalizer (loc_instance l) pvcLabelSelector t1 =
    (Next instance, t2) ->
  exists before, t2 = t ++ before /\ Forall P before.
Proof.
  intros HP Hfront Hstep Hfinalizer.
  apply (issues_run P) in Hfront as (c0 & -> & H0);
    [|by apply Reconcile_front_quiet].
  apply (issues_run P) in Hstep as (c1 & -> & H1);
    [|by apply Reconcile_statefulSet_quiet].
  apply (issues_run P) in Hfinalizer as (c2 & -> & H2);
    [|by apply Reconcile_storageFinalizer_quiet].
  exists (c0 ++ c1 ++ c2). rewrite !app_assoc. split; [done|].
  rewrite <- app_assoc. by repeat apply Forall_app_2.
Qed.

(** C3.  Under the managed update strategy, a pass that comes to list
    the pods deletes every out-of-date pod whose solr container has not
    started, whatever the update selector answers; it deletes an
    out-of-date pod whose container has started only if the selector has
    chosen it; and it deletes a pod only on the condition that the UID
    of the pod is still the one read. *)
Theorem unstarted_pods_always_deleted {R} (req : Request) (l : Locals)
    (t t0 t1 t2 : list Call) (pvcLabelSelector : gmap string string)
    (statefulSetStatus : StatefulSetStatus) (instance : SolrCloud)
    (pods : list Pod) (replicas : Z) :
  Reconcile_front req t = (Next l, t0) ->
  Reconcile_statefulSet l t0 =
    (Next (pvcLabelSelector, statefulSetStatus), t1) ->
  Reconcile_storageFinalizer (loc_instance l) pvcLabelSelector t1 =
    (Next instance, t2) ->
  String.eqb (UpdateStrategy_Method (Spec instance)) ManagedUpdate = true ->
  list_Pods t2 (Namespace instance) (podSelector instance) = inl pods ->
  Replicas (Spec instance) = Some replicas ->
  wellFormedPods pods ->
  len pods < 2 ^ 63 ->
  exists o calls status t3,
    Reconcile (R:=R) req t = (o, t ++ calls) /\
    reconcileCloudStatus (R:=Returned) instance (loc_newStatus l)
      statefulSetStatus t2 = (Next status, t3) /\
    let updateRevision := sts_UpdateRevision statefulSetStatus in
    let chosen :=
      fst (DeterminePodsSafeToUpdate t3 instance (cs_outOfDatePods status)
             replicas (ReadyReplicas (cs_newStatus status))
             (cs_availableUpdatedPodCount status)
             (len (cs_outOfDatePodsNotStarted status))) in
    (forall p, p ∈ pods -> outOfDateNotStarted updateRevision p = true ->
               podDeletion p ∈ calls) /\
    (forall p, p ∈ pods -> outOfDateStarted updateRevision p = true ->
               podDeletion p ∈ calls -> p ∈ chosen) /\
    (forall p uid, CDelete (OPod p) uid ∈ calls -> uid = Some (pod_UID p)).
Proof.
  intros Hfront Hstep Hfinalizer Hmanaged Hlist Hreplicas Hpods Hlen.
  destruct (Reconcile_before_pods (fun c => isPodDeletion c = false)
              req l t t0 t1 t2 _ _ _ ltac:(done) Hfront Hstep Hfinalizer)
    as (before & -> & Hbefore).
  destruct (managedUpdate_deletes_unstarted instance (loc_newStatus l)
              statefulSetStatus (loc_requeueOrNot l) _ pods replicas
              Hmanaged Hlist Hreplicas Hpods Hlen)
    as (status & t3 & requeue & deletions & Hstatus & Herr & Hupdate
        & HnotStarted & Hstarted & Honly).
  apply (issues_run (fun c => isPodDeletion c = false)) in Hstatus
    as Hlisted; [|by apply reconcileCloudStatus_quiet].
  destruct Hlisted as (listed & -> & Hlisted).
  destruct (Reconcile_end_run (R:=R) instance (loc_solrNodeNames l)
              (cs_newStatus status) requeue
              (((t ++ before) ++ listed) ++ deletions))
    as (err & after & Hend & Hafter).
  assert (Hrun : Reconcile (R:=R) req t =
                 (Next (requeue, err),
                  t ++ before ++ listed ++ deletions ++ after)).
  { rewrite (Reconcile_after_front _ _ _ _ Hfront).
    unfold Reconcile_from_StatefulSet.
    rewrite (func_bind_next _ _ _ _ _ Hstep). cbv beta iota zeta.
    rewrite (func_bind_next _ _ _ _ _ Hfinalizer).
    rewrite (func_bind_next _ _ _ _ _ Hstatus). rewrite Herr.
    erewrite func_bind_next; [|reflexivity].
    rewrite (func_bind_next _ _ _ _ _ Hupdate).
    rewrite Hend. by rewrite <- !app_assoc. }
  assert (Hdeleted : forall p uid,
            CDelete (OPod p) uid ∈ before ++ listed ++ deletions ++ after ->
            CDelete (OPod p) uid ∈ deletions).
  { intros p uid Hin.
    repeat (apply elem_of_app in Hin as [Hin|Hin]); try done;
      match goal with
      | H : Forall _ ?calls, Hin : _ ∈ ?calls |- _ =>
          rewrite Forall_forall in H; by apply H in Hin
      end. }
  eexists _, _, status, _. split; [exact Hrun|]. split; [exact Hstatus|].
  cbv zeta. split; [|split].
  - intros p Hp Hthis. rewrite !elem_of_app. right. right. left.
    by apply HnotStarted.
  - intros p Hp Hthis Hin. apply Hstarted; [done..|]. by apply Hdeleted.
  - intros p uid Hin. apply Hdeleted, Honly in Hin as (q & Heq).
    by injection Heq as -> ->.
Qed.

(** C6.  At the end of a pass, that is after the Ingress step, the
    status is written back if and only if the status that
    [reconcileCloudStatus] has computed differs from the status of the
    object read, as the defaults have left it; the write is then the
    last call of the pass and the only write of a status, and equal
    statuses give no write. *)
Theorem status_written_iff_changed {R} (req : Request) (l : Locals)
    (t t0 t1 t2 t3 t4 t5 : list Call) (pvcLabelSelector : gmap string string)
    (statefulSetStatus : StatefulSetStatus) (instance : SolrCloud)
    (status : CloudStatus) (requeueOrNot : Result) :
  Reconcile_front req t = (Next l, t0) ->
  Reconcile_statefulSet l t0 =
    (Next (pvcLabelSelector, statefulSetStatus), t1) ->
  Reconcile_storageFinalizer (loc_instance l) pvcLabelSelector t1 =
    (Next instance, t2) ->
  reconcileCloudStatus (R:=Returned) instance (loc_newStatus l)
    statefulSetStatus t2 = (Next status, t3) ->
  cs_err status = None ->
  Reconcile_managedUpdate instance (cs_newStatus status)
    (loc_requeueOrNot l) status t3 = (Next requeueOrNot, t4) ->
  Reconcile_ingress instance (loc_solrNodeNames l) requeueOrNot t4 =
    (Next tt, t5) ->
  exists found defaulted o calls,
    get_SolrCloud t (req_NamespacedName req) = inl found /\
    WithDefaults found IngressBaseUrl = (false, defaulted) /\
    Reconcile (R:=R) req t = (o, t ++ calls) /\
    let newStatus := cs_newStatus status in
    let writeBack :=
      CStatusUpdate (OSolrCloud (set_Status newStatus instance)) in
    (Status defaulted = newStatus ->
       (forall obj, CStatusUpdate obj ∉ calls) /\
       o = Next (requeueOrNot, None)) /\
    (Status defaulted <> newStatus ->
       (exists before,
          calls = before ++ [writeBack] /\
          forall obj, CStatusUpdate obj ∉ before) /\
       o = Next (requeueOrNot, write_error t5 writeBack)) /\
    ((exists obj, CStatusUpdate obj ∈ calls) <->
     Status defaulted <> newStatus).
Proof.
  intros Hfront Hstep Hfinalizer Hstatus Herr Hupdate Hingress.
  destruct (Reconcile_front_status _ _ _ _ Hfront)
    as (found & defaulted & Hget & Hwith & Hread).
  apply Reconcile_storageFinalizer_status in Hfinalizer as Hkept.
  assert (Hrun : Reconcile (R:=R) req t =
                 func (Reconcile_statusWriteBack instance (cs_newStatus status)
                         requeueOrNot) t5).
  { rewrite (Reconcile_after_front _ _ _ _ Hfront).
    unfold Reconcile_from_StatefulSet.
    rewrite (func_bind_next _ _ _ _ _ Hstep). cbv beta iota zeta.
    rewrite (func_bind_next _ _ _ _ _ Hfinalizer).
    rewrite (func_bind_next _ _ _ _ _ Hstatus). rewrite Herr.
    erewrite func_bind_next; [|reflexivity].
    rewrite (func_bind_next _ _ _ _ _ Hupdate).
    by rewrite (func_bind_next _ _ _ _ _ Hingress). }
  set (quiet := fun c => isStatusUpdate c = false).
  destruct (Reconcile_before_pods quiet req l t t0 t1 t2 _ _ _
              ltac:(done) Hfront Hstep Hfinalizer)
    as (c2 & -> & H2).
  apply (issues_run quiet) in Hstatus as (c3 & -> & H3);
    [|by apply reconcileCloudStatus_quiet].
  apply (issues_run quiet) in Hupdate as (c4 & -> & H4);
    [|by apply Reconcile_managedUpdate_writes_no_status].
  apply (issues_run quiet) in Hingress as (c5 & -> & H5);
    [|by apply Reconcile_ingress_quiet].
  set (before := c2 ++ c3 ++ c4 ++ c5).
  assert (Hbefore : forall obj, CStatusUpdate obj ∉ before).
  { intros obj Hin. unfold before in Hin.
    repeat (apply elem_of_app in Hin as [Hin|Hin]);
      match goal with
      | H : Forall _ ?calls, Hin : _ ∈ ?calls |- _ =>
          rewrite Forall_forall in H; by apply H in Hin
      end. }
  assert (Htrace : (((t ++ c2) ++ c3) ++ c4) ++ c5 = t ++ before).
  { unfold before. by rewrite <- !app_assoc. }
  rewrite Htrace in *. clear Htrace.
  destruct (statusWriteBack_iff_changed instance (cs_newStatus status)
              requeueOrNot (t ++ before))
    as (o & written & Hwritten & Hsame & Hchanged & _).
  exists found, defaulted. rewrite <- Hread, <- Hkept.
  destruct (decide (Status instance = cs_newStatus status)) as [Heq|Hneq].
  - destruct (Hsame Heq) as [-> ->].
    exists (Next (requeueOrNot, None)), before. do 2 (split; [done|]).
    split. { rewrite Hrun. unfold func. rewrite Hwritten.
             by rewrite app_nil_r. }
    cbv zeta. split; [done|]. split; [done|]. split; [|done].
    intros (obj & Hin). by destruct (Hbefore obj).
  - destruct (Hchanged Hneq) as [-> ->].
    eexists (Next (requeueOrNot, _)), (before ++ [_]).
    do 2 (split; [done|]).
    split. { rewrite Hrun. unfold func. rewrite Hwritten.
             by rewrite app_assoc. }
    cbv zeta. split; [done|]. split; [eauto|]. split; [done|].
    intros _. eexists. apply elem_of_app. right. apply list_elem_of_here.
Qed.

(** The requeue of a pass with a managed update.  In a pass that has
    listed the pods and found one out of date, the pods that have not
    started are deleted first, then those that the selector has chosen,
    and no other pod is deleted.  The pass ends with a requeue whose
    delay is tightened to at most 15 seconds when the selector asks to
    retry later or when the deletion made last has failed, and only
    then: the failure of an earlier deletion leaves the requeue as it
    was. *)
Theorem managed_update_requeue {R} (req : Request) (l : Locals)
    (t t0 t1 t2 t3 : list Call) (pvcLabelSelector : gmap string string)
    (statefulSetStatus : StatefulSetStatus) (instance : SolrCloud)
    (status : CloudStatus) (replicas : Z) :
  Reconcile_front req t = (Next l, t0) ->
  Reconcile_statefulSet l t0 =
    (Next (pvcLabelSelector, statefulSetStatus), t1) ->
  Reconcile_storageFinalizer (loc_instance l) pvcLabelSelector t1 =
    (Next instance, t2) ->
  reconcileCloudStatus (R:=Returned) instance (loc_newStatus l)
    statefulSetStatus t2 = (Next status, t3) ->
  cs_err status = None ->
  String.eqb (UpdateStrategy_Method (Spec instance)) ManagedUpdate = true ->
  Replicas (Spec instance) = Some replicas ->
  0 < len (cs_outOfDatePods status) + len (cs_outOfDatePodsNotStarted status)
    < 2 ^ 63 ->
  let answer :=
    DeterminePodsSafeToUpdate t3 instance (cs_outOfDatePods status) replicas
      (ReadyReplicas (cs_newStatus status))
      (cs_availableUpdatedPodCount status)
      (len (cs_outOfDatePodsNotStarted status)) in
  let podsToUpdate := cs_outOfDatePodsNotStarted status ++ fst answer in
  let retryLater := snd answer in
  let requeueOrNot := loc_requeueOrNot l in
  exists requeue passErr err before after,
    Reconcile (R:=R) req t =
      (Next (requeue, passErr),
       t ++ before ++ (podDeletion <$> podsToUpdate) ++ after) /\
    t3 = t ++ before /\
    Forall (fun c => isPodDeletion c = false) before /\
    Forall (fun c => isPodDeletion c = false) after /\
    ((podsToUpdate = [] /\ err = None) \/
     exists front last,
       podsToUpdate = front ++ [last] /\
       err = write_error (t3 ++ (podDeletion <$> front)) (podDeletion last)) /\
    (err <> None \/ retryLater = true ->
     0 < RequeueAfter requeue <= Second * 15 /\
     (0 < RequeueAfter requeueOrNot <= Second * 15 ->
      requeue = requeueOrNot)) /\
    (err = None -> retryLater = false -> requeue = requeueOrNot).
Proof.
  intros Hfront Hstep Hfinalizer Hstatus Herr Hmanaged Hreplicas Hsome
    answer podsToUpdate retryLater requeueOrNot.
  destruct (managedUpdate_requeue instance (cs_newStatus status)
              requeueOrNot status t3 replicas Hmanaged Hreplicas Hsome)
    as (requeue & err & Hupdate & Hlast & Hbounds & Hunchanged).
  fold answer in Hupdate, Hlast, Hbounds, Hunchanged.
  fold podsToUpdate in Hupdate, Hlast. fold retryLater in Hbounds, Hunchanged.
  destruct (Reconcile_end_run (R:=R) instance (loc_solrNodeNames l)
              (cs_newStatus status) requeue
              (t3 ++ (podDeletion <$> podsToUpdate)))
    as (passErr & after & Hend & Hafter).
  assert (Hrun : Reconcile (R:=R) req t =
                 (Next (requeue, passErr),
                  (t3 ++ (podDeletion <$> podsToUpdate)) ++ after)).
  { rewrite (Reconcile_after_front _ _ _ _ Hfront).
    unfold Reconcile_from_StatefulSet.
    rewrite (func_bind_next _ _ _ _ _ Hstep). cbv beta iota zeta.
    rewrite (func_bind_next _ _ _ _ _ Hfinalizer).
    rewrite (func_bind_next _ _ _ _ _ Hstatus). rewrite Herr.
    erewrite func_bind_next; [|reflexivity].
    rewrite (func_bind_next _ _ _ _ _ Hupdate). exact Hend. }
  set (quiet := fun c => isPodDeletion c = false).
  destruct (Reconcile_before_pods quiet req l t t0 t1 t2 _ _ _
              ltac:(done) Hfront Hstep Hfinalizer)
    as (c2 & -> & H2).
  apply (issues_run quiet) in Hstatus as (c3 & Ht3 & H3);
    [|by apply reconcileCloudStatus_quiet].
  exists requeue, passErr, err, (c2 ++ c3), after.
  assert (Htrace : t3 = t ++ c2 ++ c3) by by rewrite Ht3, <- app_assoc.
  split. { rewrite Hrun, Htrace. by rewrite <- !app_assoc. }
  split; [done|]. split; [by apply Forall_app_2|]. done.
Qed.
End EndOfThePass.

(* ================================================================== *)
(** ** The properties on concrete clusters *)

(** C1: a use of [orphan_claims_deleted_iff].  A cloud of three replicas,
    all ready, with four claims: the claim of ordinal 3 is deleted, the
    claim of ordinal 2 is kept. *)
Lemma orphan_claims_deleted_iff_witness :
  let claims := [exampleClaim "data-example-0"; exampleClaim "data-example-1";
                 exampleClaim "data-example-2"; exampleClaim "data-example-3"] in
  let cloud := exampleCloud 3 3 3 in
  exists calls,
    reconcileStorageFinalizer
      (env := exampleEnvironment None [] claims (fun _ => false) ([], false))
      (collaborators := exampleCollaborators) (R := unit)
      cloud {[ "solr-cloud" := "example" ]} [] =
      (Next (cloud, None), calls) /\
    claimDeletion (exampleClaim "data-example-3") ∈ calls /\
    claimDeletion (exampleClaim "data-example-2") ∉ calls.
Proof.
  intros claims cloud.
  destruct (orphan_claims_deleted_iff
              (env := exampleEnvironment None [] claims (fun _ => false)
                        ([], false))
              (collaborators := exampleCollaborators) (R := unit)
              cloud {[ "solr-cloud" := "example" ]} [] 3 claims)
    as (calls & Hrun & _ & Hiff).
  - reflexivity.
  - reflexivity.
  - vm_compute. constructor.
  - reflexivity.
  - reflexivity.
  - exists ([] ++ calls). split; [exact Hrun|]. split.
    + apply Hiff.
      * vm_compute. do 3 right. left.
      * split; [reflexivity|]. split; [reflexivity|].
        exists 3. split; [reflexivity|lia].
    + intros Hin. apply Hiff in Hin.
      * destruct Hin as (_ & _ & i & Hi & Hle).
        vm_compute in Hi. injection Hi as <-. lia.
      * vm_compute. do 2 right. left.
Defined.

(** C1 as stated fails.  A cloud of three replicas, all ready, with the
    claims of ordinals 0, 1 and 3: the claim of ordinal 3 is orphaned,
    yet the cleanup lists the claims and deletes none, because the claims
    are not more than the replicas. *)
Lemma orphan_claim_survives_cleanup :
  let orphan := exampleClaim "data-example-3" in
  let claims := [exampleClaim "data-example-0"; exampleClaim "data-example-1";
                 orphan] in
  let cloud := exampleCloud 3 3 3 in
  deletesStorage (collaborators := exampleCollaborators) cloud = true /\
  IsZero (DeletionTimestamp cloud) = true /\
  ReadyReplicas (Status cloud) = status_Replicas (Status cloud) /\
  Replicas (Spec cloud) = Some 3 /\
  ordinalIndex (pvc_Name orphan) = Some 3 /\
  reconcileStorageFinalizer
    (env := exampleEnvironment None [] claims (fun _ => false) ([], false))
    (collaborators := exampleCollaborators) (R := unit)
    cloud {[ "solr-cloud" := "example" ]} [] =
    (Next (cloud, None),
     [CList KPersistentVolumeClaim "default" {[ "solr-cloud" := "example" ]}]).
Proof. vm_compute. repeat split. Qed.


(** C3: a use of [unstarted_pods_always_deleted].  The selector chooses
    no pod, and still the pass deletes the pod that has not started. *)
Lemma unstarted_pods_always_deleted_witness :
  let pods := [unstartedPod; startedPod; currentPod] in
  let world :=
    exampleCluster (Some (exampleCloud 3 3 2))
      (Some (exampleStatefulSet 3 2 "new")) pods [] (fun _ => false)
      ([], false) in
  exists o calls,
    Reconcile (env := world) (settings := exampleSettings false)
      (collaborators := exampleCollaborators) (R := unit)
      exampleRequest [] = (o, [] ++ calls) /\
    podDeletion unstartedPod ∈ calls /\
    podDeletion startedPod ∉ calls.
Proof.
  intros pods world.
  edestruct (unstarted_pods_always_deleted
               (env := world) (settings := exampleSettings false)
               (collaborators := exampleCollaborators) (R := unit)
               exampleRequest)
    with (t := @nil Call) (pods := pods) (replicas := 3)
    as (o & calls & status & t3 & Hrun & Hstatus & HnotStarted & Hstarted
        & _).
  - vm_compute. reflexivity.
  - vm_compute. reflexivity.
  - vm_compute. reflexivity.
  - vm_compute. reflexivity.
  - vm_compute. reflexivity.
  - vm_compute. reflexivity.
  - intros p Hin _.
    repeat (apply elem_of_cons in Hin as [->|Hin]; [discriminate|]).
    by apply not_elem_of_nil in Hin.
  - vm_compute. reflexivity.
  - exists o, calls. split; [exact Hrun|]. split.
    + apply HnotStarted; [left|reflexivity].
    + intros Hin. apply Hstarted in Hin.
      * by apply not_elem_of_nil in Hin.
      * right. left.
      * reflexivity.
Defined.

(** C4: a use of [replicas_from_statefulSet_ready_from_pods]. *)
Lemma replicas_from_statefulSet_ready_from_pods_witness :
  let pods := [unstartedPod; startedPod; currentPod] in
  let statefulSet := exampleStatefulSet 3 2 "new" in
  exists status t',
    reconcileCloudStatus
      (env := exampleEnvironment (Some statefulSet) pods []
                (fun _ => false) ([], false))
      (collaborators := exampleCollaborators) (R := unit)
      (exampleCloud 3 3 2) SolrCloudStatus_zero (ss_Status statefulSet) [] =
      (Next status, t') /\
    status_Replicas (cs_newStatus status) = 3 /\
    ReadyReplicas (cs_newStatus status) = 2.
Proof.
  intros pods statefulSet.
  destruct (replicas_from_statefulSet_ready_from_pods
              (env := exampleEnvironment (Some statefulSet) pods []
                        (fun _ => false) ([], false))
              (collaborators := exampleCollaborators) (R := unit)
              (exampleCloud 3 3 2) SolrCloudStatus_zero
              (ss_Status statefulSet) [] pods 3)
    as (status & t' & Hrun & Hreplicas & Hready).
  - reflexivity.
  - reflexivity.
  - intros p Hin _.
    repeat (apply elem_of_cons in Hin as [->|Hin]; [discriminate|]).
    by apply not_elem_of_nil in Hin.
  - exists status, t'. split; [exact Hrun|]. split; [exact Hreplicas|].
    exact Hready.
Defined.

(** C4 as stated fails.  The status of the StatefulSet counts three ready
    replicas; one ready pod is observed; the new status counts one ready
    replica. *)
Lemma ready_replicas_recomputed_from_pods :
  let statefulSetStatus := ss_Status (exampleStatefulSet 3 3 "new") in
  exists status t',
    reconcileCloudStatus
      (env := exampleEnvironment None [currentPod] [] (fun _ => false)
                ([], false))
      (collaborators := exampleCollaborators) (R := unit)
      (exampleCloud 3 3 3) SolrCloudStatus_zero statefulSetStatus [] =
      (Next status, t') /\
    sts_ReadyReplicas statefulSetStatus = 3 /\
    ReadyReplicas (cs_newStatus status) = 1.
Proof. eexists _, _. vm_compute. repeat split. Qed.

(** C5: a use of [running_version_is_first_listed].  The pods are listed
    in the order of their names and the first runs another version than
    the tag. *)
Lemma running_version_is_first_listed_witness :
  let pods := [unstartedPod; startedPod; currentPod] in
  let statefulSet := exampleStatefulSet 3 2 "new" in
  exists status t',
    reconcileCloudStatus
      (env := exampleEnvironment (Some statefulSet) pods []
                (fun _ => false) ([], false))
      (collaborators := exampleCollaborators) (R := unit)
      (exampleCloud 3 3 2) SolrCloudStatus_zero (ss_Status statefulSet) [] =
      (Next status, t') /\
    TargetVersion (cs_newStatus status) = "8.9.0" /\
    Version (cs_newStatus status) = "8.8.0".
Proof.
  intros pods statefulSet.
  destruct (running_version_is_first_listed
              (env := exampleEnvironment (Some statefulSet) pods []
                        (fun _ => false) ([], false))
              (collaborators := exampleCollaborators) (R := unit)
              (exampleCloud 3 3 2) SolrCloudStatus_zero
              (ss_Status statefulSet) [] pods 3)
    as (status & t' & Hrun & Hversions).
  - reflexivity.
  - reflexivity.
  - intros p Hin _.
    repeat (apply elem_of_cons in Hin as [->|Hin]; [discriminate|]).
    by apply not_elem_of_nil in Hin.
  - exists status, t'. split; [exact Hrun|]. exact Hversions.
Defined.

(** C5 as stated fails.  The list call returns the pod "example-solrcloud-1",
    which runs 8.8.0, before the pod "example-solrcloud-0", which runs
    8.7.0.  In the order of the pod names, in which the nodes of the
    status stand, the first version other than the tag is 8.7.0; the
    version of the status is 8.8.0. *)
Lemma running_version_not_first_by_name :
  let later := examplePod "example-solrcloud-1" "new" "solr:8.8.0" true
                 (Some true) in
  let earlier := examplePod "example-solrcloud-0" "new" "solr:8.7.0" true
                   (Some true) in
  exists status t',
    reconcileCloudStatus
      (env := exampleEnvironment None [later; earlier] [] (fun _ => false)
                ([], false))
      (collaborators := exampleCollaborators) (R := unit)
      (exampleCloud 2 2 2) SolrCloudStatus_zero
      (ss_Status (exampleStatefulSet 2 2 "new")) [] =
      (Next status, t') /\
    SolrImage_Tag (Spec (exampleCloud 2 2 2)) = "8.9.0" /\
    (fun node => (node_Name node, node_Version node)) <$>
      default [] (SolrNodes (cs_newStatus status)) =
      [("example-solrcloud-0", "8.7.0"); ("example-solrcloud-1", "8.8.0")] /\
    TargetVersion (cs_newStatus status) = "8.9.0" /\
    Version (cs_newStatus status) = "8.8.0".
Proof. eexists _, _. vm_compute. repeat split. Qed.

(** C6: a use of [status_written_iff_changed], on two clouds.  The
    status of the first cloud counts three ready replicas while no pod
    runs: the pass ends with the write of the new status.  The status of
    the second is the one that the pass computes: the pass writes no
    status. *)
Lemma status_written_iff_changed_witness :
  (exists o before,
     Reconcile (env := idleCluster (exampleCloud 3 3 3))
       (settings := exampleSettings false)
       (collaborators := exampleCollaborators) (R := unit)
       exampleRequest [] =
       (o, [] ++ before ++ [CStatusUpdate (OSolrCloud settledCloud)]) /\
     forall obj, CStatusUpdate obj ∉ before) /\
  (exists o calls,
     Reconcile (env := idleCluster settledCloud)
       (settings := exampleSettings false)
       (collaborators := exampleCollaborators) (R := unit)
       exampleRequest [] = (o, [] ++ calls) /\
     forall obj, CStatusUpdate obj ∉ calls).
Proof.
  split.
  - edestruct (status_written_iff_changed
                 (env := idleCluster (exampleCloud 3 3 3))
                 (settings := exampleSettings false)
                 (collaborators := exampleCollaborators) (R := unit)
                 exampleRequest)
      with (t := @nil Call)
      as (found & defaulted & o & calls & Hget & Hwith & Hrun & _ & Hchanged
          & _).
    + vm_compute. reflexivity.
    + vm_compute. reflexivity.
    + vm_compute. reflexivity.
    + vm_compute. reflexivity.
    + vm_compute. reflexivity.
    + vm_compute. reflexivity.
    + vm_compute. reflexivity.
    + injection Hget as <-. injection Hwith as <-.
      destruct Hchanged as [(before & -> & Hbefore) _].
      { intros Heq. apply (f_equal ReadyReplicas) in Heq. discriminate Heq. }
      exists o, before. split; [exact Hrun|exact Hbefore].
  - edestruct (status_written_iff_changed
                 (env := idleCluster settledCloud)
                 (settings := exampleSettings false)
                 (collaborators := exampleCollaborators) (R := unit)
                 exampleRequest)
      with (t := @nil Call)
      as (found & defaulted & o & calls & Hget & Hwith & Hrun & Hsame & _).
    + vm_compute. reflexivity.
    + vm_compute. reflexivity.
    + vm_compute. reflexivity.
    + vm_compute. reflexivity.
    + vm_compute. reflexivity.
    + vm_compute. reflexivity.
    + vm_compute. reflexivity.
    + injection Hget as <-. injection Hwith as <-.
      destruct Hsame as [Hnone _]; [reflexivity|].
      exists o, calls. split; [exact Hrun|exact Hnone].
Defined.

(** C7 fails on the code.  Two out-of-date pods that have not started are
    deleted; the deletion of the first fails, that of the second
    succeeds, and the selector asks for no retry.  The pass ends with no
    error and with no requeue at all. *)
Example failed_deletion_leaves_no_requeue :
  let first := unstartedPod in
  let second :=
    examplePod "example-solrcloud-1" "old" "solr:8.8.0" false (Some false) in
  let world :=
    exampleCluster (Some (exampleCloud 2 2 0))
      (Some (exampleStatefulSet 2 0 "new")) [first; second]
      [] (failsToDelete "example-solrcloud-0") ([], false) in
  exists before after,
    Reconcile (env := world)
      (settings := exampleSettings false)
      (collaborators := exampleCollaborators) (R := unit)
      exampleRequest [] =
      (Next ({| Requeue := false; RequeueAfter := 0 |}, None),
       before ++ [podDeletion first; podDeletion second] ++ after) /\
    write_error (Environment := world) before (podDeletion first) =
      Some (OtherError "connection refused") /\
    write_error (Environment := world) (before ++ [podDeletion first])
      (podDeletion second) = None.
Proof.
  eexists [_; _; _; _; _; _; _; _; _], [_]. vm_compute. repeat split.
Qed.

(** C8: a use of [reconcileZk_configuration_errors], in its two cases of
    a bad request and with connection information. *)
Lemma reconcileZk_configuration_errors_witness :
  let run := fun zkCRD zkRef =>
    reconcileZk
      (env := exampleEnvironment None [] [] (fun _ => false) ([], false))
      (settings := exampleSettings zkCRD)
      (collaborators := exampleCollaborators) (R := unit)
      (exampleCloudWithZookeeper zkRef) SolrCloudStatus_zero [] in
  let info := {| InternalConnectionString := "zk:2181";
                 ExternalConnectionString := None; ChRoot := "/" |} in
  let pzk := {| zkspec_ChRoot := "/"; zkspec_Rest := "" |} in
  run true {| ConnectionInfo := None; ProvidedZookeeper := None |} =
    (Next (SolrCloudStatus_zero,
           Some (NewBadRequest "No Zookeeper reference information provided.")),
     []) /\
  run false {| ConnectionInfo := None; ProvidedZookeeper := Some pzk |} =
    (Next (SolrCloudStatus_zero,
           Some (NewBadRequest
                   "Cannot create a Zookeeper Cluster, as the Solr Operator is not configured to use the Zookeeper CRD")),
     []) /\
  run false {| ConnectionInfo := Some info; ProvidedZookeeper := Some pzk |} =
    (Next (set_ZookeeperConnectionInfo info SolrCloudStatus_zero, None), []).
Proof.
  intros run info pzk. split; [|split].
  - destruct (reconcileZk_configuration_errors
                (env := exampleEnvironment None [] [] (fun _ => false)
                          ([], false))
                (settings := exampleSettings true)
                (collaborators := exampleCollaborators) (R := unit)
                (exampleCloudWithZookeeper
                   {| ConnectionInfo := None; ProvidedZookeeper := None |})
                SolrCloudStatus_zero [])
      as (_ & Hneither & _).
    exact (Hneither eq_refl eq_refl).
  - destruct (reconcileZk_configuration_errors
                (env := exampleEnvironment None [] [] (fun _ => false)
                          ([], false))
                (settings := exampleSettings false)
                (collaborators := exampleCollaborators) (R := unit)
                (exampleCloudWithZookeeper
                   {| ConnectionInfo := None;
                      ProvidedZookeeper := Some pzk |})
                SolrCloudStatus_zero [])
      as (_ & _ & Hdisabled & _).
    exact (Hdisabled pzk eq_refl eq_refl eq_refl).
  - destruct (reconcileZk_configuration_errors
                (env := exampleEnvironment None [] [] (fun _ => false)
                          ([], false))
                (settings := exampleSettings false)
                (collaborators := exampleCollaborators) (R := unit)
                (exampleCloudWithZookeeper
                   {| ConnectionInfo := Some info;
                      ProvidedZookeeper := Some pzk |})
                SolrCloudStatus_zero [])
      as (Hinfo & _).
    exact (Hinfo info eq_refl).
Defined.

(** C9: a use of [no_selector_no_storage_finalizer].  The connection
    string names no port, which blocks the reconciliation of the
    StatefulSet, and no StatefulSet exists. *)
Lemma no_selector_no_storage_finalizer_witness :
  exists o calls,
    Reconcile
      (env := exampleCluster (Some unresolvedCloud) None [] []
                (fun _ => false) ([], false))
      (settings := exampleSettings false)
      (collaborators := exampleCollaborators) (R := unit)
      exampleRequest [] = (o, [] ++ calls) /\
    Forall (leavesStorageAlone unresolvedCloud) calls.
Proof.
  edestruct (no_selector_no_storage_finalizer
            (env := exampleCluster (Some unresolvedCloud) None [] []
                      (fun _ => false) ([], false))
            (settings := exampleSettings false)
            (collaborators := exampleCollaborators) (R := unit)
            exampleRequest) with (t := @nil Call)
    as (o & calls & Hrun & Hcalls & _).
  - vm_compute. reflexivity.
  - vm_compute. reflexivity.
  - reflexivity.
  - exists o, calls. split; [exact Hrun|exact Hcalls].
Defined.

(** C10: a use of [storage_finalizer_error_swallowed].  The object lacks
    the finalizer and the update that adds it fails. *)
Lemma storage_finalizer_error_swallowed_witness :
  let cloud := set_Finalizers [] (exampleCloud 3 3 3) in
  exists calls,
    Reconcile
      (env := exampleCluster (Some cloud) None [] [] failsToUpdateCloud
                ([], false))
      (settings := exampleSettings false)
      (collaborators := exampleCollaborators) (R := unit)
      exampleRequest [] =
    (Next ({| Requeue := false; RequeueAfter := Second * 10 |}, None), calls).
Proof.
  intros cloud. eexists.
  eapply (storage_finalizer_error_swallowed
            (env := exampleCluster (Some cloud) None [] [] failsToUpdateCloud
                      ([], false))
            (settings := exampleSettings false)
            (collaborators := exampleCollaborators) (R := unit)
            exampleRequest) with (t := @nil Call).
  - vm_compute. reflexivity.
  - vm_compute. reflexivity.
  - vm_compute. lia.
  - vm_compute. reflexivity.
Defined.

(** A use of [Reconcile_object_unread]: no object of the name exists. *)
Lemma Reconcile_object_unread_witness :
  Reconcile
    (env := exampleEnvironment None [] [] (fun _ => false) ([], false))
    (settings := exampleSettings false)
    (collaborators := exampleCollaborators) (R := unit)
    exampleRequest [] =
  (Next (Result_zero, None),
   [] ++ [CGet KSolrCloud (req_NamespacedName exampleRequest)]).
Proof.
  exact (Reconcile_object_unread
           (env := exampleEnvironment None [] [] (fun _ => false) ([], false))
           (settings := exampleSettings false)
           (collaborators := exampleCollaborators) (R := unit)
           exampleRequest [] notFound eq_refl).
Defined.

(** A use of [Reconcile_defaults_written]: the object names no replicas,
    and the pass writes it with three. *)
Lemma Reconcile_defaults_written_witness :
  let key := req_NamespacedName exampleRequest in
  let defaulted :=
    exampleCloudWith None (exampleSpecWith (Some 3) None "Delete" None None) in
  Reconcile
    (env := exampleCluster (Some undefaultedCloud) None [] []
              (fun _ => false) ([], false))
    (settings := exampleSettings false)
    (collaborators := defaultingCollaborators) (R := unit)
    exampleRequest [] =
  (Next ({| Requeue := true; RequeueAfter := 0 |}, None),
   [] ++ [CGet KSolrCloud key; CUpdate (OSolrCloud defaulted)]).
Proof.
  intros key defaulted.
  exact (Reconcile_defaults_written
           (env := exampleCluster (Some undefaultedCloud) None [] []
                     (fun _ => false) ([], false))
           (settings := exampleSettings false)
           (collaborators := defaultingCollaborators) (R := unit)
           exampleRequest [] undefaultedCloud defaulted eq_refl eq_refl).
Defined.

(** A use of [unresolved_zookeeper_blocks_statefulSet]: the connection
    string names no port. *)
Lemma unresolved_zookeeper_blocks_statefulSet_witness :
  exists o calls,
    Reconcile
      (env := exampleCluster (Some unresolvedCloud) None [] []
                (fun _ => false) ([], false))
      (settings := exampleSettings false)
      (collaborators := exampleCollaborators) (R := unit)
      exampleRequest [] = (o, [] ++ calls) /\
    Forall (fun c => writesStatefulSet c = false) calls.
Proof.
  edestruct (unresolved_zookeeper_blocks_statefulSet
               (env := exampleCluster (Some unresolvedCloud) None [] []
                         (fun _ => false) ([], false))
               (settings := exampleSettings false)
               (collaborators := exampleCollaborators) (R := unit)
               exampleRequest) with (t := @nil Call)
    as (o & calls & Hrun & Hcalls).
  - vm_compute. reflexivity.
  - vm_compute. reflexivity.
  - exists o, calls. split; [exact Hrun|exact Hcalls].
Defined.

(** A use of [deleted_cloud_releases_storage]: the two claims of a cloud
    that is being deleted are deleted, and the finalizer is removed. *)
Lemma deleted_cloud_releases_storage_witness :
  let claims := [exampleClaim "data-example-0"; exampleClaim "data-example-1"] in
  let selector : gmap string string := {[ "solr-cloud" := "example" ]} in
  let released := set_Finalizers [] deletedCloud in
  reconcileStorageFinalizer
    (env := exampleEnvironment None [] claims (fun _ => false) ([], false))
    (collaborators := exampleCollaborators) (R := unit)
    deletedCloud selector [] =
  (Next (released, None),
   [] ++ [CList KPersistentVolumeClaim "default" selector;
          claimDeletion (exampleClaim "data-example-0");
          claimDeletion (exampleClaim "data-example-1")] ++
     [CUpdate (OSolrCloud released)]).
Proof.
  intros claims selector released.
  exact (deleted_cloud_releases_storage
           (env := exampleEnvironment None [] claims (fun _ => false)
                     ([], false))
           (collaborators := exampleCollaborators) (R := unit)
           deletedCloud selector [] eq_refl eq_refl eq_refl).
Defined.

(** A use of [retained_storage_left_alone]: the cloud retains its
    storage, and the finalizer that it carries is removed. *)
Lemma retained_storage_left_alone_witness :
  let selector : gmap string string := {[ "solr-cloud" := "example" ]} in
  let released := set_Finalizers [] retainedCloud in
  reconcileStorageFinalizer
    (env := exampleEnvironment None [] [exampleClaim "data-example-0"]
              (fun _ => false) ([], false))
    (collaborators := exampleCollaborators) (R := unit)
    retainedCloud selector [] =
  (Next (released, None), [] ++ [CUpdate (OSolrCloud released)]).
Proof.
  intros selector released.
  exact (retained_storage_left_alone
           (env := exampleEnvironment None [] [exampleClaim "data-example-0"]
                     (fun _ => false) ([], false))
           (collaborators := exampleCollaborators) (R := unit)
           retainedCloud selector [] eq_refl).
Defined.

(** A use of [existing_cluster_properties_updated]: the node holds
    properties without a URL scheme at version 7, and they are written
    back with the scheme at that version. *)
Lemma existing_cluster_properties_updated_witness :
  setUrlSchemeClusterProperty
    (env := populatedCluster None [] [] (Some "{}"))
    (collaborators := exampleCollaborators) (R := unit)
    zookeeperStatus [] =
  (Next (true, None),
   [] ++ [CZkConnect ["zk-0:2181"; "zk-1:2181"];
          CZkGet "/solr/clusterprops.json"] ++
     [CZkSet "/solr/clusterprops.json" "{urlScheme:https}" 7] ++ [CZkClose]).
Proof.
  exact (existing_cluster_properties_updated
           (env := populatedCluster None [] [] (Some "{}"))
           (collaborators := exampleCollaborators) (R := unit)
           zookeeperStatus [] "{}" (Some 7) {[ "raw" := JOther "{}" ]}
           eq_refl eq_refl eq_refl).
Defined.

(** A use of [connection_string_hosts_dialled], with two hosts. *)
Lemma connection_string_hosts_dialled_witness :
  exists o calls,
    setUrlSchemeClusterProperty
      (env := populatedCluster None [] [] None)
      (collaborators := exampleCollaborators) (R := unit)
      zookeeperStatus [] =
    (o, [] ++ CZkConnect ["zk-0:2181"; "zk-1:2181"] :: calls).
Proof.
  apply (connection_string_hosts_dialled
           (env := populatedCluster None [] [] None)
           (collaborators := exampleCollaborators) (R := unit)
           zookeeperStatus ["zk-0:2181"; "zk-1:2181"] []).
  - discriminate.
  - repeat constructor.
  - reflexivity.
Defined.

(** A use of [referenced_issuer_not_created]: the certificate is that of
    the issuer of the name ca-issuer. *)
Lemma referenced_issuer_not_created_witness :
  exists o calls,
    reconcileAutoCreateTLS
      (env := exampleEnvironment None [] [] (fun _ => false) ([], false))
      (collaborators := exampleCollaborators) (R := unit)
      (tlsCloud (Some "ca-issuer")) [] = (o, [] ++ calls) /\
    Forall (fun c => touchesIssuer c = false) calls.
Proof.
  eapply (referenced_issuer_not_created
            (env := exampleEnvironment None [] [] (fun _ => false)
                      ([], false))
            (collaborators := exampleCollaborators) (R := unit)
            (tlsCloud (Some "ca-issuer"))); reflexivity.
Defined.

(** A use of [certificate_awaited]: the self-signed certificate has just
    been created, and the pass is queued again after 2 seconds. *)
Lemma certificate_awaited_witness :
  exists t1,
    Reconcile_tls
      (env := exampleEnvironment None [] [] (fun _ => false) ([], false))
      (collaborators := exampleCollaborators)
      (tlsCloud None) Result_zero SolrCloudStatus_zero [] =
    (Return ({| Requeue := false; RequeueAfter := 2 * Second |}, None), t1).
Proof.
  eexists.
  eapply (certificate_awaited
            (env := exampleEnvironment None [] [] (fun _ => false)
                      ([], false))
            (collaborators := exampleCollaborators)
            (tlsCloud None) _
            {| autoCreate_Name := "example-solr-tls";
               autoCreate_IssuerRef := None |}
            Result_zero SolrCloudStatus_zero [] _ false None).
  - reflexivity.
  - reflexivity.
  - vm_compute. reflexivity.
  - left. reflexivity.
Defined.

(** A use of [provided_configMap_only_read]: the ConfigMap of the user
    exists and holds a solr.xml with the placeholder. *)
Lemma provided_configMap_only_read_witness :
  Reconcile_configMap
    (env := populatedCluster None [] [providedConfigMap] None)
    (collaborators := exampleCollaborators)
    providedConfigMapCloud Result_zero [] =
  (Next ("custom-solr-xml", "md5:<solr>${hostPort:8983}</solr>"),
   [] ++ [CGet KConfigMap {| nn_Name := "custom-solr-xml";
                             nn_Namespace := "default" |}]).
Proof.
  destruct (provided_configMap_only_read
              (env := populatedCluster None [] [providedConfigMap] None)
              (collaborators := exampleCollaborators)
              providedConfigMapCloud Result_zero [] "custom-solr-xml"
              eq_refl)
    as (o & Hrun & Ho).
  rewrite Hrun. destruct o as [[name md5]|[result err]|].
  - destruct Ho as (found & data & solrXml & Hfound & Hdata & Hxml & _
                    & -> & ->).
    vm_compute in Hfound. injection Hfound as <-.
    vm_compute in Hdata. injection Hdata as <-.
    vm_compute in Hxml. injection Hxml as <-. reflexivity.
  - exfalso. vm_compute in Hrun. discriminate Hrun.
  - destruct Ho.
Defined.

(** A use of [generated_configMap_checksum]: the ConfigMap does not
    exist and is created. *)
Lemma generated_configMap_checksum_witness :
  let cloud := exampleCloud 3 3 3 in
  exists calls solrXmlMd5,
    Reconcile_configMap
      (env := exampleEnvironment None [] [] (fun _ => false) ([], false))
      (collaborators := exampleCollaborators)
      cloud Result_zero [] =
      (Next ("example-solrcloud-configmap", solrXmlMd5), [] ++ calls) /\
    exists key,
      (calls = [CGet KConfigMap key] /\ solrXmlMd5 = "") \/
      exists written,
        (calls = [CGet KConfigMap key; CCreate (OConfigMap written)] \/
         calls = [CGet KConfigMap key; CUpdate (OConfigMap written)]) /\
        solrXmlMd5 =
          md5_hex (Collaborators := exampleCollaborators)
            (solrXmlOf written).
Proof.
  intros cloud.
  destruct (generated_configMap_checksum
              (env := exampleEnvironment None [] [] (fun _ => false)
                        ([], false))
              (collaborators := exampleCollaborators)
              cloud Result_zero [] eq_refl)
    as (o & calls & Hrun & Ho).
  destruct o as [[name md5]|[result err]|].
  - destruct (Ho name md5 eq_refl) as (-> & Hcalls).
    exists calls, md5. split; [exact Hrun|exact Hcalls].
  - exfalso. vm_compute in Hrun. discriminate Hrun.
  - exfalso. vm_compute in Hrun. discriminate Hrun.
Defined.

(** A use of [host_aliases_complete]: the services of the two nodes
    exist and have their cluster IPs, the StatefulSet is not blocked, and
    the node of ordinal 1 has its alias. *)
Lemma host_aliases_complete_witness :
  let names := ["example-solrcloud-0"; "example-solrcloud-1"] in
  let services := [nodeService "example-solrcloud-0" "10.0.0.1";
                   nodeService "example-solrcloud-1" "10.0.0.2"] in
  exists hostNameIpMap t',
    Reconcile_nodeServices
      (env := populatedCluster None services [] None)
      (collaborators := exampleCollaborators)
      nodeServicesCloud Result_zero names false [] =
      (Next (false, hostNameIpMap), t') /\
    is_Some (hostNameIpMap !! "example-solrcloud-1.default").
Proof.
  intros names services.
  edestruct (host_aliases_complete
               (env := populatedCluster None services [] None)
               (collaborators := exampleCollaborators)
               nodeServicesCloud)
    with (requeueOrNot := Result_zero) (solrNodeNames := names)
         (t := @nil Call) (blocked := false)
    as [_ Hall].
  - reflexivity.
  - reflexivity.
  - reflexivity.
  - vm_compute. reflexivity.
  - eexists _, _. split; [vm_compute; reflexivity|].
    apply (Hall eq_refl "example-solrcloud-1").
    apply list_elem_of_further, list_elem_of_here.
Defined.

(** A use of [node_statuses_sorted_by_name]: the pods are listed with
    the pod of ordinal 2 first, and the nodes stand in the order of the
    ordinals. *)
Lemma node_statuses_sorted_by_name_witness :
  let pods := [currentPod; unstartedPod; startedPod] in
  let statefulSet := exampleStatefulSet 3 2 "new" in
  exists status t' nodes,
    reconcileCloudStatus
      (env := exampleEnvironment (Some statefulSet) pods []
                (fun _ => false) ([], false))
      (collaborators := exampleCollaborators) (R := unit)
      (exampleCloud 3 3 2) SolrCloudStatus_zero (ss_Status statefulSet) [] =
      (Next status, t') /\
    SolrNodes (cs_newStatus status) = Some nodes /\
    node_Name <$> nodes =
      ["example-solrcloud-0"; "example-solrcloud-1"; "example-solrcloud-2"].
Proof.
  intros pods statefulSet.
  destruct (node_statuses_sorted_by_name
              (env := exampleEnvironment (Some statefulSet) pods []
                        (fun _ => false) ([], false))
              (collaborators := exampleCollaborators) (R := unit)
              (exampleCloud 3 3 2) SolrCloudStatus_zero
              (ss_Status statefulSet) [] pods 3)
    as (status & t' & nodes & Hrun & Hnodes & Hnames & _).
  - reflexivity.
  - reflexivity.
  - intros p Hin _.
    repeat (apply elem_of_cons in Hin as [->|Hin]; [discriminate|]).
    by apply not_elem_of_nil in Hin.
  - exists status, t', nodes. split; [exact Hrun|]. split; [exact Hnodes|].
    exact Hnames.
Defined.

(** A use of [pods_counted_once]: of three pods one is up to date, one
    is out of date and runs, and one is out of date and has not
    started. *)
Lemma pods_counted_once_witness :
  let pods := [unstartedPod; startedPod; currentPod] in
  let statefulSet := exampleStatefulSet 3 2 "new" in
  exists status t',
    reconcileCloudStatus
      (env := exampleEnvironment (Some statefulSet) pods []
                (fun _ => false) ([], false))
      (collaborators := exampleCollaborators) (R := unit)
      (exampleCloud 3 3 2) SolrCloudStatus_zero (ss_Status statefulSet) [] =
      (Next status, t') /\
    UpToDateNodes (cs_newStatus status) = 1 /\
    UpToDateNodes (cs_newStatus status) + len (cs_outOfDatePods status)
    + len (cs_outOfDatePodsNotStarted status) = 3.
Proof.
  intros pods statefulSet.
  destruct (pods_counted_once
              (env := exampleEnvironment (Some statefulSet) pods []
                        (fun _ => false) ([], false))
              (collaborators := exampleCollaborators) (R := unit)
              (exampleCloud 3 3 2) SolrCloudStatus_zero
              (ss_Status statefulSet) [] pods 3)
    as (status & t' & Hrun & HupToDate & Hall & _).
  - reflexivity.
  - reflexivity.
  - intros p Hin _.
    repeat (apply elem_of_cons in Hin as [->|Hin]; [discriminate|]).
    by apply not_elem_of_nil in Hin.
  - vm_compute. reflexivity.
  - exists status, t'. split; [exact Hrun|]. split; [exact HupToDate|].
    exact Hall.
Defined.

(** A use of [managed_update_requeue]: two pods have not started; the
    deletion of the second, which is made last, fails, and the pass ends
    with a requeue within 15 seconds. *)
Lemma managed_update_requeue_witness :
  let second :=
    examplePod "example-solrcloud-1" "old" "solr:8.8.0" false (Some false) in
  let world :=
    exampleCluster (Some (exampleCloud 2 2 0))
      (Some (exampleStatefulSet 2 0 "new")) [unstartedPod; second] []
      (failsToDelete "example-solrcloud-1") ([], false) in
  exists requeue passErr before after,
    Reconcile (env := world) (settings := exampleSettings false)
      (collaborators := exampleCollaborators) (R := unit)
      exampleRequest [] =
      (Next (requeue, passErr),
       [] ++ before ++ [podDeletion unstartedPod; podDeletion second]
         ++ after) /\
    0 < RequeueAfter requeue <= Second * 15.
Proof.
  intros second world.
  edestruct (managed_update_requeue
               (env := world) (settings := exampleSettings false)
               (collaborators := exampleCollaborators) (R := unit)
               exampleRequest)
    with (t := @nil Call) (replicas := 2)
    as (requeue & passErr & err & before & after & Hrun & Ht3 & _ & _
        & Hlast & Hbounds & _).
  - vm_compute. reflexivity.
  - vm_compute. reflexivity.
  - vm_compute. reflexivity.
  - vm_compute. reflexivity.
  - vm_compute. reflexivity.
  - vm_compute. reflexivity.
  - vm_compute. reflexivity.
  - vm_compute. split; reflexivity.
  - exists requeue, passErr, before, after. split; [exact Hrun|].
    apply Hbounds. left.
    destruct Hlast as [[Hnone _]|(front & last & Hpods & ->)].
    + discriminate Hnone.
    + apply (app_inj_tail [unstartedPod] front second last) in Hpods
        as [<- <-].
      rewrite Ht3. vm_compute. discriminate.
Defined.

(** A use of [resolver_error_ends_pass]: the object refers to no
    ZooKeeper, and the pass ends with the bad request. *)
Lemma resolver_error_ends_pass_witness :
  let cloud :=
    exampleCloudWithZookeeper
      {| ConnectionInfo := None; ProvidedZookeeper := None |} in
  exists t1,
    Reconcile
      (env := exampleCluster (Some cloud) None [] [] (fun _ => false)
                ([], false))
      (settings := exampleSettings true)
      (collaborators := exampleCollaborators) (R := unit)
      exampleRequest [] =
    (Next (Result_zero,
           Some (NewBadRequest "No Zookeeper reference information provided.")),
     t1).
Proof.
  intros cloud. eexists.
  eapply (resolver_error_ends_pass
            (env := exampleCluster (Some cloud) None [] [] (fun _ => false)
                      ([], false))
            (settings := exampleSettings true)
            (collaborators := exampleCollaborators) (R := unit)
            exampleRequest) with (t := @nil Call).
  - vm_compute. reflexivity.
  - vm_compute. reflexivity.
Defined.

(** A use of [null_cluster_properties_panic]: the node holds the JSON
    null. *)
Lemma null_cluster_properties_panic_witness :
  setUrlSchemeClusterProperty
    (env := populatedCluster None [] [] (Some "null"))
    (collaborators := exampleCollaborators) (R := unit)
    zookeeperStatus [] =
  (Panic,
   [] ++ [CZkConnect ["zk-0:2181"; "zk-1:2181"];
          CZkGet "/solr/clusterprops.json"; CZkClose]).
Proof.
  exact (null_cluster_properties_panic
           (env := populatedCluster None [] [] (Some "null"))
           (collaborators := exampleCollaborators) (R := unit)
           zookeeperStatus [] "null" (Some 7) eq_refl eq_refl eq_refl).
Defined.

(** A use of [url_scheme_set_before_statefulSet]: the TLS secret exists,
    ZooKeeper is reached, and the URL scheme is written to the cluster
    properties. *)
Lemma url_scheme_set_before_statefulSet_witness :
  exists instance' newStatus' needsPkcs12InitContainer t',
    Reconcile_tls
      (env := tlsCluster tlsSecret (Some "{}"))
      (collaborators := exampleCollaborators)
      providedTlsCloud Result_zero zookeeperStatus [] =
      (Next (instance', newStatus', needsPkcs12InitContainer), t') /\
    UrlSchemeClusterProperty newStatus' = true.
Proof.
  eexists _, _, _, _. split; [vm_compute; reflexivity|].
  eapply (url_scheme_set_before_statefulSet
            (env := tlsCluster tlsSecret (Some "{}"))
            (collaborators := exampleCollaborators)
            providedTlsCloud _ _ Result_zero zookeeperStatus _ _ []).
  - reflexivity.
  - vm_compute. reflexivity.
  - reflexivity.
  - discriminate.
Defined.


(** A use of [tls_wait_is_requeued]: the self-signed certificate has
    just been created. *)
Lemma tls_wait_is_requeued_witness :
  exists wait t',
    Reconcile_tls
      (env := exampleEnvironment None [] [] (fun _ => false) ([], false))
      (collaborators := exampleCollaborators)
      (tlsCloud None) Result_zero SolrCloudStatus_zero [] =
      (Return (set_RequeueAfter wait Result_zero, None), t') /\
    (wait = 2 * Second \/ wait = 5 * Second \/ wait = 30 * Second).
Proof.
  edestruct (tls_wait_is_requeued
               (env := exampleEnvironment None [] [] (fun _ => false)
                         ([], false))
               (collaborators := exampleCollaborators)
               (tlsCloud None) Result_zero SolrCloudStatus_zero)
    with (t := @nil Call) as (wait & Hresult & Hwait).
  - vm_compute. reflexivity.
  - exists wait. eexists. split; [|exact Hwait].
    rewrite <- Hresult. vm_compute. reflexivity.
Defined.

(** A use of [reconcileNodeService_address]: the service of the node
    exists, and its cluster IP is given back. *)
Lemma reconcileNodeService_address_witness :
  let services := [nodeService "example-solrcloud-0" "10.0.0.1"] in
  exists service found,
    SetControllerReference_Service (Collaborators := exampleCollaborators)
      nodeServicesCloud
      (GenerateNodeService (Collaborators := exampleCollaborators)
         nodeServicesCloud "example-solrcloud-0") =
      inl service /\
    get_Service (Environment := populatedCluster None services [] None) []
      {| nn_Name := svc_Name service;
         nn_Namespace := svc_Namespace service |} = inl found /\
    "10.0.0.1" =
      svc_ClusterIP
        (snd (CopyServiceFields (Collaborators := exampleCollaborators)
                service found)).
Proof.
  intros services.
  eapply (reconcileNodeService_address
            (env := populatedCluster None services [] None)
            (collaborators := exampleCollaborators) (R := unit)
            nodeServicesCloud "example-solrcloud-0" [] _ None "10.0.0.1").
  - vm_compute. reflexivity.
  - discriminate.
Defined.
